(** * Visionary: image generation front end with Google Drive / Sheets export

    A shallow embedding of the four serverless handlers
    ([api/auth/google/url.ts], [callback.ts], [status.ts],
    [api/save-to-google.ts]) and of the state handlers of the React
    [App] component, followed by the properties proved about them.

    Layout: the JavaScript runtime pieces the handlers rely on (values,
    strings, JSON, URI coding), the asynchronous-program monad, the server
    handlers, the client handlers, and then the theorems. *)

From Stdlib Require Import ZArith NArith Ascii String List Lia.
From Stdlib Require Import DecimalString DecimalFacts DecimalPos.
From stdpp Require Import base option list strings gmap.

Local Open Scope Z_scope.
Local Open Scope stdpp_scope.
Set Warnings "-register-all".

(* ===================================================================== *)
(** * JavaScript values and strings *)
(* ===================================================================== *)

Module JS.

(** Server-side strings are modelled by their UTF-8 bytes (one [ascii]
    per byte); every operation the handlers apply to them
    ([split(',')], template literals, [encodeURIComponent], emptiness
    tests) is defined on that view. *)

(** A JSON number literal, kept as the exact decimal
    [mantissa * 10 ^ exponent]. *)
Record jsnum := { mantissa : Z; exponent : Z }.

Inductive jsval : Type :=
| VUndefined
| VNull
| VBool (b : bool)
| VNum (n : jsnum)
| VStr (s : string)
| VArr (xs : list jsval)
| VObj (fields : list (string * jsval)).

(** A thrown value: an [Error]-like object.  [err_message = None] stands
    for a thrown value without a [message] property. *)
Record js_error := { err_name : string; err_message : option string }.

Definition TypeError (msg : string) : js_error :=
  {| err_name := "TypeError"; err_message := Some msg |}.
Definition SyntaxError (msg : string) : js_error :=
  {| err_name := "SyntaxError"; err_message := Some msg |}.

(** [!s] for a value of type [string | undefined]. *)
Definition string_is_empty (s : string) : bool :=
  match s with EmptyString => true | String _ _ => false end.

Definition falsy (s : option string) : bool :=
  match s with
  | None => true
  | Some t => string_is_empty t
  end.

(** [a || b] where [a : string | undefined]. *)
Definition or_else (a : option string) (b : string) : string :=
  match a with
  | Some (String c t) => String c t
  | _ => b
  end.

Definition of_option (o : option string) : jsval :=
  match o with Some s => VStr s | None => VUndefined end.

(** [obj[key]] on an object's own properties. *)
Fixpoint get_field (key : string) (fields : list (string * jsval)) : jsval :=
  match fields with
  | [] => VUndefined
  | (k, v) :: rest => if String.eqb k key then v else get_field key rest
  end.

(** Property assignment during object construction: an existing key keeps
    its position and takes the new value. *)
Fixpoint set_field (key : string) (v : jsval) (fields : list (string * jsval))
  : list (string * jsval) :=
  match fields with
  | [] => [(key, v)]
  | (k, w) :: rest =>
      if String.eqb k key then (k, v) :: rest
      else (k, w) :: set_field key v rest
  end.

(** [s.split(sep)] for a one-character separator. *)
Fixpoint split_go (sep : ascii) (cur : string) (s : string) : list string :=
  match s with
  | EmptyString => [String.rev cur]
  | String c r =>
      if Ascii.eqb c sep then String.rev cur :: split_go sep EmptyString r
      else split_go sep (String c cur) r
  end.

Definition split (sep : ascii) (s : string) : list string :=
  split_go sep EmptyString s.

(** Template-literal rendering of an integral number. *)
Definition Z_to_string (z : Z) : string :=
  NilZero.string_of_int (Z.to_int z).

Arguments Z_to_string : simpl never.
Arguments or_else : simpl never.
Arguments split : simpl never.

End JS.

(* ===================================================================== *)
(** * JSON.parse and JSON.stringify *)
(* ===================================================================== *)

Module Json.
Import JS.

Definition is_ws (c : ascii) : bool :=
  match nat_of_ascii c with
  | 32%nat | 9%nat | 10%nat | 13%nat => true
  | _ => false
  end.

Fixpoint skip_ws (s : string) : string :=
  match s with
  | String c r => if is_ws c then skip_ws r else s
  | EmptyString => s
  end.

Definition digit_of (c : ascii) : option Z :=
  let n := Z.of_nat (nat_of_ascii c) in
  if (48 <=? n) && (n <=? 57) then Some (n - 48) else None.

Definition hex_of (c : ascii) : option Z :=
  let n := Z.of_nat (nat_of_ascii c) in
  if (48 <=? n) && (n <=? 57) then Some (n - 48)
  else if (65 <=? n) && (n <=? 70) then Some (n - 55)
  else if (97 <=? n) && (n <=? 102) then Some (n - 87)
  else None.

(** Reads a maximal run of decimal digits: value so far, digits read. *)
Fixpoint digits (s : string) (acc : Z) (count : Z) : Z * Z * string :=
  match s with
  | String c r =>
      match digit_of c with
      | Some d => digits r (10 * acc + d) (count + 1)
      | None => (acc, count, s)
      end
  | EmptyString => (acc, count, s)
  end.

(** [int] of the JSON grammar: [0] or a non-zero digit followed by digits. *)
Definition parse_int (s : string) : option (Z * string) :=
  match s with
  | String c r =>
      match digit_of c with
      | Some 0 => Some (0, r)
      | Some d => let '(v, _, r') := digits r d 1 in Some (v, r')
      | None => None
      end
  | EmptyString => None
  end.

Definition parse_frac (s : string) (m : Z) : option (Z * Z * string) :=
  match s with
  | String "."%char r =>
      let '(v, k, r') := digits r m 0 in
      if k =? 0 then None else Some (v, k, r')
  | _ => Some (m, 0, s)
  end.

Definition parse_exp (s : string) : option (Z * string) :=
  let signed (neg : bool) (r : string) :=
    let '(v, k, r') := digits r 0 0 in
    if k =? 0 then None else Some (if neg then - v else v, r') in
  match s with
  | String c r =>
      if Ascii.eqb c "e" || Ascii.eqb c "E" then
        match r with
        | String "+"%char r' => signed false r'
        | String "-"%char r' => signed true r'
        | _ => signed false r
        end
      else Some (0, s)
  | EmptyString => Some (0, s)
  end.

(** A number without its sign: mantissa, exponent, rest. *)
Definition parse_unsigned (s : string) : option (Z * Z * string) :=
  match parse_int s with
  | None => None
  | Some (i, s2) =>
      match parse_frac s2 i with
      | None => None
      | Some (m, k, s3) =>
          match parse_exp s3 with
          | None => None
          | Some (e, s4) => Some (m, e - k, s4)
          end
      end
  end.

Definition parse_number (s : string) : option (jsnum * string) :=
  match s with
  | String "-"%char r =>
      match parse_unsigned r with
      | Some (m, e, r') => Some ({| mantissa := - m; exponent := e |}, r')
      | None => None
      end
  | _ =>
      match parse_unsigned s with
      | Some (m, e, r') => Some ({| mantissa := m; exponent := e |}, r')
      | None => None
      end
  end.

(** UTF-8 bytes of a code point (surrogate code points are written in
    the same three-byte form). *)
Definition byte (z : Z) : ascii := ascii_of_nat (Z.to_nat z).

Definition utf8 (cp : Z) : string :=
  if cp <? 128 then String (byte cp) EmptyString
  else if cp <? 2048 then
    String (byte (192 + cp / 64)) (String (byte (128 + cp mod 64)) EmptyString)
  else if cp <? 65536 then
    String (byte (224 + cp / 4096))
      (String (byte (128 + (cp / 64) mod 64))
         (String (byte (128 + cp mod 64)) EmptyString))
  else
    String (byte (240 + cp / 262144))
      (String (byte (128 + (cp / 4096) mod 64))
         (String (byte (128 + (cp / 64) mod 64))
            (String (byte (128 + cp mod 64)) EmptyString))).

Definition hex4 (s : string) : option (Z * string) :=
  match s with
  | String a (String b (String c (String d r))) =>
      match hex_of a, hex_of b, hex_of c, hex_of d with
      | Some x, Some y, Some z, Some w => Some (4096 * x + 256 * y + 16 * z + w, r)
      | _, _, _, _ => None
      end
  | _ => None
  end.

(** A [\uXXXX] escape; a high surrogate immediately followed by an escaped
    low surrogate is one code point. *)
Definition parse_unicode_escape (s : string) : option (string * string) :=
  match hex4 s with
  | None => None
  | Some (u, r) =>
      if (55296 <=? u) && (u <=? 56319) then
        match r with
        | String "\"%char (String "u"%char r') =>
            match hex4 r' with
            | Some (l, r'') =>
                if (56320 <=? l) && (l <=? 57343)
                then Some (utf8 (65536 + (u - 55296) * 1024 + (l - 56320)), r'')
                else Some (utf8 u, r)
            | None => Some (utf8 u, r)
            end
        | _ => Some (utf8 u, r)
        end
      else Some (utf8 u, r)
  end.

(** The characters of a string literal after its opening quote. *)
Fixpoint parse_chars (fuel : nat) (s : string) (acc : string) : option (string * string) :=
  match fuel with
  | O => None
  | S fuel =>
      match s with
      | EmptyString => None
      | String c r =>
          if Ascii.eqb c (ascii_of_nat 34) then Some (String.rev acc, r)
          else if Ascii.eqb c "\" then
            match r with
            | EmptyString => None
            | String e r' =>
                let simple (b : nat) := parse_chars fuel r' (String (ascii_of_nat b) acc) in
                match nat_of_ascii e with
                | 34%nat => simple 34%nat
                | 92%nat => simple 92%nat
                | 47%nat => simple 47%nat
                | 98%nat => simple 8%nat
                | 102%nat => simple 12%nat
                | 110%nat => simple 10%nat
                | 114%nat => simple 13%nat
                | 116%nat => simple 9%nat
                | 117%nat =>
                    match parse_unicode_escape r' with
                    | Some (bytes, r'') =>
                        parse_chars fuel r'' (String.rev_app bytes acc)
                    | None => None
                    end
                | _ => None
                end
            end
          else if (nat_of_ascii c <? 32)%nat then None
          else parse_chars fuel r (String c acc)
      end
  end.

Definition parse_string (s : string) : option (string * string) :=
  match s with
  | String c r =>
      if Ascii.eqb c (ascii_of_nat 34)
      then parse_chars (S (String.length r)) r EmptyString
      else None
  | EmptyString => None
  end.

Definition expect (lit : string) (v : jsval) (s : string) : option (jsval * string) :=
  if String.prefix lit s
  then Some (v, String.substring (String.length lit) (String.length s - String.length lit) s)
  else None.

Fixpoint parse_value (fuel : nat) (s : string) : option (jsval * string) :=
  match fuel with
  | O => None
  | S fuel =>
      match skip_ws s with
      | EmptyString => None
      | String c r as s' =>
          match nat_of_ascii c with
          | 110%nat => expect "null" VNull s'
          | 116%nat => expect "true" (VBool true) s'
          | 102%nat => expect "false" (VBool false) s'
          | 34%nat =>
              match parse_string s' with
              | Some (str, r') => Some (VStr str, r')
              | None => None
              end
          | 91%nat =>
              match skip_ws r with
              | String "]"%char r' => Some (VArr [], r')
              | _ => parse_elements fuel r []
              end
          | 123%nat =>
              match skip_ws r with
              | String "}"%char r' => Some (VObj [], r')
              | _ => parse_members fuel r []
              end
          | _ =>
              match parse_number s' with
              | Some (n, r') => Some (VNum n, r')
              | None => None
              end
          end
      end
  end
with parse_elements (fuel : nat) (s : string) (acc : list jsval)
  : option (jsval * string) :=
  match fuel with
  | O => None
  | S fuel =>
      match parse_value fuel s with
      | None => None
      | Some (v, r) =>
          match skip_ws r with
          | String ","%char r' => parse_elements fuel r' (v :: acc)
          | String "]"%char r' => Some (VArr (rev (v :: acc)), r')
          | _ => None
          end
      end
  end
with parse_members (fuel : nat) (s : string) (acc : list (string * jsval))
  : option (jsval * string) :=
  match fuel with
  | O => None
  | S fuel =>
      match parse_string (skip_ws s) with
      | None => None
      | Some (key, r) =>
          match skip_ws r with
          | String ":"%char r1 =>
              match parse_value fuel r1 with
              | None => None
              | Some (v, r2) =>
                  match skip_ws r2 with
                  | String ","%char r' => parse_members fuel r' (set_field key v acc)
                  | String "}"%char r' => Some (VObj (set_field key v acc), r')
                  | _ => None
                  end
              end
          | _ => None
          end
      end
  end.

(** [JSON.parse(text)]: [None] stands for the [SyntaxError] it throws. *)
Definition JSON_parse (text : string) : option jsval :=
  match parse_value (2 * String.length text + 2) text with
  | Some (v, r) =>
      match skip_ws r with
      | EmptyString => Some v
      | String _ _ => None
      end
  | None => None
  end.

(** What follows a value inside an object: the next member or the closing
    brace. *)
Definition closes (rest : string) : Prop :=
  ∃ r, rest = String ","%char r ∨ rest = String "}"%char r.

(** ** JSON.stringify *)

Definition hex_digit (z : Z) : ascii :=
  if z <? 10 then byte (48 + z) else byte (87 + z).

Definition quote_char (c : ascii) : string :=
  let n := Z.of_nat (nat_of_ascii c) in
  let esc (e : ascii) := String "\"%char (String e EmptyString) in
  if n =? 34 then esc (ascii_of_nat 34)
  else if n =? 92 then esc "\"%char
  else if n =? 8 then esc "b"%char
  else if n =? 9 then esc "t"%char
  else if n =? 10 then esc "n"%char
  else if n =? 12 then esc "f"%char
  else if n =? 13 then esc "r"%char
  else if n <? 32 then
    "\u00" +:+ String (hex_digit (n / 16)) (String (hex_digit (n mod 16)) EmptyString)
  else String c EmptyString.

Fixpoint quote_chars (s : string) : string :=
  match s with
  | EmptyString => EmptyString
  | String c r => quote_char c +:+ quote_chars r
  end.

(** The quotation mark, character 34. *)
Abbreviation mark := (Ascii false true false false false true false false).

Definition dquote : string := String mark EmptyString.

(** [QuoteJSONString]. *)
Definition quote (s : string) : string := dquote +:+ quote_chars s +:+ dquote.

End Json.

(* ===================================================================== *)
(** * encodeURIComponent / decodeURIComponent *)
(* ===================================================================== *)

Module Uri.
Import JS.

(** The characters [encodeURIComponent] leaves alone:
    [A-Z a-z 0-9 - _ . ! ~ * ' ( )]. *)
Definition unreserved (c : ascii) : bool :=
  let n := Z.of_nat (nat_of_ascii c) in
  ((65 <=? n) && (n <=? 90)) || ((97 <=? n) && (n <=? 122))
  || ((48 <=? n) && (n <=? 57))
  || (n =? 45) || (n =? 95) || (n =? 46) || (n =? 33) || (n =? 126)
  || (n =? 42) || (n =? 39) || (n =? 40) || (n =? 41).

Definition HEX (z : Z) : ascii :=
  if z <? 10 then Json.byte (48 + z) else Json.byte (55 + z).

Definition percent (c : ascii) : string :=
  let n := Z.of_nat (nat_of_ascii c) in
  String "%"%char (String (HEX (n / 16)) (String (HEX (n mod 16)) EmptyString)).

Definition encode_char (c : ascii) : string :=
  if unreserved c then String c EmptyString else percent c.

Fixpoint encodeURIComponent (s : string) : string :=
  match s with
  | EmptyString => EmptyString
  | String c r => encode_char c +:+ encodeURIComponent r
  end.

(** [None] stands for the [URIError] thrown at a [%] that is not followed
    by two hexadecimal digits. *)
Fixpoint decodeURIComponent (s : string) : option string :=
  match s with
  | EmptyString => Some EmptyString
  | String c r =>
      if Ascii.eqb c "%" then
        match r with
        | String a (String b r') =>
            match Json.hex_of a, Json.hex_of b, decodeURIComponent r' with
            | Some x, Some y, Some t => Some (String (Json.byte (16 * x + y)) t)
            | _, _, _ => None
            end
        | _ => None
        end
      else
        match decodeURIComponent r with
        | Some t => Some (String c t)
        | None => None
        end
  end.

End Uri.

(* ===================================================================== *)
(** * Cookies: what the browser keeps and what cookie-parser hands over *)
(* ===================================================================== *)

Module Cookie.
Import JS.

(** Splits at the first occurrence of [sep]; [None] when it does not occur. *)
Fixpoint cut (sep : ascii) (s : string) : option (string * string) :=
  match s with
  | EmptyString => None
  | String c r =>
      if Ascii.eqb c sep then Some (EmptyString, r)
      else match cut sep r with
           | Some (a, b) => Some (String c a, b)
           | None => None
           end
  end.

Fixpoint occurs (sep : ascii) (s : string) : bool :=
  match s with
  | EmptyString => false
  | String c r => Ascii.eqb c sep || occurs sep r
  end.

(** The name/value pair a user agent stores for a [Set-Cookie] header: the
    text before the first [;], split at its first [=]. *)
Definition stored_pair (set_cookie : string) : option (string * string) :=
  let nv := match cut ";" set_cookie with
            | Some (a, _) => a
            | None => set_cookie
            end in
  cut "=" nv.

(** cookie-parser decodes a value with [decodeURIComponent] and keeps the
    raw text when that throws.  (Its JSON cookies, values that start with
    [j:], are left out: an encoded JSON object never starts that way.) *)
Definition tryDecode (v : string) : string :=
  match Uri.decodeURIComponent v with
  | Some t => t
  | None => v
  end.

(** [req.cookies] for the pairs of the [Cookie] header, in header order;
    the first occurrence of a name wins. *)
Fixpoint cookieParser (pairs : list (string * string)) : gmap string string :=
  match pairs with
  | [] => ∅
  | (k, v) :: rest => <[k := tryDecode v]> (cookieParser rest)
  end.

End Cookie.

(* ===================================================================== *)
(** * Asynchronous programs *)
(* ===================================================================== *)

Module Async.

(** An [async] function body: it returns, throws, or performs an effect of
    the signature [E] and continues with the effect's answer. *)
Inductive prog (E : Type → Type) (Ex A : Type) : Type :=
| Ret (a : A)
| Throw (e : Ex)
| Vis {X : Type} (c : E X) (k : X → prog E Ex A).

Arguments Ret {E Ex A} a.
Arguments Throw {E Ex A} e.
Arguments Vis {E Ex A X} c k.

Fixpoint bind {E Ex A B} (p : prog E Ex A) (f : A → prog E Ex B) : prog E Ex B :=
  match p with
  | Ret a => f a
  | Throw e => Throw e
  | Vis c k => Vis c (λ x, bind (k x) f)
  end.

(** [try { p } catch (e) { h e }] *)
Fixpoint try_catch {E Ex A} (p : prog E Ex A) (h : Ex → prog E Ex A) : prog E Ex A :=
  match p with
  | Ret a => Ret a
  | Throw e => h e
  | Vis c k => Vis c (λ x, try_catch (k x) h)
  end.

(** [try { p } finally { q }] *)
Fixpoint finally {E Ex A} (p : prog E Ex A) (q : prog E Ex unit) : prog E Ex A :=
  match p with
  | Ret a => bind q (λ _, Ret a)
  | Throw e => bind q (λ _, Throw e)
  | Vis c k => Vis c (λ x, finally (k x) q)
  end.

#[export] Instance prog_ret {E Ex} : MRet (prog E Ex) := λ A a, Ret a.
#[export] Instance prog_bind {E Ex} : MBind (prog E Ex) := λ A B f p, bind p f.

(** A call that cannot fail. *)
Definition perform {E Ex X} (c : E X) : prog E Ex X := Vis c Ret.

(** [await c] for a promise that resolves with a value or rejects. *)
Definition await {E Ex X} (c : E (Ex + X)%type) : prog E Ex X :=
  Vis c (λ r, match r with inl e => Throw e | inr x => Ret x end).

(** How an invocation of an [async] function settles. *)
Inductive outcome (Ex A : Type) : Type :=
| Fulfilled (a : A)
| Rejected (e : Ex).

Arguments Fulfilled {Ex A} a.
Arguments Rejected {Ex A} e.

(** One performed effect together with its answer. *)
Inductive event (E : Type → Type) : Type :=
| Ev {X : Type} (c : E X) (x : X).

Arguments Ev {E X} c x.

End Async.

(* ===================================================================== *)
(** * The serverless handlers *)
(* ===================================================================== *)

Module Server.
Import JS Async.

(** ** googleapis data *)

(** [drive_v3.Schema$File], restricted to the requested fields; [None] is
    an absent ([undefined] or [null]) field. *)
Record Schema_File := { id : option string; webViewLink : option string }.

Record Schema_FileList := { files : option (list Schema_File) }.

Record Schema_Spreadsheet := { spreadsheetId : option string }.

(** The result of [Buffer.from(text, 'base64')], kept as the text it decodes. *)
Record Buffer := { base64 : string }.

(** A property of the token object returned by [oauth2Client.getToken]. *)
Inductive token_field :=
| TStr (s : string)
| TInt (n : Z)
| TNull
| TUndefined.

(** [Credentials]: the token object's own properties, in insertion order
    ([access_token], [refresh_token], [scope], [token_type], [expiry_date],
    ...). *)
Definition Credentials := list (string * token_field).

Record GetTokenResponse := { tokens : Credentials }.

(** The JSON text and the parsed value of a property; [undefined] has
    neither.  An integral number (below [10 ^ 21] in magnitude, as epoch
    milliseconds and lifetimes are) prints as its decimal digits. *)
Definition field_text (f : token_field) : option string :=
  match f with
  | TStr s => Some (Json.quote s)
  | TInt n => Some (Z_to_string n)
  | TNull => Some "null"
  | TUndefined => None
  end.

Definition field_value (f : token_field) : option jsval :=
  match f with
  | TStr s => Some (VStr s)
  | TInt n => Some (VNum {| mantissa := n; exponent := 0 |})
  | TNull => Some VNull
  | TUndefined => None
  end.

(** The token object as a value: what [JSON.parse] makes of its JSON text. *)
Definition credentials_value (t : Credentials) : jsval :=
  VObj (foldl (λ acc kv,
                 match field_value kv.2 with
                 | Some v => set_field kv.1 v acc
                 | None => acc
                 end) [] t).

(** [JSON.stringify(tokens)]: the members in property order, properties
    holding [undefined] left out. *)
Definition stringify_field (kv : string * token_field) : option string :=
  match field_text kv.2 with
  | Some text => Some (Json.quote kv.1 +:+ ":" +:+ text)
  | None => None
  end.

Fixpoint join (sep : string) (parts : list string) : string :=
  match parts with
  | [] => EmptyString
  | [p] => p
  | p :: rest => p +:+ sep +:+ join sep rest
  end.

Definition JSON_stringify (t : Credentials) : string :=
  "{" +:+ join "," (omap stringify_field t) +:+ "}".

(** The members of that text: key, text and value of each property that is
    not [undefined]. *)
Definition members (t : Credentials) : list (string * string * jsval) :=
  omap (λ kv, match field_text kv.2, field_value kv.2 with
              | Some text, Some v => Some (kv.1, text, v)
              | _, _ => None
              end) t.

Definition member_text (m : string * string * jsval) : string :=
  Json.quote m.1.1 +:+ ":" +:+ m.1.2.

(** A member whose text, wherever it stands inside an object, parses to
    its value. *)
Definition reads_back (m : string * string * jsval) : Prop :=
  ∀ fuel rest, Json.closes rest →
    Json.parse_value (S fuel) (m.1.2 +:+ rest) = Some (m.2, rest).

(** ** Effects of a handler *)

(** Requests to Google; each one resolves with its [data] or rejects. *)
Inductive gapi : Type → Type :=
| oauth2Client_getToken (code : jsval) : gapi GetTokenResponse
| drive_files_create (name mimeType : string)
    (media_mimeType : string) (media_body : Buffer) (fields : string)
  : gapi Schema_File
| drive_files_list (q fields : string) : gapi Schema_FileList
| sheets_spreadsheets_create (title : string) (sheets : list string)
  : gapi Schema_Spreadsheet
| sheets_spreadsheets_values_update (spreadsheetId : option string)
    (range valueInputOption : string) (values : list (list jsval))
  : gapi unit
| sheets_spreadsheets_values_append (spreadsheetId : option string)
    (range valueInputOption : string) (values : list (list jsval))
  : gapi unit.

Inductive effect : Type → Type :=
| Google {X : Type} (c : gapi X) : effect (js_error + X)%type
| oauth2Client_generateAuthUrl (access_type : string) (scope : list string)
    (prompt : string) : effect string
| oauth2Client_setCredentials (tokens : jsval) : effect unit
| Date_now : effect Z
| new_Date_toISOString : effect string
| console_error (label : string) (e : js_error) : effect unit
| res_status (code : Z) : effect unit
| res_setHeader (name value : string) : effect unit
| res_json (body : jsval) : effect unit
| res_send (body : string) : effect unit.

Definition handler := prog effect js_error unit.

(** ** Requests and responses *)

Record VercelRequest := {
  cookies : gmap string string;
  query : gmap string string;
  body : jsval
}.

Inductive Payload :=
| JsonBody (v : jsval)
| TextBody (s : string).

Record VercelResponse := {
  statusCode : Z;
  headers : list (string * string);
  payload : option Payload
}.

Definition fresh_response : VercelResponse :=
  {| statusCode := 200; headers := []; payload := None |}.

(** The request as it arrives: the pairs of its [Cookie] header. *)
Record IncomingRequest := {
  cookie_header : list (string * string);
  in_query : gmap string string;
  in_body : jsval
}.

(** [parseCookies(handler)]: cookie-parser fills [req.cookies], then the
    handler runs. *)
Definition parseCookies (h : VercelRequest → handler) (req : IncomingRequest) : handler :=
  h {| cookies := Cookie.cookieParser (cookie_header req);
       query := in_query req;
       body := in_body req |}.

(** ** api/auth/google/url.ts *)

Definition SCOPES : list string :=
  ["https://www.googleapis.com/auth/drive.file";
   "https://www.googleapis.com/auth/spreadsheets"].

Definition urlHandler (req : VercelRequest) : handler :=
  url ← perform (oauth2Client_generateAuthUrl "offline" SCOPES "consent");
  perform (res_json (VObj [("url", VStr url)])).

(** ** api/auth/google/status.ts *)

Definition statusHandler (req : VercelRequest) : handler :=
  let tokens := cookies req !! "google_tokens" in
  perform (res_json (VObj [("isAuthenticated", VBool (negb (falsy tokens)))])).

(** ** api/auth/google/callback.ts *)

Definition success_page : string := "
      <html>
        <body>
          <script>
            if (window.opener) {
              window.opener.postMessage({ type: 'OAUTH_AUTH_SUCCESS' }, '*');
              window.close();
            } else {
              window.location.href = '/';
            }
          </script>
          <p>Authentication successful. This window should close automatically.</p>
        </body>
      </html>
    ".

Definition set_cookie_header (t : Credentials) : string :=
  let cookieValue := JSON_stringify t in
  "google_tokens=" +:+ Uri.encodeURIComponent cookieValue
    +:+ "; Path=/; HttpOnly; Secure; SameSite=None; Max-Age="
    +:+ Z_to_string (30 * 24 * 60 * 60).

Definition callbackHandler (req : VercelRequest) : handler :=
  let code := of_option (query req !! "code") in
  try_catch
    (r ← await (Google (oauth2Client_getToken code));
     perform (res_setHeader "Set-Cookie" (set_cookie_header (tokens r)));;
     perform (res_send success_page))
    (λ error,
      perform (console_error "Error exchanging code:" error);;
      perform (res_status 500);;
      perform (res_send "Authentication failed")).

(** ** api/save-to-google.ts *)

(** [v[key]] for a parsed JSON value other than [null]: only an object has
    own properties of these names. *)
Definition prop (key : string) (v : jsval) : jsval :=
  match v with
  | VObj fields => get_field key fields
  | _ => VUndefined
  end.

(** [const { imageData, prompt, aspectRatio } = req.body] *)
Definition destructure_body (b : jsval) : prog effect js_error (jsval * jsval * jsval) :=
  match b with
  | VUndefined =>
      Throw (TypeError
        "Cannot destructure property 'imageData' of 'req.body' as it is undefined.")
  | VNull =>
      Throw (TypeError
        "Cannot destructure property 'imageData' of 'req.body' as it is null.")
  | _ => Ret (prop "imageData" b, prop "prompt" b, prop "aspectRatio" b)
  end.

(** [JSON.parse(tokensStr)]; the message of the [SyntaxError] is the
    engine's and plays no part below. *)
Definition JSON_parse (text : string) : prog effect js_error jsval :=
  match Json.JSON_parse text with
  | Some v => Ret v
  | None => Throw (SyntaxError "Unexpected token in JSON")
  end.

(** [imageData.split(',')[1]] *)
Definition split_payload (imageData : jsval) : prog effect js_error (option string) :=
  match imageData with
  | VStr s => Ret (JS.split "," s !! 1%nat)
  | VUndefined =>
      Throw (TypeError "Cannot read properties of undefined (reading 'split')")
  | VNull =>
      Throw (TypeError "Cannot read properties of null (reading 'split')")
  | _ => Throw (TypeError "imageData.split is not a function")
  end.

(** [Buffer.from(base64Data, 'base64')] *)
Definition Buffer_from (base64Data : option string) : prog effect js_error Buffer :=
  match base64Data with
  | Some text => Ret {| base64 := text |}
  | None =>
      Throw (TypeError
        "The first argument must be of type string or an instance of Buffer, ArrayBuffer, or Array or an Array-like Object. Received undefined")
  end.

Definition header_row : list (list jsval) :=
  [[VStr "Timestamp"; VStr "Prompt"; VStr "Aspect Ratio"; VStr "Drive Link"]].

Definition list_query : string :=
  "name = 'Visionary AI Generations' and mimeType = 'application/vnd.google-apps.spreadsheet'".

(** The body of the [try] block. *)
Definition export_steps (imageData prompt aspectRatio : jsval) : handler :=
  (* 1. Upload to Drive *)
  base64Data ← split_payload imageData;
  buffer ← Buffer_from base64Data;
  now ← perform Date_now;
  driveResponse ← await (Google (drive_files_create
    ("Visionary_" +:+ Z_to_string now +:+ ".png") "image/png"
    "image/png" buffer "id, webViewLink"));
  let fileLink := webViewLink driveResponse in
  (* 2. Find or Create Spreadsheet *)
  listResponse ← await (Google (drive_files_list list_query "files(id)"));
  sheetId ←
    match files listResponse with
    | Some (first :: _) => Ret (id first)
    | _ =>
        createResponse ← await (Google (sheets_spreadsheets_create
          "Visionary AI Generations" ["Generations"]));
        let sheetId := spreadsheetId createResponse in
        await (Google (sheets_spreadsheets_values_update sheetId
          "Generations!A1:D1" "RAW" header_row));;
        Ret sheetId
    end;
  (* 3. Append to Sheets *)
  iso ← perform new_Date_toISOString;
  await (Google (sheets_spreadsheets_values_append sheetId
    "Generations!A:D" "RAW"
    [[VStr iso; prompt; aspectRatio; of_option fileLink]]));;
  perform (res_json (VObj [("success", VBool true); ("fileLink", of_option fileLink)])).

(** The [catch] block. *)
Definition on_error (error : js_error) : handler :=
  perform (console_error "Error saving to Google:" error);;
  perform (res_status 500);;
  perform (res_json
    (VObj [("error", VStr (or_else (err_message error) "Failed to save to Google"))])).

Definition saveToGoogleHandler (req : VercelRequest) : handler :=
  match cookies req !! "google_tokens" with
  | None | Some EmptyString =>
      perform (res_status 401);;
      perform (res_json (VObj [("error", VStr "Not authenticated with Google")]))
  | Some tokensStr =>
      '(imageData, prompt, aspectRatio) ← destructure_body (body req);
      tokens ← JSON_parse tokensStr;
      perform (oauth2Client_setCredentials tokens);;
      try_catch (export_steps imageData prompt aspectRatio) on_error
  end.

(** ** Running a handler *)

(** The result of one invocation against an environment of state [G]. *)
Record Run (G : Type) := {
  settled : outcome js_error unit;
  remote : G;
  response : VercelResponse;
  trace : list (event effect)
}.

Arguments settled {G} r.
Arguments remote {G} r.
Arguments response {G} r.
Arguments trace {G} r.

(** What an effect does to the response object. *)
Definition on_response {X} (c : effect X) (r : VercelResponse) : VercelResponse :=
  match c with
  | res_status code =>
      {| statusCode := code; headers := headers r; payload := payload r |}
  | res_setHeader name value =>
      {| statusCode := statusCode r; headers := headers r ++ [(name, value)];
         payload := payload r |}
  | res_json v =>
      {| statusCode := statusCode r; headers := headers r;
         payload := Some (JsonBody v) |}
  | res_send s =>
      {| statusCode := statusCode r; headers := headers r;
         payload := Some (TextBody s) |}
  | _ => r
  end.

(** A run that starts with the event [e] and goes on as [rest]. *)
Definition after {G} (e : event effect) (rest : Run G) : Run G :=
  {| settled := settled rest; remote := remote rest;
     response := response rest; trace := e :: trace rest |}.

(** [serve] answers every effect from the environment: Google's replies,
    the clock, the log. *)
Fixpoint run {G} (serve : ∀ X, effect X → G → X * G)
    (p : handler) (g : G) (r : VercelResponse) : Run G :=
  match p with
  | Ret a => {| settled := Fulfilled a; remote := g; response := r; trace := [] |}
  | Throw e => {| settled := Rejected e; remote := g; response := r; trace := [] |}
  | Vis c k =>
      let '(x, g') := serve _ c g in
      after (Ev c x) (run serve (k x) g' (on_response c r))
  end.

(** Requests that left the server, in order. *)
Definition is_outbound (e : event effect) : bool :=
  match e with
  | Ev (Google _) _ => true
  | _ => false
  end.

Definition outbound (tr : list (event effect)) : list (event effect) :=
  List.filter is_outbound tr.

(** A request to Google that was rejected. *)
Definition is_failure (e : event effect) : bool :=
  match e with
  | Ev (Google _) (inl _) => true
  | _ => false
  end.

(** A request that Google resolved with [x], and one it rejected with [e]. *)
Definition resolved {X} (c : gapi X) (x : X) : event effect := Ev (Google c) (inr x).
Definition rejected {X} (c : gapi X) (e : js_error) : event effect := Ev (Google c) (inl e).

(** The five requests of the export, by their arguments. *)
Definition upload_request (now : Z) (b64 : string) : gapi Schema_File :=
  drive_files_create ("Visionary_" +:+ Z_to_string now +:+ ".png") "image/png"
    "image/png" {| base64 := b64 |} "id, webViewLink".
Definition list_request : gapi Schema_FileList :=
  drive_files_list list_query "files(id)".
Definition create_request : gapi Schema_Spreadsheet :=
  sheets_spreadsheets_create "Visionary AI Generations" ["Generations"].
Definition header_request (sheet : option string) : gapi unit :=
  sheets_spreadsheets_values_update sheet "Generations!A1:D1" "RAW" header_row.
Definition append_request (sheet : option string) (row : list jsval) : gapi unit :=
  sheets_spreadsheets_values_append sheet "Generations!A:D" "RAW" [row].

(** The files a resolved [drive.files.list] reported. *)
Definition listed (e : event effect) : option Schema_FileList :=
  match e with
  | Ev (Google (drive_files_list _ _)) (inr l) => Some l
  | _ => None
  end.

(** The listing result of a run, when it got one. *)
Definition listing (tr : list (event effect)) : option Schema_FileList :=
  head (omap listed tr).

(** What the [catch] block does with the error [e]. *)
Definition error_report (e : js_error) : list (event effect) :=
  [Ev (console_error "Error saving to Google:" e) tt;
   Ev (res_status 500) tt;
   Ev (res_json (VObj [("error",
         VStr (or_else (err_message e) "Failed to save to Google"))])) tt].

Definition error_response (e : js_error) : VercelResponse :=
  {| statusCode := 500; headers := [];
     payload := Some (JsonBody (VObj [("error",
       VStr (or_else (err_message e) "Failed to save to Google"))])) |}.

End Server.

(* ===================================================================== *)
(** * The client: state handlers of the [App] component *)
(* ===================================================================== *)

Module Client.
Import Async.

(** Client-side strings are sequences of UTF-16 code units. *)
Definition jstr := list N.

Definition lit (s : string) : jstr := map N_of_ascii (list_ascii_of_string s).

(** ECMAScript [WhiteSpace] and [LineTerminator] code units, the ones
    [String.prototype.trim] strips. *)
Definition is_whitespace (c : N) : bool :=
  ((9 <=? c) && (c <=? 13))%N || (c =? 32)%N || (c =? 160)%N || (c =? 5760)%N
  || ((8192 <=? c) && (c <=? 8202))%N || (c =? 8232)%N || (c =? 8233)%N
  || (c =? 8239)%N || (c =? 8287)%N || (c =? 12288)%N || (c =? 65279)%N.

Fixpoint trimStart (s : jstr) : jstr :=
  match s with
  | c :: r => if is_whitespace c then trimStart r else s
  | [] => []
  end.

Definition trimEnd (s : jstr) : jstr := rev (trimStart (rev s)).

Definition trim (s : jstr) : jstr := trimEnd (trimStart s).

(** [!s] *)
Definition falsy (s : jstr) : bool :=
  match s with [] => true | _ :: _ => false end.

(** [a || b] where [a : string | undefined] *)
Definition or_else (a : option jstr) (b : jstr) : jstr :=
  match a with
  | Some (c :: t) => c :: t
  | _ => b
  end.

(** [s.substring(n)] *)
Definition substring (n : nat) (s : jstr) : jstr := drop n s.

(** ** Math.random().toString(36) *)

(** A double in [0, 1): the dyadic rational [numerator / 2 ^ scale]. *)
Record double := { numerator : N; scale : N }.

Definition digit36 (d : N) : N := if (d <? 10)%N then (48 + d)%N else (87 + d)%N.

Fixpoint fraction36 (fuel : nat) (num den : N) : jstr :=
  match fuel with
  | O => []
  | S fuel =>
      if (num =? 0)%N then []
      else digit36 (36 * num / den) :: fraction36 fuel ((36 * num) mod den) den
  end.

(** The exact radix-36 expansion of a double in [0, 1).  An engine prints
    the digits that identify the double, which is this text or a rounded
    prefix of it; zero prints as [0]. *)
Definition exact_toString36 (x : double) : jstr :=
  if (numerator x =? 0)%N then lit "0"
  else lit "0." ++ fraction36 (S (N.to_nat (scale x))) (numerator x) (2 ^ scale x)%N.

(** ** Data *)

Inductive AspectRatio := R1_1 | R3_4 | R4_3 | R9_16 | R16_9.

Definition ratio_string (r : AspectRatio) : jstr :=
  match r with
  | R1_1 => lit "1:1"
  | R3_4 => lit "3:4"
  | R4_3 => lit "4:3"
  | R9_16 => lit "9:16"
  | R16_9 => lit "16:9"
  end.

Module GeneratedImage.
Record t := {
  id : jstr;
  url : jstr;
  prompt : jstr;
  aspectRatio : jstr;
  timestamp : Z
}.
End GeneratedImage.
Abbreviation GeneratedImage := GeneratedImage.t.

(** The body of a reply of [/api/openrouter-generate], with the fields
    typed as [GeneratedImage] declares them. *)
Module Result.
Record t := {
  error : option jstr;
  url : jstr;
  prompt : jstr;
  timestamp : Z
}.
End Result.

Record Error := { message : option jstr }.
Definition new_Error (msg : jstr) : Error := {| message := Some msg |}.

(** A [fetch] response: its status and what [res.json()] settles to. *)
Record Response := { status : Z; json : Error + Result.t }.

(** The [useState] cells of the component. *)
Record AppState := {
  prompt : jstr;
  aspectRatio : AspectRatio;
  isGenerating : bool;
  currentImage : option GeneratedImage;
  history : list GeneratedImage;
  error : option jstr;
  isSavingToGoogle : bool;
  isGoogleAuthenticated : bool;
  saveSuccess : bool
}.

Definition initial_state : AppState :=
  {| prompt := []; aspectRatio := R1_1; isGenerating := false;
     currentImage := None; history := []; error := None;
     isSavingToGoogle := false; isGoogleAuthenticated := false;
     saveSuccess := false |}.

(** State updates, as the setters apply them to the current state. *)
Definition setIsGenerating (b : bool) (s : AppState) : AppState :=
  {| prompt := prompt s; aspectRatio := aspectRatio s; isGenerating := b;
     currentImage := currentImage s; history := history s; error := error s;
     isSavingToGoogle := isSavingToGoogle s;
     isGoogleAuthenticated := isGoogleAuthenticated s;
     saveSuccess := saveSuccess s |}.

Definition setCurrentImage (i : option GeneratedImage) (s : AppState) : AppState :=
  {| prompt := prompt s; aspectRatio := aspectRatio s;
     isGenerating := isGenerating s;
     currentImage := i; history := history s; error := error s;
     isSavingToGoogle := isSavingToGoogle s;
     isGoogleAuthenticated := isGoogleAuthenticated s;
     saveSuccess := saveSuccess s |}.

Definition setHistory (f : list GeneratedImage → list GeneratedImage) (s : AppState)
  : AppState :=
  {| prompt := prompt s; aspectRatio := aspectRatio s;
     isGenerating := isGenerating s;
     currentImage := currentImage s; history := f (history s); error := error s;
     isSavingToGoogle := isSavingToGoogle s;
     isGoogleAuthenticated := isGoogleAuthenticated s;
     saveSuccess := saveSuccess s |}.

Definition setError (e : option jstr) (s : AppState) : AppState :=
  {| prompt := prompt s; aspectRatio := aspectRatio s;
     isGenerating := isGenerating s;
     currentImage := currentImage s; history := history s; error := e;
     isSavingToGoogle := isSavingToGoogle s;
     isGoogleAuthenticated := isGoogleAuthenticated s;
     saveSuccess := saveSuccess s |}.

(** ** Effects of a client handler *)

Inductive effect : Type → Type :=
| fetch_generate (prompt : jstr) (aspectRatio : AspectRatio)
  : effect (Error + Response)%type
| Math_random : effect double
| setState (f : AppState → AppState) : effect unit.

Definition action := prog effect Error unit.

(** [await res.json()] *)
Definition res_json (res : Response) : prog effect Error Result.t :=
  match json res with
  | inl e => Throw e
  | inr result => Ret result
  end.

(** [prev => [newImage, ...prev].slice(0, 20)] *)
Definition push_history (newImage : GeneratedImage) (prev : list GeneratedImage)
  : list GeneratedImage :=
  take 20 (newImage :: prev).

(** [prev => prev.filter(img => img.id !== id)] *)
Definition remove_id (id : jstr) (prev : list GeneratedImage) : list GeneratedImage :=
  filter (λ img, GeneratedImage.id img ≠ id) prev.

Section Handlers.

(** [Number.prototype.toString(36)], as the engine renders a double. *)
Variable toString36 : double → jstr.

(** [handleGenerate], for the render whose state is [st]. *)
Definition handleGenerate (st : AppState) : action :=
  if falsy (trim (prompt st)) then Ret tt
  else
    perform (setState (setIsGenerating true));;
    perform (setState (setError None));;
    finally
      (try_catch
         (res ← await (fetch_generate (prompt st) (aspectRatio st));
          result ← res_json res;
          if bool_decide (status res ≠ 200) then
            Throw (new_Error
              (or_else (Result.error result)
                 (lit "Failed to generate image via OpenRouter")))
          else
            r ← perform Math_random;
            let newImage : GeneratedImage :=
              {| GeneratedImage.id := substring 7 (toString36 r);
                 GeneratedImage.url := Result.url result;
                 GeneratedImage.prompt := Result.prompt result;
                 GeneratedImage.aspectRatio := ratio_string (aspectRatio st);
                 GeneratedImage.timestamp := Result.timestamp result |} in
            perform (setState (setCurrentImage (Some newImage)));;
            perform (setState (setHistory (push_history newImage))))
         (λ err,
           perform (setState (setError (Some
             (or_else (message err) (lit "Something went wrong during generation.")))))))
      (perform (setState (setIsGenerating false))).

End Handlers.

(** [currentImage?.id === id] *)
Definition shows (current : option GeneratedImage) (id : jstr) : bool :=
  match current with
  | Some img => bool_decide (GeneratedImage.id img = id)
  | None => false
  end.

(** [deleteFromHistory], for the render whose state is [st]. *)
Definition deleteFromHistory (st : AppState) (id : jstr) : action :=
  perform (setState (setHistory (remove_id id)));;
  if shows (currentImage st) id then perform (setState (setCurrentImage None))
  else Ret tt.

(** ** Running a client handler *)

Record Run (G : Type) := {
  settled : outcome Error unit;
  env : G;
  state : AppState;
  trace : list (event effect)
}.

Arguments settled {G} r.
Arguments env {G} r.
Arguments state {G} r.
Arguments trace {G} r.

Definition on_state {X} (c : effect X) (s : AppState) : AppState :=
  match c with
  | setState f => f s
  | _ => s
  end.

(** A run that starts with the event [e] and goes on as [rest]. *)
Definition after {G} (e : event effect) (rest : Run G) : Run G :=
  {| settled := settled rest; env := env rest;
     state := state rest; trace := e :: trace rest |}.

(** [serve] answers the network and the random source. *)
Fixpoint run {G} (serve : ∀ X, effect X → G → X * G)
    (p : action) (g : G) (s : AppState) : Run G :=
  match p with
  | Ret a => {| settled := Fulfilled a; env := g; state := s; trace := [] |}
  | Throw e => {| settled := Rejected e; env := g; state := s; trace := [] |}
  | Vis c k =>
      let '(x, g') := serve _ c g in
      after (Ev c x) (run serve (k x) g' (on_state c s))
  end.

Definition is_network (e : event effect) : bool :=
  match e with
  | Ev (fetch_generate _ _) _ => true
  | _ => false
  end.

(** What the generation endpoint answered, and what [Math.random()]
    returned, in a run that got that far. *)
Definition fetched (e : event effect) : option (Error + Response) :=
  match e with
  | Ev (fetch_generate _ _) x => Some x
  | _ => None
  end.

Definition drawn (e : event effect) : option double :=
  match e with
  | Ev Math_random x => Some x
  | _ => None
  end.

Definition reply (tr : list (event effect)) : option (Error + Response) :=
  head (omap fetched tr).

Definition draw (tr : list (event effect)) : option double :=
  head (omap drawn tr).

End Client.

(* ===================================================================== *)
(** * Scripted environments, used by the examples *)
(* ===================================================================== *)

Module Scenario.
Import JS Async.

Definition quota_error : js_error :=
  {| err_name := "GaxiosError"; err_message := Some "Quota exceeded" |}.

Definition uploaded : Server.Schema_File :=
  {| Server.id := Some "file-1";
     Server.webViewLink := Some "https://drive.google.com/file/d/file-1/view" |}.

(** Google as a script: the state counts the requests received so far;
    request number [fail_at] is rejected, every other one resolves. *)
Definition google (toks : Server.Credentials) (existing : list Server.Schema_File)
    (fail_at : option nat) (X : Type) (c : Server.effect X) (n : nat) : X * nat :=
  match c in Server.effect X return X * nat with
  | @Server.Google Y c' =>
      if bool_decide (fail_at = Some n) then (inl quota_error, S n)
      else
        (inr
           match c' in Server.gapi Y return Y with
           | Server.oauth2Client_getToken _ => {| Server.tokens := toks |}
           | Server.drive_files_create _ _ _ _ _ => uploaded
           | Server.drive_files_list _ _ => {| Server.files := Some existing |}
           | Server.sheets_spreadsheets_create _ _ =>
               {| Server.spreadsheetId := Some "sheet-1" |}
           | Server.sheets_spreadsheets_values_update _ _ _ _ => tt
           | Server.sheets_spreadsheets_values_append _ _ _ _ => tt
           end, S n)
  | Server.oauth2Client_generateAuthUrl _ _ _ =>
      ("https://accounts.google.com/o/oauth2/v2/auth?access_type=offline", n)
  | Server.oauth2Client_setCredentials _ => (tt, n)
  | Server.Date_now => (1700000000000, n)
  | Server.new_Date_toISOString => ("2023-11-14T22:13:20.000Z", n)
  | Server.console_error _ _ => (tt, n)
  | Server.res_status _ => (tt, n)
  | Server.res_setHeader _ _ => (tt, n)
  | Server.res_json _ => (tt, n)
  | Server.res_send _ => (tt, n)
  end.

Definition sample_tokens : Server.Credentials :=
  [("access_token", Server.TStr "ya29.a0Af/x+y=");
   ("refresh_token", Server.TStr "1//0g");
   ("scope", Server.TStr "https://www.googleapis.com/auth/drive.file https://www.googleapis.com/auth/spreadsheets");
   ("token_type", Server.TStr "Bearer");
   ("id_token", Server.TUndefined);
   ("expiry_date", Server.TInt 1700003600000)].

Definition export_body : jsval :=
  VObj [("imageData", VStr "data:image/png;base64,iVBORw0KGgo=");
        ("prompt", VStr "a lighthouse at dusk");
        ("aspectRatio", VStr "16:9")].

(** An export request carrying the cookie value [cookie]. *)
Definition export_request (cookie : option string) (b : jsval) : Server.VercelRequest :=
  {| Server.cookies :=
       match cookie with
       | Some v => {[ "google_tokens" := v ]}
       | None => ∅
       end;
     Server.query := ∅;
     Server.body := b |}.

(** The cookie value a session carries: the JSON text of the token set. *)
Definition session_cookie : string := Server.JSON_stringify sample_tokens.

(** The redirect back from the consent screen. *)
Definition callback_request (code : string) : Server.VercelRequest :=
  {| Server.cookies := ∅;
     Server.query := {[ "code" := code ]};
     Server.body := VUndefined |}.

Definition export : Server.VercelRequest :=
  export_request (Some session_cookie) export_body.

(** A first export: nothing is listed, every request resolves. *)
Definition first_export : Server.Run nat :=
  Server.run (google [] [] None) (Server.saveToGoogleHandler export)
    0%nat Server.fresh_response.

(** An export whose third request (the append) is rejected. *)
Definition failed_export : Server.Run nat :=
  Server.run (google [] [uploaded] (Some 2%nat)) (Server.saveToGoogleHandler export)
    0%nat Server.fresh_response.

(** The spreadsheet of the first export, as a later listing reports it. *)
Definition found : Server.Schema_File :=
  {| Server.id := Some "sheet-1"; Server.webViewLink := None |}.

(** A second export, which finds that spreadsheet. *)
Definition second_export : Server.Run nat :=
  Server.run (google [] [found] None) (Server.saveToGoogleHandler export)
    0%nat Server.fresh_response.

(** An export without a session cookie. *)
Definition anonymous_export : Server.Run nat :=
  Server.run (google [] [] None)
    (Server.saveToGoogleHandler (export_request None export_body))
    0%nat Server.fresh_response.

(** The callback of a sign-in that yields [sample_tokens]. *)
Definition sign_in : Server.Run nat :=
  Server.run (google sample_tokens [] None)
    (Server.callbackHandler (callback_request "4/0AfJohXk"))
    0%nat Server.fresh_response.

(** The browser as a script: the endpoint answers [answer], the random
    source returns [r]. *)
Definition browser (answer : Client.Error + Client.Response) (r : Client.double)
    (X : Type) (c : Client.effect X) (u : unit) : X * unit :=
  match c in Client.effect X return X * unit with
  | Client.fetch_generate _ _ => (answer, u)
  | Client.Math_random => (r, u)
  | Client.setState _ => (tt, u)
  end.

Definition generated : Client.Result.t :=
  {| Client.Result.error := None;
     Client.Result.url := Client.lit "https://img.example/7f3a.png";
     Client.Result.prompt := Client.lit "a lighthouse at dusk";
     Client.Result.timestamp := 1700000000000 |}.

Definition ok_response : Client.Error + Client.Response :=
  inr {| Client.status := 200; Client.json := inr generated |}.

(** The state of a fresh page after the prompt was typed. *)
Definition typed (p : string) : Client.AppState :=
  {| Client.prompt := Client.lit p; Client.aspectRatio := Client.R16_9;
     Client.isGenerating := false; Client.currentImage := None;
     Client.history := []; Client.error := None;
     Client.isSavingToGoogle := false; Client.isGoogleAuthenticated := false;
     Client.saveSuccess := false |}.

(** [Math.random()] returning 0, and returning 1/2. *)
Definition zero : Client.double := {| Client.numerator := 0; Client.scale := 0 |}.
Definition half : Client.double := {| Client.numerator := 1; Client.scale := 1 |}.

(** A generation in which the random source returns [r]. *)
Definition generate (r : Client.double) : Client.Run unit :=
  Client.run (browser ok_response r)
    (Client.handleGenerate Client.exact_toString36 (typed "a lighthouse at dusk"))
    tt (typed "a lighthouse at dusk").

(** A page whose prompt holds a space, a tab, a line feed, a no-break
    space and an ideographic space. *)
Definition blank : Client.AppState :=
  {| Client.prompt := [32; 9; 10; 160; 12288]%N; Client.aspectRatio := Client.R1_1;
     Client.isGenerating := false; Client.currentImage := None;
     Client.history := []; Client.error := None;
     Client.isSavingToGoogle := false; Client.isGoogleAuthenticated := false;
     Client.saveSuccess := false |}.

Definition picture (n : nat) : Client.GeneratedImage :=
  {| Client.GeneratedImage.id := Client.lit "img" ++ [N.of_nat n];
     Client.GeneratedImage.url := Client.lit "https://img.example/x.png";
     Client.GeneratedImage.prompt := Client.lit "x";
     Client.GeneratedImage.aspectRatio := Client.lit "1:1";
     Client.GeneratedImage.timestamp := Z.of_nat n |}.

(** A page showing [picture 2] with three entries in its history. *)
Definition gallery : Client.AppState :=
  {| Client.prompt := []; Client.aspectRatio := Client.R1_1;
     Client.isGenerating := false; Client.currentImage := Some (picture 2);
     Client.history := [picture 3; picture 2; picture 1]; Client.error := None;
     Client.isSavingToGoogle := false; Client.isGoogleAuthenticated := false;
     Client.saveSuccess := false |}.

(** Deleting the displayed picture from the gallery. *)
Definition delete_shown : Client.Run unit :=
  Client.run (browser ok_response zero)
    (Client.deleteFromHistory gallery (Client.GeneratedImage.id (picture 2)))
    tt gallery.

(** A full history: pictures 20 down to 1. *)
Definition full_history : list Client.GeneratedImage :=
  map picture (rev (seq 1 20)).

End Scenario.

(* ===================================================================== *)
(** * The client: Google connection, export, stored history *)
(* ===================================================================== *)

Module App.
Import Async Client.

(** The setters of the remaining [useState] cells. *)
Definition setIsSavingToGoogle (b : bool) (s : AppState) : AppState :=
  {| prompt := prompt s; aspectRatio := aspectRatio s;
     isGenerating := isGenerating s;
     currentImage := currentImage s; history := history s; error := error s;
     isSavingToGoogle := b;
     isGoogleAuthenticated := isGoogleAuthenticated s;
     saveSuccess := saveSuccess s |}.

Definition setIsGoogleAuthenticated (b : bool) (s : AppState) : AppState :=
  {| prompt := prompt s; aspectRatio := aspectRatio s;
     isGenerating := isGenerating s;
     currentImage := currentImage s; history := history s; error := error s;
     isSavingToGoogle := isSavingToGoogle s;
     isGoogleAuthenticated := b;
     saveSuccess := saveSuccess s |}.

Definition setSaveSuccess (b : bool) (s : AppState) : AppState :=
  {| prompt := prompt s; aspectRatio := aspectRatio s;
     isGenerating := isGenerating s;
     currentImage := currentImage s; history := history s; error := error s;
     isSavingToGoogle := isSavingToGoogle s;
     isGoogleAuthenticated := isGoogleAuthenticated s;
     saveSuccess := b |}.

(** ** Reply bodies *)

(** The properties the client reads from a reply body: a boolean is the
    truthiness of the property, [None] an absent one. *)
Record StatusData := { isAuthenticated : bool }.

Record UrlData := { url : option jstr }.

Module SaveData.
Record t := { success : bool; error : option jstr }.
End SaveData.

(** What [res.json()] settles to: it rejects, or resolves with the parsed
    body, [None] being the body [null]. *)
Record Reply (A : Type) := { json : Error + option A }.
Arguments json {A} r.

(** The [<a>] element of a download. *)
Record Anchor := { href : jstr; download : jstr }.

(** ** Effects *)

Inductive effect : Type → Type :=
| fetch_status : effect (Error + Reply StatusData)%type
| fetch_url : effect (Error + Reply UrlData)%type
| fetch_save (imageData prompt aspectRatio : jstr)
  : effect (Error + Reply SaveData.t)%type
| window_open (url : option jstr) (target features : jstr) : effect unit
| confirm (message : jstr) : effect bool
| setTimeout (callback : AppState → AppState) (ms : Z) : effect unit
| localStorage_getItem (key : jstr) : effect (option string)
| console_error (label : jstr) (e : Error) : effect unit
| document_body_appendChild (link : Anchor) : effect unit
| link_click (link : Anchor) : effect unit
| document_body_removeChild (link : Anchor) : effect unit
| setState (f : AppState → AppState) : effect unit.

Definition action := prog effect Error unit.

(** [await res.json()] followed by a property read or a destructuring of
    the body, which throws on [null]; [reading] is the engine's message. *)
Definition res_json {A} (res : Reply A) (reading : jstr) : prog effect Error A :=
  match json res with
  | inl e => Throw e
  | inr (Some data) => Ret data
  | inr None => Throw (new_Error reading)
  end.

(** ** The status check on mount *)

(** [fetch(...).then(res => res.json()).then(data => ...)]: the chain has
    no [catch]. *)
Definition checkStatus : action :=
  res ← await fetch_status;
  data ← res_json res (lit "Cannot read properties of null (reading 'isAuthenticated')");
  perform (setState (setIsGoogleAuthenticated (isAuthenticated data))).

(** ** handleGoogleConnect *)

Definition handleGoogleConnect : action :=
  try_catch
    (res ← await fetch_url;
     data ← res_json res
       (lit "Cannot destructure property 'url' of '(intermediate value)' as it is null.");
     perform (window_open (url data) (lit "google_oauth") (lit "width=600,height=700")))
    (λ err, perform (console_error (lit "Failed to get auth URL") err)).

(** ** handleSaveToGoogle *)

(** [handleSaveToGoogle], for the render whose state is [st]. *)
Definition handleSaveToGoogle (st : AppState) : action :=
  match currentImage st with
  | None => Ret tt
  | Some currentImage =>
      perform (setState (setIsSavingToGoogle true));;
      perform (setState (setSaveSuccess false));;
      perform (setState (setError None));;
      finally
        (try_catch
           (res ← await (fetch_save (GeneratedImage.url currentImage)
                           (GeneratedImage.prompt currentImage)
                           (GeneratedImage.aspectRatio currentImage));
            data ← res_json res (lit "Cannot read properties of null (reading 'success')");
            if SaveData.success data then
              perform (setState (setSaveSuccess true));;
              perform (setTimeout (setSaveSuccess false) 3000)
            else
              Throw (new_Error (or_else (SaveData.error data) (lit "Failed to save"))))
           (λ err, perform (setState (setError (message err)))))
        (perform (setState (setIsSavingToGoogle false)))
  end.

(** ** The stored history *)

Section Stored.

(** The parsed text taken as [GeneratedImage[]]: the code passes it to
    [setHistory] unchecked. *)
Variable as_images : JS.jsval → list GeneratedImage.

(** The effect that loads the history on mount.  The stored text is read
    by its UTF-8 bytes, the view [Json.JSON_parse] works on. *)
Definition loadHistory : action :=
  saved ← perform (localStorage_getItem (lit "visionary_history"));
  match saved with
  | None | Some EmptyString => Ret tt
  | Some text =>
      match Json.JSON_parse text with
      | Some v => perform (setState (setHistory (λ _, as_images v)))
      | None =>
          perform (console_error (lit "Failed to parse history")
                     (new_Error (lit "Unexpected token in JSON")))
      end
  end.

End Stored.

(** ** downloadImage, clearHistory *)

Definition downloadImage (url filename : jstr) : action :=
  let link := {| href := url; download := take 20 filename ++ lit ".png" |} in
  perform (document_body_appendChild link);;
  perform (link_click link);;
  perform (document_body_removeChild link).

Definition clearHistory : action :=
  perform (confirm (lit "Clear all history?")) ≫= λ ok : bool,
    if ok then
      perform (setState (setHistory (λ _, [])));;
      perform (setState (setCurrentImage None))
    else Ret tt.

(** ** Running these handlers *)

Record Run (G : Type) := {
  settled : outcome Error unit;
  env : G;
  state : AppState;
  trace : list (event effect)
}.

Arguments settled {G} r.
Arguments env {G} r.
Arguments state {G} r.
Arguments trace {G} r.

Definition on_state {X} (c : effect X) (s : AppState) : AppState :=
  match c with
  | setState f => f s
  | _ => s
  end.

(** A run that starts with the event [e] and goes on as [rest]. *)
Definition after {G} (e : event effect) (rest : Run G) : Run G :=
  {| settled := settled rest; env := env rest;
     state := state rest; trace := e :: trace rest |}.

(** [serve] answers the network, the dialogs and the storage.  A timer set
    by [setTimeout] only enters the trace: its callback runs after the
    handler. *)
Fixpoint run {G} (serve : ∀ X, effect X → G → X * G)
    (p : action) (g : G) (s : AppState) : Run G :=
  match p with
  | Ret a => {| settled := Fulfilled a; env := g; state := s; trace := [] |}
  | Throw e => {| settled := Rejected e; env := g; state := s; trace := [] |}
  | Vis c k =>
      let '(x, g') := serve _ c g in
      after (Ev c x) (run serve (k x) g' (on_state c s))
  end.

(** The export requests of a run with their answers, the popups it
    opened, the timers it set and what it logged. *)
Definition posted (e : event effect)
  : option (jstr * jstr * jstr * (Error + Reply SaveData.t)) :=
  match e with
  | Ev (fetch_save imageData prompt aspectRatio) x =>
      Some (imageData, prompt, aspectRatio, x)
  | _ => None
  end.

Definition opened (e : event effect) : option (option jstr * jstr * jstr) :=
  match e with
  | Ev (window_open url target features) _ => Some (url, target, features)
  | _ => None
  end.

Definition timer (e : event effect) : option ((AppState → AppState) * Z) :=
  match e with
  | Ev (setTimeout callback ms) _ => Some (callback, ms)
  | _ => None
  end.

Definition logged (e : event effect) : option (jstr * Error) :=
  match e with
  | Ev (console_error label err) _ => Some (label, err)
  | _ => None
  end.

(** What the first read of the storage returned, and what the dialog was
    answered. *)
Definition read (e : event effect) : option (option string) :=
  match e with
  | Ev (localStorage_getItem _) x => Some x
  | _ => None
  end.

Definition asked (e : event effect) : option (jstr * bool) :=
  match e with
  | Ev (confirm message) x => Some (message, x)
  | _ => None
  end.

End App.

(* ===================================================================== *)
(** * The history under a sequence of updates *)
(* ===================================================================== *)

Module Gallery.
Import Client.

(** The three updates the component applies to its history: the one of a
    generation, of a deletion and of a confirmed clearing. *)
Inductive update :=
| Generated (img : GeneratedImage)
| Deleted (id : jstr)
| Cleared.

Definition apply (h : list GeneratedImage) (u : update) : list GeneratedImage :=
  match u with
  | Generated img => push_history img h
  | Deleted id => remove_id id h
  | Cleared => []
  end.

(** The generated images of a sequence of updates, oldest first. *)
Definition generated (us : list update) : list GeneratedImage :=
  omap (λ u, match u with Generated img => Some img | _ => None end) us.

End Gallery.

(* ===================================================================== *)
(** * Generation, with the reply body as it arrives *)
(* ===================================================================== *)

(** [Client.handleGenerate] takes the body of a reply as the object it is
    declared to be.  Here the body is what [res.json()] resolves with,
    which may be [null]; a property read on [null] throws. *)
Module Generation.
Import Async Client.

(** A [fetch] response: its status and what [res.json()] settles to,
    [None] being the body [null]. *)
Record Response := { status : Z; json : Error + option Result.t }.

Inductive effect : Type → Type :=
| fetch_generate (prompt : jstr) (aspectRatio : AspectRatio)
  : effect (Error + Response)%type
| Math_random : effect double
| setState (f : AppState → AppState) : effect unit.

Definition action := prog effect Error unit.

(** [await res.json()] *)
Definition res_json (res : Response) : prog effect Error (option Result.t) :=
  match json res with
  | inl e => Throw e
  | inr result => Ret result
  end.

(** [result.key]: the read throws a [TypeError] on [null]; the message is
    the engine's. *)
Definition member (result : option Result.t) (key : string)
  : prog effect Error Result.t :=
  match result with
  | Some body => Ret body
  | None =>
      Throw (new_Error
        (lit "Cannot read properties of null (reading '" ++ lit key ++ lit "')"))
  end.

Section Handlers.

Variable toString36 : double → jstr.

(** [handleGenerate], for the render whose state is [st].  The object
    literal of the new image is evaluated in order: [Math.random()] for
    the id comes before the first read of [result]. *)
Definition handleGenerate (st : AppState) : action :=
  if falsy (trim (prompt st)) then Ret tt
  else
    perform (setState (setIsGenerating true));;
    perform (setState (setError None));;
    finally
      (try_catch
         (res ← await (fetch_generate (prompt st) (aspectRatio st));
          result ← res_json res;
          if bool_decide (status res ≠ 200) then
            body ← member result "error";
            Throw (new_Error
              (or_else (Result.error body)
                 (lit "Failed to generate image via OpenRouter")))
          else
            r ← perform Math_random;
            body ← member result "url";
            let newImage : GeneratedImage :=
              {| GeneratedImage.id := substring 7 (toString36 r);
                 GeneratedImage.url := Result.url body;
                 GeneratedImage.prompt := Result.prompt body;
                 GeneratedImage.aspectRatio := ratio_string (aspectRatio st);
                 GeneratedImage.timestamp := Result.timestamp body |} in
            perform (setState (setCurrentImage (Some newImage)));;
            perform (setState (setHistory (push_history newImage))))
         (λ err,
           perform (setState (setError (Some
             (or_else (message err) (lit "Something went wrong during generation.")))))))
      (perform (setState (setIsGenerating false))).

End Handlers.

(** ** Running the handler *)

Record Run (G : Type) := {
  settled : outcome Error unit;
  env : G;
  state : AppState;
  trace : list (event effect)
}.

Arguments settled {G} r.
Arguments env {G} r.
Arguments state {G} r.
Arguments trace {G} r.

Definition on_state {X} (c : effect X) (s : AppState) : AppState :=
  match c with
  | setState f => f s
  | _ => s
  end.

(** A run that starts with the event [e] and goes on as [rest]. *)
Definition after {G} (e : event effect) (rest : Run G) : Run G :=
  {| settled := settled rest; env := env rest;
     state := state rest; trace := e :: trace rest |}.

Fixpoint run {G} (serve : ∀ X, effect X → G → X * G)
    (p : action) (g : G) (s : AppState) : Run G :=
  match p with
  | Ret a => {| settled := Fulfilled a; env := g; state := s; trace := [] |}
  | Throw e => {| settled := Rejected e; env := g; state := s; trace := [] |}
  | Vis c k =>
      let '(x, g') := serve _ c g in
      after (Ev c x) (run serve (k x) g' (on_state c s))
  end.

(** What the generation endpoint answered, and what [Math.random()]
    returned, in a run that got that far. *)
Definition fetched (e : event effect) : option (Error + Response) :=
  match e with
  | Ev (fetch_generate _ _) x => Some x
  | _ => None
  end.

Definition drawn (e : event effect) : option double :=
  match e with
  | Ev Math_random x => Some x
  | _ => None
  end.

Definition reply (tr : list (event effect)) : option (Error + Response) :=
  head (omap fetched tr).

Definition draw (tr : list (event effect)) : option double :=
  head (omap drawn tr).

(** ** Replies with a body *)

(** A reply of [Client], seen as one whose body is not [null], and an
    environment of [Client] answering the effects above. *)
Definition widen (res : Client.Response) : Response :=
  {| status := Client.status res;
     json := match Client.json res with
             | inl e => inl e
             | inr result => inr (Some result)
             end |}.

Definition over {G} (serve : ∀ X, Client.effect X → G → X * G)
    (X : Type) (c : effect X) (g : G) : X * G :=
  match c in effect X return X * G with
  | fetch_generate p a =>
      let '(x, g') := serve _ (Client.fetch_generate p a) g in
      (match x with inl e => inl e | inr res => inr (widen res) end, g')
  | Math_random => serve _ Client.Math_random g
  | setState f => serve _ (Client.setState f) g
  end.

End Generation.

(* ===================================================================== *)
(** * Response bodies of a run *)
(* ===================================================================== *)

Module Answers.
Import Async Server.

(** The calls that send a response body: [res.json] and [res.send]. *)
Definition is_body (e : event effect) : bool :=
  match e with
  | Ev (res_json _) _ | Ev (res_send _) _ => true
  | _ => false
  end.

Definition bodies (tr : list (event effect)) : list (event effect) :=
  List.filter is_body tr.

(** The file name of an upload request. *)
Definition file_name {X} (c : gapi X) : option string :=
  match c with
  | drive_files_create name _ _ _ _ => Some name
  | _ => None
  end.

End Answers.

(* ===================================================================== *)
(** * Further scripted runs, used by the examples *)
(* ===================================================================== *)

Module Stories.
Import JS Async.

(** An export whose image is a link rather than a data URI. *)
Definition linked_body : jsval :=
  VObj [("imageData", VStr "https://img.example/7f3a.png");
        ("prompt", VStr "a lighthouse at dusk");
        ("aspectRatio", VStr "16:9")].

Definition linked_export : Server.Run nat :=
  Server.run (Scenario.google [] [] None)
    (Server.saveToGoogleHandler
       (Scenario.export_request (Some Scenario.session_cookie) linked_body))
    0%nat Server.fresh_response.

(** An export with a cookie that is not JSON. *)
Definition forged_export : Server.Run nat :=
  Server.run (Scenario.google [] [] None)
    (Server.saveToGoogleHandler
       (Scenario.export_request (Some "not json") Scenario.export_body))
    0%nat Server.fresh_response.

(** The export request as it arrives after the sign-in of the scenario:
    the user agent sends the stored cookie back after another one. *)
Definition returning_export : Server.IncomingRequest :=
  {| Server.cookie_header :=
       [("theme", "dark");
        ("google_tokens", Uri.encodeURIComponent Scenario.session_cookie)];
     Server.in_query := ∅;
     Server.in_body := Scenario.export_body |}.

(** The generation endpoint refusing a request. *)
Definition refusal : Client.Error + Client.Response :=
  inr {| Client.status := 429;
         Client.json := inr {| Client.Result.error := Some (Client.lit "Rate limit exceeded");
                               Client.Result.url := [];
                               Client.Result.prompt := [];
                               Client.Result.timestamp := 0 |} |}.

(** A generation from the gallery page that is refused. *)
Definition asking : Client.AppState :=
  {| Client.prompt := Client.lit " a harbour "; Client.aspectRatio := Client.R4_3;
     Client.isGenerating := false;
     Client.currentImage := Client.currentImage Scenario.gallery;
     Client.history := Client.history Scenario.gallery; Client.error := None;
     Client.isSavingToGoogle := false; Client.isGoogleAuthenticated := true;
     Client.saveSuccess := false |}.

Definition refused : Client.Run unit :=
  Client.run (Scenario.browser refusal Scenario.zero)
    (Client.handleGenerate Client.exact_toString36 asking) tt asking.

(** A session on the full history: a generation, a deletion, another
    generation. *)
Definition session : list Gallery.update :=
  [Gallery.Generated (Scenario.picture 21);
   Gallery.Deleted (Client.GeneratedImage.id (Scenario.picture 7));
   Gallery.Generated (Scenario.picture 22)].

(** The page as a script: the export endpoint answers [saved], the dialog
    is confirmed, the storage holds [stored]. *)
Definition page (saved : Client.Error + App.Reply App.SaveData.t)
    (stored : option string)
    (X : Type) (c : App.effect X) (u : unit) : X * unit :=
  match c in App.effect X return X * unit with
  | App.fetch_status =>
      (inr {| App.json := inr (Some {| App.isAuthenticated := true |}) |}, u)
  | App.fetch_url =>
      (inr {| App.json := inr (Some
          {| App.url := Some (Client.lit "https://accounts.google.com/o/oauth2/v2/auth") |}) |},
       u)
  | App.fetch_save _ _ _ => (saved, u)
  | App.window_open _ _ _ => (tt, u)
  | App.confirm _ => (true, u)
  | App.setTimeout _ _ => (tt, u)
  | App.localStorage_getItem _ => (stored, u)
  | App.console_error _ _ => (tt, u)
  | App.document_body_appendChild _ => (tt, u)
  | App.link_click _ => (tt, u)
  | App.document_body_removeChild _ => (tt, u)
  | App.setState _ => (tt, u)
  end.

Definition saved_ok : Client.Error + App.Reply App.SaveData.t :=
  inr {| App.json := inr (Some {| App.SaveData.success := true;
                                  App.SaveData.error := None |}) |}.

(** Saving the displayed picture of the gallery. *)
Definition save_shown : App.Run unit :=
  App.run (page saved_ok None) (App.handleSaveToGoogle Scenario.gallery)
    tt Scenario.gallery.

(** The generation endpoint as a script for [Generation]: it answers
    [answer], the random source returns [r]. *)
Definition network (answer : Client.Error + Generation.Response) (r : Client.double)
    (X : Type) (c : Generation.effect X) (u : unit) : X * unit :=
  match c in Generation.effect X return X * unit with
  | Generation.fetch_generate _ _ => (answer, u)
  | Generation.Math_random => (r, u)
  | Generation.setState _ => (tt, u)
  end.

(** A reply with status 200 whose body is [null]. *)
Definition empty_reply : Client.Error + Generation.Response :=
  inr {| Generation.status := 200; Generation.json := inr None |}.

(** A generation from the gallery page that gets that reply. *)
Definition unanswered : Generation.Run unit :=
  Generation.run (network empty_reply Scenario.half)
    (Generation.handleGenerate Client.exact_toString36 Stories.asking)
    tt Stories.asking.

(** A page with a prompt and the full history. *)
Definition crowded : Client.AppState :=
  {| Client.prompt := Client.lit "a lighthouse at dusk";
     Client.aspectRatio := Client.R16_9;
     Client.isGenerating := false;
     Client.currentImage := Some (Scenario.picture 20);
     Client.history := Scenario.full_history; Client.error := None;
     Client.isSavingToGoogle := false; Client.isGoogleAuthenticated := false;
     Client.saveSuccess := false |}.

(** A generation on that page. *)
Definition generate_crowded : Client.Run unit :=
  Client.run (Scenario.browser Scenario.ok_response Scenario.half)
    (Client.handleGenerate Client.exact_toString36 crowded) tt crowded.

End Stories.

(* ===================================================================== *)
(** * Properties: URI coding and cookies *)
(* ===================================================================== *)

Module UriFacts.
Import JS Uri.

Lemma decode_encode_char (c : ascii) (rest : string) :
  decodeURIComponent (encode_char c +:+ rest) =
    match decodeURIComponent rest with
    | Some t => Some (String c t)
    | None => None
    end.
Proof. destruct c as [[] [] [] [] [] [] [] []]; reflexivity. Qed.

(** Decoding undoes encoding. *)
Lemma decode_encode (s : string) :
  decodeURIComponent (encodeURIComponent s) = Some s.
Proof.
  induction s as [|c s IH]; [reflexivity|].
  cbn [encodeURIComponent]. rewrite decode_encode_char, IH. reflexivity.
Qed.

Lemma occurs_app (sep : ascii) (a b : string) :
  Cookie.occurs sep (a +:+ b) = Cookie.occurs sep a || Cookie.occurs sep b.
Proof.
  induction a as [|c a IH]; [reflexivity|].
  simpl. rewrite IH. apply orb_assoc.
Qed.

Lemma cut_free (sep : ascii) (a b : string) :
  Cookie.occurs sep a = false →
  Cookie.cut sep (a +:+ String sep b) = Some (a, b).
Proof.
  induction a as [|c a IH]; simpl.
  - rewrite Ascii.eqb_refl. reflexivity.
  - intros [Hc Ha]%orb_false_iff. rewrite Hc, (IH Ha). reflexivity.
Qed.

Lemma encode_char_delimiters (c : ascii) :
  Cookie.occurs ";" (encode_char c) = false
  ∧ Cookie.occurs "=" (encode_char c) = false.
Proof. destruct c as [[] [] [] [] [] [] [] []]; split; reflexivity. Qed.

(** An encoded component contains neither of the cookie delimiters. *)
Lemma encode_delimiters (s : string) :
  Cookie.occurs ";" (encodeURIComponent s) = false
  ∧ Cookie.occurs "=" (encodeURIComponent s) = false.
Proof.
  induction s as [|c s [IH1 IH2]]; [split; reflexivity|].
  cbn [encodeURIComponent]. rewrite !occurs_app, IH1, IH2.
  destruct (encode_char_delimiters c) as [-> ->]. split; reflexivity.
Qed.

(** cookie-parser hands over the value of the first pair of a name. *)
Lemma cookieParser_first (before after : list (string * string)) (k v : string) :
  Forall (λ kv, kv.1 ≠ k) before →
  Cookie.cookieParser (before ++ (k, v) :: after) !! k = Some (Cookie.tryDecode v).
Proof.
  induction 1 as [|[k' v'] before Hk _ IH]; simpl.
  - apply lookup_insert_eq.
  - rewrite lookup_insert_ne; [exact IH | exact Hk].
Qed.

End UriFacts.

(* ===================================================================== *)
(** * Properties: JSON *)
(* ===================================================================== *)

Module JsonFacts.
Import JS Json.

Lemma append_cons (x : ascii) (a b : string) :
  String x a +:+ b = String x (a +:+ b).
Proof. reflexivity. Qed.

Lemma append_assoc (a b c : string) : (a +:+ b) +:+ c = a +:+ (b +:+ c).
Proof.
  induction a as [|x a IH]; [reflexivity|].
  rewrite !append_cons, IH. reflexivity.
Qed.

Lemma append_empty (a : string) : a +:+ EmptyString = a.
Proof.
  induction a as [|x a IH]; [reflexivity|].
  rewrite append_cons, IH. reflexivity.
Qed.

Lemma length_append (a b : string) :
  String.length (a +:+ b) = (String.length a + String.length b)%nat.
Proof.
  induction a as [|x a IH]; [reflexivity|].
  rewrite append_cons. simpl. rewrite IH. reflexivity.
Qed.

Lemma rev_app_rev_app (s acc t : string) :
  String.rev_app (String.rev_app s acc) t = String.rev_app acc (s +:+ t).
Proof.
  revert acc. induction s as [|c s IH]; intros acc; [reflexivity|].
  simpl. rewrite IH. reflexivity.
Qed.

Lemma rev_rev_app (s : string) : String.rev (String.rev_app s EmptyString) = s.
Proof.
  unfold String.rev. rewrite rev_app_rev_app. simpl. apply append_empty.
Qed.

(** One source character costs one unit of fuel to read back. *)
Lemma parse_chars_quote_char (c : ascii) (fuel : nat) (rest acc : string) :
  parse_chars (S fuel) (quote_char c +:+ rest) acc
  = parse_chars fuel rest (String c acc).
Proof. destruct c as [[] [] [] [] [] [] [] []]; reflexivity. Qed.

Lemma quote_char_length (c : ascii) : (1 ≤ String.length (quote_char c))%nat.
Proof. destruct c as [[] [] [] [] [] [] [] []]; vm_compute; lia. Qed.

Lemma quote_chars_length (s : string) :
  (String.length s ≤ String.length (quote_chars s))%nat.
Proof.
  induction s as [|c s IH]; [reflexivity|].
  cbn [quote_chars]. rewrite length_append. pose proof (quote_char_length c).
  simpl. lia.
Qed.

Lemma parse_chars_quote (s : string) (fuel : nat) (rest acc : string) :
  (String.length s < fuel)%nat →
  parse_chars fuel (quote_chars s +:+ dquote +:+ rest) acc
  = Some (String.rev (String.rev_app s acc), rest).
Proof.
  revert fuel acc. induction s as [|c s IH]; intros fuel acc Hfuel.
  - destruct fuel as [|fuel]; [simpl in Hfuel; lia|]. reflexivity.
  - destruct fuel as [|fuel]; [simpl in Hfuel; lia|].
    cbn [quote_chars]. rewrite append_assoc, parse_chars_quote_char.
    rewrite IH by (simpl in Hfuel; lia). reflexivity.
Qed.

(** A quoted string reads back as itself. *)
Lemma parse_string_quote (s rest : string) :
  parse_string (quote s +:+ rest) = Some (s, rest).
Proof.
  change (quote s +:+ rest)
    with (String (ascii_of_nat 34) ((quote_chars s +:+ dquote) +:+ rest)).
  unfold parse_string. rewrite Ascii.eqb_refl, append_assoc, parse_chars_quote.
  - rewrite rev_rev_app. reflexivity.
  - rewrite length_append. pose proof (quote_chars_length s). lia.
Qed.

(** ** Numbers *)

Lemma digits_closes (rest : string) (acc count : Z) :
  closes rest → digits rest acc count = (acc, count, rest).
Proof. intros [r [-> | ->]]; reflexivity. Qed.

Lemma digits_step (c : ascii) (r : string) (v acc count : Z) :
  digit_of c = Some v →
  digits (String c r) acc count = digits r (10 * acc + v) (count + 1).
Proof. intros H. cbn [digits]. rewrite H. reflexivity. Qed.

Lemma digits_uint (d : Decimal.uint) (rest : string) (q : positive) (count : Z) :
  closes rest →
  ∃ k, digits (NilEmpty.string_of_uint d +:+ rest) (Z.pos q) count
       = (Z.pos (Pos.of_uint_acc d q), k, rest).
Proof.
  intros Hrest. revert q count.
  induction d as [|d IH|d IH|d IH|d IH|d IH|d IH|d IH|d IH|d IH|d IH];
    intros q count.
  1: { exists count. apply digits_closes, Hrest. }
  all: cbn [NilEmpty.string_of_uint Pos.of_uint_acc]; rewrite append_cons;
    erewrite digits_step by (vm_compute; reflexivity);
    match goal with
    | |- context [digits _ ?a _] =>
        match goal with
        | |- context [Pos.of_uint_acc _ ?p] =>
            replace a with (Z.pos p) by lia; apply IH
        end
    end.
Qed.

Lemma to_uint_head (p : positive) :
  match Pos.to_uint p with
  | Decimal.Nil | Decimal.D0 _ => False
  | _ => True
  end.
Proof.
  assert (Hnorm : Decimal.unorm (Pos.to_uint p) = Pos.to_uint p).
  { rewrite <- (DecimalPos.Unsigned.to_of (Pos.to_uint p)).
    rewrite DecimalPos.Unsigned.of_to. reflexivity. }
  destruct (Pos.to_uint p) as [|u| | | | | | | | | ] eqn:E; try exact I.
  - exact (DecimalPos.Unsigned.to_uint_nonnil p E).
  - unfold Decimal.unorm in Hnorm. cbn [Decimal.nzhead] in Hnorm.
    destruct (Decimal.nzhead u) eqn:Hu; try discriminate Hnorm.
    + injection Hnorm as <-. exact (DecimalPos.Unsigned.to_uint_nonzero p E).
    + exact (DecimalFacts.nzhead_nonzero u _ Hu).
Qed.

Lemma parse_int_pos (p : positive) (rest : string) :
  closes rest →
  parse_int (NilZero.string_of_uint (Pos.to_uint p) +:+ rest) = Some (Z.pos p, rest).
Proof.
  intros Hrest.
  pose proof (to_uint_head p) as Hhead.
  pose proof (DecimalPos.Unsigned.of_to p) as Hval.
  destruct (Pos.to_uint p) as [|u|u|u|u|u|u|u|u|u|u]; try contradiction.
  all: cbn [NilZero.string_of_uint NilEmpty.string_of_uint]; rewrite append_cons;
    unfold parse_int;
    match goal with
    | |- context [digit_of ?c] =>
        let v := eval vm_compute in (digit_of c) in
        change (digit_of c) with v
    end; cbn iota beta.
  all: cbn [Pos.of_uint] in Hval; injection Hval as Hval.
  all: match goal with
       | |- context [digits _ ?a 1] =>
           match type of Hval with
           | Pos.of_uint_acc ?v ?q = _ =>
               destruct (digits_uint v rest q 1 Hrest) as [k Hk];
               change a with (Z.pos q); rewrite Hk, Hval; reflexivity
           end
       end.
Qed.

Lemma parse_unsigned_pos (p : positive) (rest : string) :
  closes rest →
  parse_unsigned (NilZero.string_of_uint (Pos.to_uint p) +:+ rest)
  = Some (Z.pos p, 0, rest).
Proof.
  intros Hrest. unfold parse_unsigned. rewrite parse_int_pos by exact Hrest.
  destruct Hrest as [r [-> | ->]]; reflexivity.
Qed.

Lemma parse_number_unsigned (s : string) :
  (∀ r, s ≠ String "-"%char r) →
  parse_number s =
    match parse_unsigned s with
    | Some (m, e, r') => Some ({| mantissa := m; exponent := e |}, r')
    | None => None
    end.
Proof.
  intros H. destruct s as [|c r]; [reflexivity|].
  destruct c as [[] [] [] [] [] [] [] []]; try reflexivity.
  exfalso. exact (H r eq_refl).
Qed.

Lemma to_uint_unsigned (p : positive) (rest r : string) :
  NilZero.string_of_uint (Pos.to_uint p) +:+ rest ≠ String "-"%char r.
Proof.
  pose proof (to_uint_head p) as Hhead.
  destruct (Pos.to_uint p); try contradiction;
    cbn [NilZero.string_of_uint NilEmpty.string_of_uint];
    rewrite append_cons; discriminate.
Qed.

(** An integer printed in decimal reads back as itself. *)
Lemma parse_number_integer (n : Z) (rest : string) :
  closes rest →
  parse_number (Z_to_string n +:+ rest)
  = Some ({| mantissa := n; exponent := 0 |}, rest).
Proof.
  intros Hrest. unfold Z_to_string.
  destruct n as [|p|p]; cbn [Z.to_int NilZero.string_of_int].
  - destruct Hrest as [r [-> | ->]]; reflexivity.
  - rewrite parse_number_unsigned by (intros r; apply to_uint_unsigned).
    rewrite parse_unsigned_pos by exact Hrest. reflexivity.
  - rewrite append_cons. cbn [parse_number].
    rewrite parse_unsigned_pos by exact Hrest. reflexivity.
Qed.

(** ** Values and members *)

Lemma quote_head (s rest : string) :
  quote s +:+ rest = String mark (quote_chars s +:+ dquote +:+ rest).
Proof. unfold quote. rewrite !append_assoc. reflexivity. Qed.

Lemma skip_ws_quote (s rest : string) : skip_ws (quote s +:+ rest) = quote s +:+ rest.
Proof. rewrite quote_head. reflexivity. Qed.

Lemma substring_all (s : string) : String.substring 0 (String.length s) s = s.
Proof. induction s as [|c s IH]; [reflexivity|]. simpl. rewrite IH. reflexivity. Qed.

Lemma substring_skip (c : ascii) (s : string) (n m : nat) :
  String.substring (S n) m (String c s) = String.substring n m s.
Proof. destruct m; reflexivity. Qed.

Lemma parse_value_at_mark (r : string) (fuel : nat) :
  parse_value (S fuel) (String mark r) =
    match parse_string (String mark r) with
    | Some (str, r') => Some (VStr str, r')
    | None => None
    end.
Proof. reflexivity. Qed.

Lemma parse_value_string (s rest : string) (fuel : nat) :
  parse_value (S fuel) (quote s +:+ rest) = Some (VStr s, rest).
Proof.
  pose proof (parse_string_quote s rest) as H.
  rewrite quote_head in *. rewrite parse_value_at_mark, H. reflexivity.
Qed.

Lemma expect_null (rest : string) :
  expect "null" VNull ("null" +:+ rest) = Some (VNull, rest).
Proof.
  unfold expect.
  replace (String.prefix "null" ("null" +:+ rest)) with true
    by (destruct rest; reflexivity).
  replace (String.length ("null" +:+ rest) - String.length "null")%nat
    with (String.length rest) by (rewrite length_append; simpl; lia).
  change ("null" +:+ rest)
    with (String "n" (String "u" (String "l" (String "l" rest)))).
  change (String.length "null") with 4%nat.
  rewrite !substring_skip, substring_all. reflexivity.
Qed.

Lemma parse_value_null (rest : string) (fuel : nat) :
  parse_value (S fuel) ("null" +:+ rest) = Some (VNull, rest).
Proof.
  change (parse_value (S fuel) ("null" +:+ rest))
    with (expect "null" VNull ("null" +:+ rest)).
  apply expect_null.
Qed.

Lemma parse_value_number (c : ascii) (r : string) (fuel : nat) :
  c = "-"%char ∨ is_Some (digit_of c) →
  parse_value (S fuel) (String c r) =
    match parse_number (String c r) with
    | Some (n, r') => Some (VNum n, r')
    | None => None
    end.
Proof.
  intros H.
  destruct c as [[] [] [] [] [] [] [] []]; try reflexivity;
    exfalso; destruct H as [H | [v H]]; discriminate H.
Qed.

Lemma integer_head (n : Z) (rest : string) :
  ∃ c r, Z_to_string n +:+ rest = String c r
         ∧ (c = "-"%char ∨ is_Some (digit_of c)).
Proof.
  unfold Z_to_string. destruct n as [|p|p]; cbn [Z.to_int NilZero.string_of_int].
  - eexists _, _. split; [reflexivity|]. right. eexists. reflexivity.
  - pose proof (to_uint_head p) as Hhead.
    destruct (Pos.to_uint p); try contradiction;
      cbn [NilZero.string_of_uint NilEmpty.string_of_uint]; rewrite append_cons;
      eexists _, _; (split; [reflexivity|]); right; eexists; reflexivity.
  - rewrite append_cons. eexists _, _. split; [reflexivity|]. left. reflexivity.
Qed.

Lemma parse_value_integer (n : Z) (rest : string) (fuel : nat) :
  closes rest →
  parse_value (S fuel) (Z_to_string n +:+ rest)
  = Some (VNum {| mantissa := n; exponent := 0 |}, rest).
Proof.
  intros Hrest. pose proof (parse_number_integer n rest Hrest) as H.
  destruct (integer_head n rest) as (c & r & E & Hc).
  rewrite E in *. rewrite parse_value_number by exact Hc.
  rewrite H. reflexivity.
Qed.

(** ** Token sets *)

Import Server.

(** The text of a property reads back as its value. *)
Lemma parse_value_field (f : token_field) (text rest : string) (v : jsval) (fuel : nat) :
  closes rest →
  field_text f = Some text →
  field_value f = Some v →
  parse_value (S fuel) (text +:+ rest) = Some (v, rest).
Proof.
  intros Hrest Ht Hv. destruct f; cbn in Ht, Hv; try discriminate;
    injection Ht as <-; injection Hv as <-.
  - apply parse_value_string.
  - apply parse_value_integer, Hrest.
  - apply parse_value_null.
Qed.

Lemma members_read_back (t : Credentials) : Forall reads_back (members t).
Proof.
  unfold members. induction t as [|[k f] t IH]; [constructor|].
  cbn [omap list_omap]. cbn.
  destruct (field_text f) as [text|] eqn:Ht;
    destruct (field_value f) as [v|] eqn:Hv; try exact IH.
  constructor; [|exact IH].
  intros fuel rest Hrest. exact (parse_value_field f text rest v fuel Hrest Ht Hv).
Qed.

Lemma stringify_members (t : Credentials) :
  omap stringify_field t = map member_text (members t).
Proof.
  unfold members. induction t as [|[k f] t IH]; [reflexivity|].
  destruct f; [| | |exact IH];
    (refine (f_equal2 cons _ IH)); reflexivity.
Qed.

Lemma credentials_members (t : Credentials) :
  credentials_value t
  = VObj (foldl (λ acc m, set_field m.1.1 m.2 acc) [] (members t)).
Proof.
  unfold credentials_value, members. f_equal. generalize (@nil (string * jsval)).
  induction t as [|[k f] t IH]; intros acc; [reflexivity|].
  cbn. destruct f; cbn; apply IH.
Qed.

Lemma parse_members_eq (fuel : nat) (s : string) (acc : list (string * jsval)) :
  parse_members (S fuel) s acc =
    match parse_string (skip_ws s) with
    | None => None
    | Some (key, r) =>
        match skip_ws r with
        | String ":"%char r1 =>
            match parse_value fuel r1 with
            | None => None
            | Some (v, r2) =>
                match skip_ws r2 with
                | String ","%char r' => parse_members fuel r' (set_field key v acc)
                | String "}"%char r' => Some (VObj (set_field key v acc), r')
                | _ => None
                end
            end
        | _ => None
        end
    end.
Proof. reflexivity. Qed.

(** Reading one member. *)
Lemma parse_member (m : string * string * jsval) (rest : string) (fuel : nat)
    (acc : list (string * jsval)) :
  reads_back m → closes rest →
  parse_members (S (S fuel)) (member_text m +:+ rest) acc =
    match rest with
    | String ","%char r' => parse_members (S fuel) r' (set_field m.1.1 m.2 acc)
    | String "}"%char r' => Some (VObj (set_field m.1.1 m.2 acc), r')
    | _ => None
    end.
Proof.
  intros Hm Hrest. rewrite parse_members_eq. unfold member_text.
  rewrite !append_assoc, skip_ws_quote, parse_string_quote.
  change (skip_ws (":" +:+ m.1.2 +:+ rest)) with (String ":"%char (m.1.2 +:+ rest)).
  cbn iota. rewrite (Hm fuel rest Hrest).
  destruct Hrest as [r [-> | ->]]; reflexivity.
Qed.

Lemma parse_members_join (ms : list (string * string * jsval)) :
  Forall reads_back ms → ms ≠ [] →
  ∀ (fuel : nat) (acc : list (string * jsval)) (rest : string),
    (length ms < fuel)%nat →
    parse_members fuel (join "," (map member_text ms) +:+ "}" +:+ rest) acc
    = Some (VObj (foldl (λ acc m, set_field m.1.1 m.2 acc) acc ms), rest).
Proof.
  induction 1 as [|m ms Hm Hms IH]; [contradiction|].
  intros _ fuel acc rest Hfuel.
  destruct fuel as [|[|fuel]]; [simpl in Hfuel; lia | simpl in Hfuel; lia |].
  destruct ms as [|m2 ms].
  - cbn [map join]. rewrite parse_member; [reflexivity | exact Hm |].
    exists rest. right. reflexivity.
  - change (join "," (map member_text (m :: m2 :: ms)))
      with (member_text m +:+ "," +:+ join "," (map member_text (m2 :: ms))).
    rewrite !append_assoc. rewrite parse_member; [| exact Hm |].
    + change ("," +:+ join "," (map member_text (m2 :: ms)) +:+ "}" +:+ rest)
        with (String ","%char (join "," (map member_text (m2 :: ms)) +:+ "}" +:+ rest)).
      cbn iota. rewrite IH; [reflexivity | discriminate | simpl in *; lia].
    + eexists. left. reflexivity.
Qed.

Lemma member_text_length (m : string * string * jsval) :
  (1 ≤ String.length (member_text m))%nat.
Proof. unfold member_text. rewrite quote_head. simpl. lia. Qed.

Lemma join_length (ms : list (string * string * jsval)) :
  (length ms ≤ String.length (join "," (map member_text ms)))%nat.
Proof.
  induction ms as [|m ms IH]; [simpl; lia|].
  pose proof (member_text_length m).
  destruct ms as [|m2 ms]; [cbn [map join length]; lia|].
  change (join "," (map member_text (m :: m2 :: ms)))
    with (member_text m +:+ "," +:+ join "," (map member_text (m2 :: ms))).
  rewrite !length_append. simpl in *. lia.
Qed.

Lemma parse_value_at_brace (r : string) (fuel : nat) :
  parse_value (S fuel) (String "{"%char r) =
    match skip_ws r with
    | String "}"%char r' => Some (VObj [], r')
    | _ => parse_members fuel r []
    end.
Proof. reflexivity. Qed.

(** [JSON.parse] reads the text [JSON.stringify] wrote for a token set back
    as the token object. *)
Theorem parse_stringify (t : Credentials) :
  Json.JSON_parse (JSON_stringify t) = Some (credentials_value t).
Proof.
  rewrite credentials_members. unfold Json.JSON_parse, JSON_stringify.
  rewrite stringify_members.
  pose proof (members_read_back t) as Hread.
  pose proof (join_length (members t)) as Hlen.
  set (ms := members t) in *. clearbody ms.
  set (text := "{" +:+ join "," (map member_text ms) +:+ "}").
  assert (Htext : (length ms < 2 * String.length text + 1)%nat).
  { unfold text. rewrite !length_append. simpl. lia. }
  replace (2 * String.length text + 2)%nat
    with (S (2 * String.length text + 1)) by lia.
  unfold text at 2.
  change ("{" +:+ join "," (map member_text ms) +:+ "}")
    with (String "{"%char (join "," (map member_text ms) +:+ "}")).
  rewrite parse_value_at_brace.
  destruct ms as [|m ms]; [reflexivity|].
  assert (Hskip : ∃ r, skip_ws (join "," (map member_text (m :: ms)) +:+ "}")
                       = String mark r
                       ∧ join "," (map member_text (m :: ms)) +:+ "}" = String mark r).
  { destruct ms as [|m2 ms].
    - cbn [map join]. unfold member_text. rewrite !append_assoc.
      rewrite skip_ws_quote, quote_head. eexists. split; reflexivity.
    - change (join "," (map member_text (m :: m2 :: ms)))
        with (member_text m +:+ "," +:+ join "," (map member_text (m2 :: ms))).
      unfold member_text at 1 3. rewrite !append_assoc.
      rewrite skip_ws_quote, quote_head. eexists. split; reflexivity. }
  destruct Hskip as (r & -> & Hbody). cbn iota.
  change (join "," (map member_text (m :: ms)) +:+ "}")
    with (join "," (map member_text (m :: ms)) +:+ "}" +:+ EmptyString).
  rewrite parse_members_join; [reflexivity | exact Hread | discriminate | exact Htext].
Qed.

End JsonFacts.

(* ===================================================================== *)
(** * Properties: the serverless handlers *)
(* ===================================================================== *)

Module ServerFacts.
Import JS Async Server.

Lemma prefix_here {A} (s : list A) : s = [] ++ s.
Proof. reflexivity. Qed.

Lemma prefix_later {A} (x : A) (l pre s : list A) :
  l = pre ++ s → x :: l = (x :: pre) ++ s.
Proof. intros ->. reflexivity. Qed.

(** Splits a concrete list in front of the first place where the given
    suffix fits. *)
Ltac find_prefix :=
  first [ apply prefix_here | apply prefix_later; find_prefix ].

(** The cookie written by the callback is stored under its name with the
    encoded JSON text as its value. *)
Lemma stored_pair_set_cookie (t : Credentials) :
  Cookie.stored_pair (set_cookie_header t)
  = Some ("google_tokens", Uri.encodeURIComponent (JSON_stringify t)).
Proof.
  unfold Cookie.stored_pair, set_cookie_header.
  set (enc := Uri.encodeURIComponent (JSON_stringify t)).
  set (age := Z_to_string _).
  replace ("google_tokens=" +:+ enc
             +:+ "; Path=/; HttpOnly; Secure; SameSite=None; Max-Age=" +:+ age)
    with (("google_tokens=" +:+ enc)
            +:+ String ";" (" Path=/; HttpOnly; Secure; SameSite=None; Max-Age=" +:+ age))
    by reflexivity.
  rewrite UriFacts.cut_free.
  - change ("google_tokens=" +:+ enc) with ("google_tokens" +:+ String "=" enc).
    rewrite UriFacts.cut_free; reflexivity.
  - rewrite UriFacts.occurs_app.
    apply (UriFacts.encode_delimiters (JSON_stringify t)).
Qed.

(** The JSON text of a token set is never the empty string. *)
Lemma stringify_truthy (t : Credentials) : falsy (Some (JSON_stringify t)) = false.
Proof. reflexivity. Qed.

(** [message || fallback]: the message when it is a non-empty string. *)
Lemma or_else_cases (m : option string) (fallback : string) :
  or_else m fallback =
    match m with
    | Some EmptyString | None => fallback
    | Some text => text
    end.
Proof. destruct m as [[|c s]|]; reflexivity. Qed.

Section Runs.
Context {G : Type} (serve : ∀ X, effect X → G → X * G).

(** Takes the environment's answer to the next effect of the run. *)
Ltac answer :=
  lazymatch goal with
  | |- context [serve ?X ?c ?g] => destruct (serve X c g) as [? ?] eqn:?
  end;
  repeat match goal with
  | x : (_ + _)%type |- _ => destruct x
  | x : unit |- _ => destruct x
  end; cbn.

(** C2 -- a request without a [google_tokens] cookie is answered with
    status 401 and the body [{error: "Not authenticated with Google"}], and
    no request leaves the server. *)
Theorem save_without_cookie_unauthorized (req : VercelRequest) (g : G) :
  cookies req !! "google_tokens" = None →
  let R := run serve (saveToGoogleHandler req) g fresh_response in
  settled R = Fulfilled tt
  ∧ response R =
      {| statusCode := 401; headers := [];
         payload := Some (JsonBody
           (VObj [("error", VStr "Not authenticated with Google")])) |}
  ∧ outbound (trace R) = [].
Proof.
  intros H. cbn zeta. unfold saveToGoogleHandler. rewrite H. cbn.
  repeat answer. repeat split.
Qed.

(** An empty cookie value is treated like a missing cookie. *)
Lemma save_with_empty_cookie_unauthorized (req : VercelRequest) (g : G) :
  cookies req !! "google_tokens" = Some EmptyString →
  let R := run serve (saveToGoogleHandler req) g fresh_response in
  statusCode (response R) = 401 ∧ outbound (trace R) = [].
Proof.
  intros H. cbn zeta. unfold saveToGoogleHandler. rewrite H. cbn.
  repeat answer. repeat split.
Qed.

(** C3, as the code has it -- the status handler reports [true] exactly
    when the request carries a non-empty [google_tokens] cookie value; the
    value is not parsed. *)
Theorem status_reports_cookie_presence (req : VercelRequest) (g : G) :
  ∃ b : bool,
    response (run serve (statusHandler req) g fresh_response) =
      {| statusCode := 200; headers := [];
         payload := Some (JsonBody (VObj [("isAuthenticated", VBool b)])) |}
    ∧ (b = true ↔
       ∃ s, cookies req !! "google_tokens" = Some s ∧ s ≠ EmptyString).
Proof.
  exists (negb (falsy (cookies req !! "google_tokens"))). split.
  - unfold statusHandler. cbn. answer. reflexivity.
  - destruct (cookies req !! "google_tokens") as [[|c s]|]; cbn; split;
      try discriminate; try reflexivity.
    + intros (t & [= <-] & Ht). congruence.
    + intros _. eexists. split; [reflexivity | discriminate].
    + intros (t & [=] & _).
Qed.

(** C4, at the failing input -- with a cookie whose value is not JSON the
    invocation rejects with the [SyntaxError] of [JSON.parse]: nothing is
    caught, no status is set and no body is sent. *)
Theorem save_rejects_on_malformed_cookie (g : G) :
  let req := Scenario.export_request (Some "not json") Scenario.export_body in
  let R := run serve (saveToGoogleHandler req) g fresh_response in
  settled R = Rejected (SyntaxError "Unexpected token in JSON")
  ∧ response R = fresh_response
  ∧ trace R = [].
Proof. cbn zeta. repeat split. Qed.

(** X5 -- what happens before the [try] block is not caught: with a
    non-empty cookie whose value [JSON.parse] refuses, or with a request
    that has no body, the invocation rejects; no body is sent and nothing
    at all is done, not even a log entry. *)
Lemma save_rejects_outside_try (req : VercelRequest) (g : G) (c : ascii) (s : string) :
  cookies req !! "google_tokens" = Some (String c s) →
  Json.JSON_parse (String c s) = None ∨ body req = VUndefined ∨ body req = VNull →
  let R := run serve (saveToGoogleHandler req) g fresh_response in
  (∃ e, settled R = Rejected e) ∧ payload (response R) = None ∧ trace R = [].
Proof.
  intros Hc H. cbn zeta. unfold saveToGoogleHandler, JSON_parse. rewrite Hc.
  destruct H as [H | [H | H]]; rewrite H.
  - destruct (body req); cbn; eauto.
  - cbn; eauto.
  - cbn; eauto.
Qed.

(** A body without a usable [imageData] fails inside the [try] block and
    is answered with status 500. *)
Lemma save_bad_image_data (req : VercelRequest) (g : G) (c : ascii) (s : string) (v : jsval) :
  cookies req !! "google_tokens" = Some (String c s) →
  Json.JSON_parse (String c s) = Some v →
  body req ≠ VUndefined → body req ≠ VNull →
  (∀ text, prop "imageData" (body req) = VStr text → JS.split "," text !! 1%nat = None) →
  let R := run serve (saveToGoogleHandler req) g fresh_response in
  settled R = Fulfilled tt
  ∧ statusCode (response R) = 500
  ∧ (∃ msg, payload (response R) = Some (JsonBody (VObj [("error", VStr msg)])))
  ∧ outbound (trace R) = [].
Proof.
  intros Hc Hp Hu Hn Himg. cbn zeta.
  unfold saveToGoogleHandler, JSON_parse, destructure_body. rewrite Hc, Hp.
  destruct (body req) as [ | | b | n | t | xs | fields] eqn:Hb;
    try congruence; cbn; unfold export_steps, split_payload.
  5:{ cbn in Himg. destruct (get_field "imageData" fields) eqn:Hf; cbn;
      try (rewrite (Himg _ eq_refl); cbn);
      repeat answer; repeat split; eauto. }
  all: cbn; repeat answer; repeat split; eauto.
Qed.

(** The [try] block with its [catch]: a rejected request is the last one. *)
Lemma export_steps_failure (imageData prompt aspectRatio : jsval) (g : G) :
  let R := run serve
             (try_catch (export_steps imageData prompt aspectRatio) on_error)
             g fresh_response in
  existsb is_failure (trace R) = true →
  ∃ (pre : list (event effect)) (X : Type) (c : gapi X) (e : js_error),
    trace R = pre ++ rejected c e :: error_report e
    ∧ existsb is_failure pre = false
    ∧ outbound (trace R) = outbound pre ++ [rejected c e]
    ∧ settled R = Fulfilled tt
    ∧ response R = error_response e.
Proof.
  cbn zeta. unfold export_steps, split_payload, on_error.
  destruct imageData; cbn; repeat answer; try discriminate.
  destruct (split _ _ !! _); cbn; repeat answer; try discriminate.
  all: try (intros _; do 4 eexists; split;
            [find_prefix | repeat split; reflexivity]).
  all: destruct (files _) as [[|? ?]|]; cbn; repeat answer; try discriminate.
  all: intros _; do 4 eexists; split;
         [find_prefix | repeat split; reflexivity].
Qed.

(** C5 -- when a request to Google is rejected, the export stops there:
    every earlier request had resolved and nothing undoes it, no further
    request is made, and the handler answers with status 500 and the
    rejected step's message, or "Failed to save to Google" when it has
    none. *)
Theorem export_failure_aborts (req : VercelRequest) (g : G) :
  let R := run serve (saveToGoogleHandler req) g fresh_response in
  existsb is_failure (trace R) = true →
  ∃ (pre : list (event effect)) (X : Type) (c : gapi X) (e : js_error),
    trace R = pre ++ rejected c e :: error_report e
    ∧ existsb is_failure pre = false
    ∧ outbound (trace R) = outbound pre ++ [rejected c e]
    ∧ settled R = Fulfilled tt
    ∧ response R = error_response e.
Proof.
  cbn zeta. unfold saveToGoogleHandler, JSON_parse, destructure_body.
  destruct (cookies req !! "google_tokens") as [[|ch s]|];
    [cbn; repeat answer; discriminate | | cbn; repeat answer; discriminate].
  destruct (Json.JSON_parse (String ch s)) as [tokens|];
    [|destruct (body req); cbn; discriminate].
  generalize (prop "imageData" (body req)) (prop "prompt" (body req))
             (prop "aspectRatio" (body req)).
  intros imageData prompt aspectRatio.
  destruct (body req); cbn -[export_steps on_error]; try discriminate;
    destruct (serve _ (oauth2Client_setCredentials tokens) g) as [[] g0];
    cbn -[export_steps on_error]; intros H;
    destruct (export_steps_failure _ _ _ _ H)
      as (pre & X & c & e & Htr & Hpre & Hout & Hs & Hr);
    exists (Ev (oauth2Client_setCredentials tokens) tt :: pre), X, c, e;
    cbn -[export_steps on_error outbound];
    (repeat split; [by rewrite Htr | exact Hpre | exact Hout | exact Hs | exact Hr]).
Qed.

Ltac find_event := repeat first [left; reflexivity | right].

(** The [try] block when every request resolves. *)
Lemma export_steps_success (imageData prompt aspectRatio : jsval) (g : G)
    (l : Schema_FileList) :
  let R := run serve
             (try_catch (export_steps imageData prompt aspectRatio) on_error)
             g fresh_response in
  listing (trace R) = Some l →
  existsb is_failure (trace R) = false →
  ∃ (now : Z) (image b64 : string) (file : Schema_File) (iso : string)
    (created : Schema_Spreadsheet),
    let row := [VStr iso; prompt; aspectRatio; of_option (webViewLink file)] in
    outbound (trace R) =
      resolved (upload_request now b64) file
      :: resolved list_request l
      :: match files l with
         | Some (first :: _) => [resolved (append_request (id first) row) tt]
         | _ => [resolved create_request created;
                 resolved (header_request (spreadsheetId created)) tt;
                 resolved (append_request (spreadsheetId created) row) tt]
         end
    ∧ imageData = VStr image
    ∧ JS.split "," image !! 1%nat = Some b64
    ∧ In (Ev Date_now now) (trace R)
    ∧ In (Ev new_Date_toISOString iso) (trace R)
    ∧ settled R = Fulfilled tt
    ∧ response R =
        {| statusCode := 200; headers := [];
           payload := Some (JsonBody
             (VObj [("success", VBool true);
                    ("fileLink", of_option (webViewLink file))])) |}.
Proof.
  cbn zeta. unfold export_steps, split_payload, on_error.
  destruct imageData as [ | | | | image | | ]; cbn; repeat answer;
    try discriminate.
  destruct (split _ _ !! _) as [b64|] eqn:Hsplit; cbn; repeat answer;
    try discriminate.
  match goal with
  | |- context [files ?x] => destruct (files x) as [[|first others]|] eqn:Hfiles
  end; cbn; repeat answer; try discriminate; intros [= <-] _; rewrite Hfiles.
  all: eexists _, image, b64, _, _.
  2: exists {| spreadsheetId := None |}.
  all: try eexists.
  all: repeat split; first [reflexivity | eassumption | find_event].
Qed.

(** C1 -- in an export whose requests to Google all resolve, the listing
    result decides the rest: with no listed spreadsheet, one spreadsheet
    titled "Visionary AI Generations" with the single sheet "Generations"
    is created, the header row is written to [A1:D1] of it, and then the
    data row is appended to it; with a listed spreadsheet, the identifier
    of the first one is used and neither a creation nor a header write
    takes place.  Either way exactly one row
    [[timestamp, prompt, aspectRatio, fileLink]] is appended, the timestamp
    being the text of [new Date().toISOString()]. *)
Theorem export_find_or_create (req : VercelRequest) (g : G) (l : Schema_FileList) :
  let R := run serve (saveToGoogleHandler req) g fresh_response in
  listing (trace R) = Some l →
  existsb is_failure (trace R) = false →
  ∃ (now : Z) (image b64 : string) (file : Schema_File) (iso : string)
    (created : Schema_Spreadsheet),
    let row := [VStr iso; prop "prompt" (body req);
                prop "aspectRatio" (body req); of_option (webViewLink file)] in
    outbound (trace R) =
      resolved (upload_request now b64) file
      :: resolved list_request l
      :: match files l with
         | Some (first :: _) => [resolved (append_request (id first) row) tt]
         | _ => [resolved create_request created;
                 resolved (header_request (spreadsheetId created)) tt;
                 resolved (append_request (spreadsheetId created) row) tt]
         end
    ∧ prop "imageData" (body req) = VStr image
    ∧ JS.split "," image !! 1%nat = Some b64
    ∧ In (Ev Date_now now) (trace R)
    ∧ In (Ev new_Date_toISOString iso) (trace R)
    ∧ settled R = Fulfilled tt
    ∧ response R =
        {| statusCode := 200; headers := [];
           payload := Some (JsonBody
             (VObj [("success", VBool true);
                    ("fileLink", of_option (webViewLink file))])) |}.
Proof.
  cbn zeta. unfold saveToGoogleHandler, JSON_parse, destructure_body.
  destruct (cookies req !! "google_tokens") as [[|ch s]|];
    [cbn; repeat answer; discriminate | | cbn; repeat answer; discriminate].
  destruct (Json.JSON_parse (String ch s)) as [tokens|];
    [|destruct (body req); cbn; discriminate].
  generalize (prop "imageData" (body req)) (prop "prompt" (body req))
             (prop "aspectRatio" (body req)).
  intros imageData prompt aspectRatio.
  destruct (body req); cbn -[export_steps on_error outbound]; try discriminate;
    destruct (serve _ (oauth2Client_setCredentials tokens) g) as [[] g0];
    cbn -[export_steps on_error outbound]; intros Hl Hok;
    destruct (export_steps_success _ _ _ _ _ Hl Hok)
      as (now & image & b64 & file & iso & created
          & Hout & Himg & Hsplit & Hnow & Hiso & Hs & Hr);
    exists now, image, b64, file, iso, created;
    (repeat split;
     [exact Hout | exact Himg | exact Hsplit
     | right; exact Hnow | right; exact Hiso | exact Hs | exact Hr]).
Qed.

(** X10 -- with a listed spreadsheet the first identifier is used, whatever
    becomes of the append: the requests are the upload, the listing and
    the append to that spreadsheet, so no spreadsheet is created and no
    header row is written. *)
Lemma export_reuses_first_listed (req : VercelRequest) (g : G)
    (first : Schema_File) (others : list Schema_File) :
  let R := run serve (saveToGoogleHandler req) g fresh_response in
  listing (trace R) = Some {| files := Some (first :: others) |} →
  ∃ (now : Z) (b64 : string) (file : Schema_File) (iso : string)
    (answer : js_error + unit),
    outbound (trace R) =
      [resolved (upload_request now b64) file;
       resolved list_request {| files := Some (first :: others) |};
       Ev (Google (append_request (id first)
             [VStr iso; prop "prompt" (body req); prop "aspectRatio" (body req);
              of_option (webViewLink file)])) answer].
Proof.
  cbn zeta. unfold saveToGoogleHandler, JSON_parse, destructure_body.
  destruct (cookies req !! "google_tokens") as [[|ch s]|];
    [cbn; repeat answer; discriminate | | cbn; repeat answer; discriminate].
  destruct (Json.JSON_parse (String ch s)) as [tokens|];
    [|destruct (body req); cbn; discriminate].
  generalize (prop "imageData" (body req)) (prop "prompt" (body req))
             (prop "aspectRatio" (body req)).
  intros imageData prompt aspectRatio.
  assert (Hsteps : ∀ g0,
    let R := run serve
               (try_catch (export_steps imageData prompt aspectRatio) on_error)
               g0 fresh_response in
    listing (trace R) = Some {| files := Some (first :: others) |} →
    ∃ now b64 file iso answer,
      outbound (trace R) =
        [resolved (upload_request now b64) file;
         resolved list_request {| files := Some (first :: others) |};
         Ev (Google (append_request (id first)
               [VStr iso; prompt; aspectRatio; of_option (webViewLink file)]))
            answer]).
  { intros g0. cbn zeta. unfold export_steps, split_payload, on_error.
    destruct imageData; cbn; repeat answer; try discriminate.
    destruct (split _ _ !! _); cbn; repeat answer; try discriminate.
    all: match goal with
         | |- context [files ?x] => destruct x as [[[|? ?]|]]
         end; cbn; repeat answer; try discriminate.
    all: intros [= -> ->]; do 5 eexists; reflexivity. }
  destruct (body req); cbn -[export_steps on_error outbound]; try discriminate;
    destruct (serve _ (oauth2Client_setCredentials tokens) g) as [[] g0];
    cbn -[export_steps on_error outbound]; intros Hl;
    exact (Hsteps _ Hl).
Qed.

(** How an invocation of the export handler ends: it settles with a JSON
    body under status 200, 401 or 500, except when the cookie value is not
    JSON or the request has no body; then it rejects before anything is
    sent. *)
Lemma save_settles_or_rejects_early (req : VercelRequest) (g : G) :
  let R := run serve (saveToGoogleHandler req) g fresh_response in
  (settled R = Fulfilled tt
   ∧ (∃ v, payload (response R) = Some (JsonBody v))
   ∧ (statusCode (response R) = 200 ∨ statusCode (response R) = 401
      ∨ statusCode (response R) = 500))
  ∨ ((∃ e, settled R = Rejected e)
     ∧ response R = fresh_response
     ∧ trace R = []
     ∧ ∃ c s, cookies req !! "google_tokens" = Some (String c s)
              ∧ (Json.JSON_parse (String c s) = None
                 ∨ body req = VUndefined ∨ body req = VNull)).
Proof.
  cbn zeta. unfold saveToGoogleHandler, JSON_parse, destructure_body.
  destruct (cookies req !! "google_tokens") as [[|ch s]|];
    [left; cbn; repeat answer; eauto 6 | | left; cbn; repeat answer; eauto 6].
  destruct (Json.JSON_parse (String ch s)) as [tokens|] eqn:Hparse.
  2:{ right. destruct (body req); cbn; eauto 10. }
  generalize (prop "imageData" (body req)) (prop "prompt" (body req))
             (prop "aspectRatio" (body req)).
  intros imageData prompt aspectRatio.
  assert (Hsteps : ∀ g0,
    let R := run serve
               (try_catch (export_steps imageData prompt aspectRatio) on_error)
               g0 fresh_response in
    settled R = Fulfilled tt
    ∧ (∃ v, payload (response R) = Some (JsonBody v))
    ∧ (statusCode (response R) = 200 ∨ statusCode (response R) = 401
       ∨ statusCode (response R) = 500)).
  { intros g0. cbn zeta. unfold export_steps, split_payload, on_error.
    destruct imageData; cbn; repeat answer; eauto 6.
    destruct (split _ _ !! _); cbn; repeat answer; eauto 6.
    all: match goal with
         | |- context [files ?x] => destruct (files x) as [[|? ?]|]
         end; cbn; repeat answer; eauto 6. }
  destruct (body req) eqn:Hbody; cbn -[export_steps on_error];
    try (right; eauto 10; fail);
    left; destruct (serve _ (oauth2Client_setCredentials tokens) g) as [[] g0];
    cbn -[export_steps on_error]; apply Hsteps.
Qed.

(** An export that carries the cookie of a sign-in and has a body does not
    reject: the cookie value parses, so every failure is answered by the
    handler. *)
Lemma save_with_callback_cookie_settles (req : VercelRequest) (g : G) (t : Credentials) :
  cookies req !! "google_tokens" = Some (JSON_stringify t) →
  body req ≠ VUndefined → body req ≠ VNull →
  let R := run serve (saveToGoogleHandler req) g fresh_response in
  settled R = Fulfilled tt
  ∧ (∃ v, payload (response R) = Some (JsonBody v))
  ∧ (statusCode (response R) = 200 ∨ statusCode (response R) = 500).
Proof.
  intros Hcookie Hu Hn. cbn zeta.
  destruct (save_settles_or_rejects_early req g)
    as [(Hs & Hp & [H200 | [H401 | H500]]) | (_ & _ & _ & c & s & Hc & Hbad)].
  - auto.
  - exfalso. revert H401. unfold saveToGoogleHandler, JSON_parse, destructure_body.
    rewrite Hcookie. change (JSON_stringify t) with (String "{"%char
      (join "," (omap stringify_field t) +:+ "}")).
    pose proof (JsonFacts.parse_stringify t) as Hparse.
    change (JSON_stringify t) with (String "{"%char
      (join "," (omap stringify_field t) +:+ "}")) in Hparse.
    rewrite Hparse.
    generalize (prop "imageData" (body req)) (prop "prompt" (body req))
               (prop "aspectRatio" (body req)).
    intros imageData prompt aspectRatio.
    destruct (body req); try congruence; cbn -[export_steps on_error];
      destruct (serve _ (oauth2Client_setCredentials _) g) as [[] g0];
      cbn -[export_steps on_error];
      unfold export_steps, split_payload, on_error;
      (destruct imageData; cbn; repeat answer; try discriminate;
       destruct (split _ _ !! _); cbn; repeat answer; try discriminate;
       match goal with
       | |- context [files ?x] => destruct (files x) as [[|? ?]|]
       end; cbn; repeat answer; discriminate).
  - auto.
  - exfalso. assert (E : String c s = JSON_stringify t) by congruence.
    rewrite E, JsonFacts.parse_stringify in Hbad.
    destruct Hbad as [? | [? | ?]]; congruence.
Qed.

(** C7 -- the cookie that the callback handler writes for a token set,
    sent back by the user agent, reaches the status handler as the JSON
    text of the token set, which [JSON.parse] reads back as the token
    object, and the status handler answers [{isAuthenticated: true}]. *)
Theorem callback_cookie_round_trip (req : VercelRequest) (g g1 : G) (t : Credentials) :
  serve _ (Google (oauth2Client_getToken (of_option (query req !! "code")))) g
    = (inr {| tokens := t |}, g1) →
  let R := run serve (callbackHandler req) g fresh_response in
  ∃ value : string,
    headers (response R) = [("Set-Cookie", set_cookie_header t)]
    ∧ Cookie.stored_pair (set_cookie_header t) = Some ("google_tokens", value)
    ∧ Json.JSON_parse (JSON_stringify t) = Some (credentials_value t)
    ∧ ∀ (before after : list (string * string)) (q : gmap string string)
        (b : jsval) (g' : G),
        Forall (λ kv, kv.1 ≠ "google_tokens") before →
        let back := {| cookie_header := before ++ ("google_tokens", value) :: after;
                       in_query := q; in_body := b |} in
        Cookie.cookieParser (cookie_header back) !! "google_tokens"
          = Some (JSON_stringify t)
        ∧ response (run serve (parseCookies statusHandler back) g' fresh_response)
          = {| statusCode := 200; headers := [];
               payload := Some (JsonBody (VObj [("isAuthenticated", VBool true)])) |}.
Proof.
  intros Hget. cbn zeta.
  exists (Uri.encodeURIComponent (JSON_stringify t)). split; [|split; [|split]].
  - unfold callbackHandler. cbn. rewrite Hget. cbn. repeat answer. reflexivity.
  - apply stored_pair_set_cookie.
  - apply JsonFacts.parse_stringify.
  - intros before after q b g' Hbefore.
    assert (Hcookie :
      Cookie.cookieParser
        (before ++ ("google_tokens", Uri.encodeURIComponent (JSON_stringify t)) :: after)
        !! "google_tokens" = Some (JSON_stringify t)).
    { rewrite UriFacts.cookieParser_first by exact Hbefore.
      unfold Cookie.tryDecode. rewrite UriFacts.decode_encode. reflexivity. }
    split; [exact Hcookie|].
    unfold parseCookies, statusHandler. cbn -[JSON_stringify Uri.encodeURIComponent].
    rewrite Hcookie. cbn -[JSON_stringify]. answer. reflexivity.
Qed.

End Runs.

(** C3, counterexample -- a cookie value that does not parse is reported as
    authenticated. *)
Lemma status_true_for_unparseable_cookie :
  Json.JSON_parse "not json" = None
  ∧ payload (response (run (Scenario.google [] [] None)
       (statusHandler (Scenario.export_request (Some "not json") VUndefined))
       0%nat fresh_response))
    = Some (JsonBody (VObj [("isAuthenticated", VBool true)])).
Proof. split; reflexivity. Qed.

(** C1 at the first export of the scenario. *)
Lemma export_find_or_create_witness :
  listing (trace Scenario.first_export) = Some {| files := Some [] |}
  ∧ existsb is_failure (trace Scenario.first_export) = false
  ∧ ∃ (now : Z) (image b64 : string) (file : Schema_File) (iso : string)
      (created : Schema_Spreadsheet),
      let row := [VStr iso; prop "prompt" (body Scenario.export);
                  prop "aspectRatio" (body Scenario.export);
                  of_option (webViewLink file)] in
      outbound (trace Scenario.first_export) =
        resolved (upload_request now b64) file
        :: resolved list_request {| files := Some [] |}
        :: match files {| files := Some [] |} with
           | Some (first :: _) => [resolved (append_request (id first) row) tt]
           | _ => [resolved create_request created;
                   resolved (header_request (spreadsheetId created)) tt;
                   resolved (append_request (spreadsheetId created) row) tt]
           end
      ∧ prop "imageData" (body Scenario.export) = VStr image
      ∧ JS.split "," image !! 1%nat = Some b64
      ∧ In (Ev Date_now now) (trace Scenario.first_export)
      ∧ In (Ev new_Date_toISOString iso) (trace Scenario.first_export)
      ∧ settled Scenario.first_export = Fulfilled tt
      ∧ response Scenario.first_export =
          {| statusCode := 200; headers := [];
             payload := Some (JsonBody
               (VObj [("success", VBool true);
                      ("fileLink", of_option (webViewLink file))])) |}.
Proof.
  split; [vm_compute; reflexivity|]. split; [vm_compute; reflexivity|].
  apply (export_find_or_create (Scenario.google [] [] None) Scenario.export
           0%nat {| files := Some [] |}); vm_compute; reflexivity.
Defined.

(** C5 at the export whose append is rejected. *)
Lemma export_failure_aborts_witness :
  existsb is_failure (trace Scenario.failed_export) = true
  ∧ ∃ (pre : list (event effect)) (X : Type) (c : gapi X) (e : js_error),
      trace Scenario.failed_export = pre ++ rejected c e :: error_report e
      ∧ existsb is_failure pre = false
      ∧ outbound (trace Scenario.failed_export) = outbound pre ++ [rejected c e]
      ∧ settled Scenario.failed_export = Fulfilled tt
      ∧ response Scenario.failed_export = error_response e.
Proof.
  split; [vm_compute; reflexivity|].
  apply (export_failure_aborts (Scenario.google [] [Scenario.uploaded] (Some 2%nat))
           Scenario.export 0%nat); vm_compute; reflexivity.
Defined.

(** C7 at the sign-in of the scenario. *)
Lemma callback_cookie_round_trip_witness :
  Scenario.google Scenario.sample_tokens [] None _
    (Google (oauth2Client_getToken
               (of_option (query (Scenario.callback_request "4/0AfJohXk") !! "code"))))
    0%nat
    = (inr {| tokens := Scenario.sample_tokens |}, 1%nat)
  ∧ ∃ value : string,
      headers (response Scenario.sign_in)
        = [("Set-Cookie", set_cookie_header Scenario.sample_tokens)]
      ∧ Cookie.stored_pair (set_cookie_header Scenario.sample_tokens)
        = Some ("google_tokens", value)
      ∧ Json.JSON_parse (JSON_stringify Scenario.sample_tokens)
        = Some (credentials_value Scenario.sample_tokens)
      ∧ ∀ (before after : list (string * string)) (q : gmap string string)
          (b : jsval) (g' : nat),
          Forall (λ kv, kv.1 ≠ "google_tokens") before →
          let back := {| cookie_header := before ++ ("google_tokens", value) :: after;
                         in_query := q; in_body := b |} in
          Cookie.cookieParser (cookie_header back) !! "google_tokens"
            = Some (JSON_stringify Scenario.sample_tokens)
          ∧ response (run (Scenario.google Scenario.sample_tokens [] None)
                        (parseCookies statusHandler back) g' fresh_response)
            = {| statusCode := 200; headers := [];
                 payload := Some (JsonBody (VObj [("isAuthenticated", VBool true)])) |}.
Proof.
  split; [vm_compute; reflexivity|].
  apply (callback_cookie_round_trip (Scenario.google Scenario.sample_tokens [] None)
           (Scenario.callback_request "4/0AfJohXk") 0%nat 1%nat Scenario.sample_tokens).
  vm_compute; reflexivity.
Defined.

(** A second export, in a fresh invocation that finds the spreadsheet of
    the first one listed: its identifier is used again, and the only write
    to it is the appended row. *)
Example second_export_reuses_spreadsheet :
  outbound (trace Scenario.second_export) =
    [resolved (upload_request 1700000000000 "iVBORw0KGgo=") Scenario.uploaded;
     resolved list_request {| files := Some [Scenario.found] |};
     resolved (append_request (Some "sheet-1")
                 [VStr "2023-11-14T22:13:20.000Z"; VStr "a lighthouse at dusk";
                  VStr "16:9";
                  VStr "https://drive.google.com/file/d/file-1/view"]) tt]
  ∧ statusCode (response Scenario.second_export) = 200.
Proof. split; reflexivity. Qed.

(** The cookie of the scenario is the JSON text of the sample token set,
    and [JSON.parse] reads it back. *)
Example session_cookie_parses :
  Json.JSON_parse Scenario.session_cookie =
    Some (VObj [("access_token", VStr "ya29.a0Af/x+y=");
                ("refresh_token", VStr "1//0g");
                ("scope", VStr "https://www.googleapis.com/auth/drive.file https://www.googleapis.com/auth/spreadsheets");
                ("token_type", VStr "Bearer");
                ("expiry_date", VNum {| mantissa := 1700003600000; exponent := 0 |})]).
Proof. vm_compute. reflexivity. Qed.

(** C2 at the export without a cookie. *)
Lemma save_without_cookie_unauthorized_witness :
  cookies (Scenario.export_request None Scenario.export_body) !! "google_tokens" = None
  ∧ settled Scenario.anonymous_export = Fulfilled tt
  ∧ response Scenario.anonymous_export =
      {| statusCode := 401; headers := [];
         payload := Some (JsonBody
           (VObj [("error", VStr "Not authenticated with Google")])) |}
  ∧ outbound (trace Scenario.anonymous_export) = [].
Proof.
  split; [reflexivity|].
  apply (save_without_cookie_unauthorized (Scenario.google [] [] None)
           (Scenario.export_request None Scenario.export_body) 0%nat).
  reflexivity.
Defined.

End ServerFacts.

(* ===================================================================== *)
(** * Properties: the client *)
(* ===================================================================== *)

Module ClientFacts.
Import Async Client.

(** ** Strings *)

Lemma trimStart_blank (s : jstr) :
  Forall (λ c, is_whitespace c = true) s → trimStart s = [].
Proof.
  induction 1 as [|c s Hc _ IH]; [reflexivity|].
  simpl. rewrite Hc. exact IH.
Qed.

(** [trim] leaves nothing of an empty or all-whitespace string. *)
Lemma trim_blank (s : jstr) :
  Forall (λ c, is_whitespace c = true) s → trim s = [].
Proof.
  intros H. unfold trim. rewrite (trimStart_blank s H). reflexivity.
Qed.

Lemma substring_nonempty (n : nat) (s : jstr) :
  substring n s ≠ [] ↔ (n < length s)%nat.
Proof.
  unfold substring. split.
  - intros H. destruct (decide (n < length s)%nat) as [|Hge]; [assumption|].
    exfalso. apply H. apply drop_ge. lia.
  - intros Hlt Hnil. apply (f_equal length) in Hnil.
    rewrite length_drop in Hnil. simpl in Hnil. lia.
Qed.

(** ** History *)

(** The updater of a generation: after an insertion the history has at
    most 20 entries and the new image in front, followed by the previous
    entries in their order; an insertion into a history of 20 entries
    drops exactly its last entry. *)
Lemma history_bounded_most_recent_first
    (newImage : GeneratedImage) (prev : list GeneratedImage) :
  (length (push_history newImage prev) ≤ 20)%nat
  ∧ push_history newImage prev = newImage :: take 19 prev
  ∧ ((length prev < 20)%nat → push_history newImage prev = newImage :: prev)
  ∧ (length prev = 20%nat →
     ∃ kept oldest, prev = kept ++ [oldest]
                    ∧ push_history newImage prev = newImage :: kept).
Proof.
  unfold push_history. split; [|split; [|split]].
  - rewrite length_take. lia.
  - reflexivity.
  - intros H. change (newImage :: take 19 prev = newImage :: prev).
    rewrite take_ge by lia. reflexivity.
  - intros H. exists (take 19 prev).
    destruct (drop 19 prev) as [|oldest rest] eqn:Hdrop.
    + apply (f_equal length) in Hdrop. rewrite length_drop in Hdrop.
      simpl in Hdrop. lia.
    + exists oldest. split; [|reflexivity].
      assert (rest = []) as ->.
      { apply (f_equal length) in Hdrop. rewrite length_drop in Hdrop.
        simpl in Hdrop. destruct rest; [reflexivity | simpl in Hdrop; lia]. }
      rewrite <- Hdrop. symmetry. apply take_drop.
Qed.

(** Removing an id keeps the other entries, in their order. *)
Lemma remove_id_spec (id : jstr) (prev : list GeneratedImage) :
  remove_id id prev `sublist_of` prev
  ∧ (∀ img, img ∈ remove_id id prev ↔ img ∈ prev ∧ GeneratedImage.id img ≠ id)
  ∧ remove_id id prev ++ filter (λ img, GeneratedImage.id img = id) prev ≡ₚ prev.
Proof.
  unfold remove_id. split; [|split].
  - apply sublist_filter.
  - intros img. rewrite list_elem_of_filter. tauto.
  - rewrite <- (filter_app_complement (λ img, GeneratedImage.id img ≠ id) prev) at 3.
    f_equiv. erewrite list_filter_iff; [reflexivity|]. intros img. split.
    + intros -> H. apply H. reflexivity.
    + intros H. destruct (decide (GeneratedImage.id img = id)); [assumption|].
      exfalso. apply H. assumption.
Qed.

Section Runs.
Context {G : Type} (serve : ∀ X, effect X → G → X * G).
Variable toString36 : double → jstr.

Ltac answer :=
  lazymatch goal with
  | |- context [serve ?X ?c ?g] => destruct (serve X c g) as [? ?] eqn:?
  end;
  repeat match goal with
  | x : (_ + _)%type |- _ => destruct x
  | x : unit |- _ => destruct x
  end; cbn.

(** C10 -- with an empty or all-whitespace prompt, [handleGenerate] makes
    no call at all and leaves the state as it is. *)
Theorem blank_prompt_generates_nothing (st store : AppState) (g : G) :
  Forall (λ c, is_whitespace c = true) (prompt st) →
  run serve (handleGenerate toString36 st) g store =
    {| settled := Fulfilled tt; env := g; state := store; trace := [] |}.
Proof.
  intros H. unfold handleGenerate. rewrite (trim_blank _ H). reflexivity.
Qed.

(** C8, as the code has it -- from a reply with status 200 the client
    builds an image whose url, prompt and timestamp are those of the
    reply and whose id is the rendering of the random number in radix 36
    without its first seven characters; the id is non-empty exactly when
    that rendering has more than seven characters.  The image is shown
    and put in front of the history. *)
Theorem generate_builds_image (st store : AppState) (g : G)
    (res : Response) (result : Result.t) (r : double) :
  let R := run serve (handleGenerate toString36 st) g store in
  reply (trace R) = Some (inr res) →
  status res = 200 →
  json res = inr result →
  draw (trace R) = Some r →
  ∃ img : GeneratedImage,
    currentImage (state R) = Some img
    ∧ history (state R) = push_history img (history store)
    ∧ GeneratedImage.id img = substring 7 (toString36 r)
    ∧ GeneratedImage.url img = Result.url result
    ∧ GeneratedImage.prompt img = Result.prompt result
    ∧ GeneratedImage.aspectRatio img = ratio_string (aspectRatio st)
    ∧ GeneratedImage.timestamp img = Result.timestamp result
    ∧ (GeneratedImage.id img ≠ [] ↔ (7 < length (toString36 r))%nat)
    ∧ isGenerating (state R) = false
    ∧ error (state R) = None
    ∧ settled R = Fulfilled tt.
Proof.
  cbn zeta. unfold handleGenerate.
  destruct (falsy (trim (prompt st))); [discriminate|].
  cbn. repeat answer; try discriminate.
  intros [= <-] Hstatus Hjson. unfold res_json. rewrite Hjson. cbn.
  rewrite bool_decide_eq_false_2 by (intros Hne; apply Hne, Hstatus).
  cbn. repeat answer. intros [= <-].
  eexists. repeat split; try reflexivity; apply substring_nonempty.
Qed.

(** C6 -- a generation that succeeds inserts its image into the history
    the page has at that moment, whatever that history is: afterwards the
    history has at most 20 entries and the new image, which is also the
    displayed one, in front, followed by the previous entries in their
    order; a history of fewer than 20 entries is kept whole, and from a
    history of 20 entries exactly the last one, the oldest, is dropped. *)
Theorem generate_history_bounded_most_recent_first (st store : AppState) (g : G)
    (res : Response) (result : Result.t) :
  let R := run serve (handleGenerate toString36 st) g store in
  reply (trace R) = Some (inr res) →
  status res = 200 →
  json res = inr result →
  ∃ newImage : GeneratedImage,
    currentImage (state R) = Some newImage
    ∧ GeneratedImage.url newImage = Result.url result
    ∧ (length (history (state R)) ≤ 20)%nat
    ∧ history (state R) = newImage :: take 19 (history store)
    ∧ ((length (history store) < 20)%nat →
       history (state R) = newImage :: history store)
    ∧ (length (history store) = 20%nat →
       ∃ kept oldest, history store = kept ++ [oldest]
                      ∧ history (state R) = newImage :: kept).
Proof.
  cbn zeta. unfold handleGenerate.
  destruct (falsy (trim (prompt st))); [discriminate|].
  cbn. repeat answer; try discriminate.
  intros [= <-] Hstatus Hjson. unfold res_json. rewrite Hjson. cbn.
  rewrite bool_decide_eq_false_2 by (intros Hne; apply Hne, Hstatus).
  cbn. repeat answer.
  eexists. split; [reflexivity|]. split; [reflexivity|].
  apply history_bounded_most_recent_first.
Qed.

(** C9 -- deleting the id of the displayed image clears the display,
    deleting any other id leaves it as it is; the history loses the
    entries with that id and nothing else, the remaining ones keep their
    order, and no network call is made. *)
Theorem delete_clears_only_matching (st : AppState) (id : jstr) (g : G) :
  let R := run serve (deleteFromHistory st id) g st in
  (∀ img, currentImage st = Some img → GeneratedImage.id img = id →
          currentImage (state R) = None)
  ∧ ((∀ img, currentImage st = Some img → GeneratedImage.id img ≠ id) →
     currentImage (state R) = currentImage st)
  ∧ history (state R) = remove_id id (history st)
  ∧ history (state R) `sublist_of` history st
  ∧ (∀ img, img ∈ history (state R) ↔ img ∈ history st ∧ GeneratedImage.id img ≠ id)
  ∧ history (state R) ++ filter (λ img, GeneratedImage.id img = id) (history st)
      ≡ₚ history st
  ∧ existsb is_network (trace R) = false
  ∧ settled R = Fulfilled tt.
Proof.
  cbn zeta.
  assert (Hhist : history (state (run serve (deleteFromHistory st id) g st))
                  = remove_id id (history st)).
  { unfold deleteFromHistory. cbn. answer.
    destruct (shows (currentImage st) id); cbn; [answer|]; reflexivity. }
  destruct (remove_id_spec id (history st)) as (Hsub & Hin & Hperm).
  rewrite Hhist. repeat split; try assumption; try (apply Hin; assumption).
  - intros img Hcur Hid. unfold deleteFromHistory, shows. rewrite Hcur.
    rewrite bool_decide_eq_true_2 by exact Hid. cbn. repeat answer. reflexivity.
  - intros Hother. unfold deleteFromHistory, shows.
    destruct (currentImage st) as [img|] eqn:Hcur.
    + rewrite bool_decide_eq_false_2 by (apply Hother; reflexivity).
      cbn. answer. exact Hcur.
    + cbn. answer. exact Hcur.
  - unfold deleteFromHistory. cbn. answer.
    destruct (shows (currentImage st) id); cbn; [answer|]; reflexivity.
  - unfold deleteFromHistory. cbn. answer.
    destruct (shows (currentImage st) id); cbn; [answer|]; reflexivity.
Qed.

End Runs.

(** C8, counterexample -- when [Math.random()] returns 0, whose rendering in
    radix 36 is the one character [0], the generated image has the empty
    id. *)
Lemma generated_id_can_be_empty :
  exact_toString36 Scenario.zero = lit "0"
  ∧ ∃ img : GeneratedImage,
      currentImage (state (Scenario.generate Scenario.zero)) = Some img
      ∧ GeneratedImage.url img = Result.url Scenario.generated
      ∧ GeneratedImage.timestamp img = Result.timestamp Scenario.generated
      ∧ GeneratedImage.id img = [].
Proof. split; [reflexivity|]. eexists. repeat split. Qed.

(** The same happens for 1/2, which renders as [0.i]. *)
Example generated_id_empty_at_half :
  exact_toString36 Scenario.half = lit "0.i"
  ∧ GeneratedImage.id <$> currentImage (state (Scenario.generate Scenario.half))
    = Some [].
Proof. split; reflexivity. Qed.

(** C6 at a generation on the page with the full history. *)
Lemma generate_history_bounded_most_recent_first_witness :
  reply (trace Stories.generate_crowded)
    = Some (inr {| status := 200; json := inr Scenario.generated |})
  ∧ status {| status := 200; json := inr Scenario.generated |} = 200
  ∧ json {| status := 200; json := inr Scenario.generated |} = inr Scenario.generated
  ∧ ∃ newImage : GeneratedImage,
      currentImage (state Stories.generate_crowded) = Some newImage
      ∧ GeneratedImage.url newImage = Result.url Scenario.generated
      ∧ (length (history (state Stories.generate_crowded)) ≤ 20)%nat
      ∧ history (state Stories.generate_crowded)
        = newImage :: take 19 (history Stories.crowded)
      ∧ ((length (history Stories.crowded) < 20)%nat →
         history (state Stories.generate_crowded) = newImage :: history Stories.crowded)
      ∧ (length (history Stories.crowded) = 20%nat →
         ∃ kept oldest, history Stories.crowded = kept ++ [oldest]
                        ∧ history (state Stories.generate_crowded) = newImage :: kept).
Proof.
  split; [reflexivity|]. split; [reflexivity|]. split; [reflexivity|].
  apply (generate_history_bounded_most_recent_first
           (Scenario.browser Scenario.ok_response Scenario.half) exact_toString36
           Stories.crowded Stories.crowded tt
           {| status := 200; json := inr Scenario.generated |} Scenario.generated);
    reflexivity.
Defined.

(** On that page the generation drops picture 1 and keeps pictures 20 down
    to 2 behind the new image. *)
Example crowded_generation_evicts_oldest :
  length (history Stories.crowded) = 20%nat
  ∧ last (history Stories.crowded) = Some (Scenario.picture 1)
  ∧ tail (history (state Stories.generate_crowded))
    = map Scenario.picture (rev (seq 2 19))
  ∧ head (history (state Stories.generate_crowded))
    = currentImage (state Stories.generate_crowded).
Proof. repeat split. Qed.

(** Inserting picture 21 into the full history drops picture 1, the oldest. *)
Example full_history_evicts_oldest :
  length Scenario.full_history = 20%nat
  ∧ last Scenario.full_history = Some (Scenario.picture 1)
  ∧ push_history (Scenario.picture 21) Scenario.full_history
    = map Scenario.picture (rev (seq 2 20)).
Proof. repeat split. Qed.

(** C10 at a prompt of five whitespace characters. *)
Lemma blank_prompt_generates_nothing_witness :
  Forall (λ c, is_whitespace c = true) (prompt Scenario.blank)
  ∧ run (Scenario.browser Scenario.ok_response Scenario.half)
        (handleGenerate exact_toString36 Scenario.blank) tt Scenario.gallery
    = {| settled := Fulfilled tt; env := tt; state := Scenario.gallery; trace := [] |}.
Proof.
  split; [repeat constructor|].
  apply (blank_prompt_generates_nothing
           (Scenario.browser Scenario.ok_response Scenario.half)
           exact_toString36 Scenario.blank Scenario.gallery tt).
  repeat constructor.
Defined.

(** C8, as the code has it, at a generation whose random number is 1/2. *)
Lemma generate_builds_image_witness :
  reply (trace (Scenario.generate Scenario.half))
    = Some (inr {| status := 200; json := inr Scenario.generated |})
  ∧ status {| status := 200; json := inr Scenario.generated |} = 200
  ∧ json {| status := 200; json := inr Scenario.generated |} = inr Scenario.generated
  ∧ draw (trace (Scenario.generate Scenario.half)) = Some Scenario.half
  ∧ ∃ img : GeneratedImage,
      currentImage (state (Scenario.generate Scenario.half)) = Some img
      ∧ history (state (Scenario.generate Scenario.half))
        = push_history img (history (Scenario.typed "a lighthouse at dusk"))
      ∧ GeneratedImage.id img = substring 7 (exact_toString36 Scenario.half)
      ∧ GeneratedImage.url img = Result.url Scenario.generated
      ∧ GeneratedImage.prompt img = Result.prompt Scenario.generated
      ∧ GeneratedImage.aspectRatio img
        = ratio_string (aspectRatio (Scenario.typed "a lighthouse at dusk"))
      ∧ GeneratedImage.timestamp img = Result.timestamp Scenario.generated
      ∧ (GeneratedImage.id img ≠ [] ↔ (7 < length (exact_toString36 Scenario.half))%nat)
      ∧ isGenerating (state (Scenario.generate Scenario.half)) = false
      ∧ error (state (Scenario.generate Scenario.half)) = None
      ∧ settled (Scenario.generate Scenario.half) = Fulfilled tt.
Proof.
  split; [reflexivity|]. split; [reflexivity|]. split; [reflexivity|].
  split; [reflexivity|].
  apply (generate_builds_image
           (Scenario.browser Scenario.ok_response Scenario.half) exact_toString36
           (Scenario.typed "a lighthouse at dusk") (Scenario.typed "a lighthouse at dusk")
           tt {| status := 200; json := inr Scenario.generated |}
           Scenario.generated Scenario.half); reflexivity.
Defined.

(** C9 at the gallery of the scenario. *)
Lemma delete_clears_only_matching_witness :
  (∀ img, currentImage Scenario.gallery = Some img →
          GeneratedImage.id img = GeneratedImage.id (Scenario.picture 2) →
          currentImage (state Scenario.delete_shown) = None)
  ∧ ((∀ img, currentImage Scenario.gallery = Some img →
             GeneratedImage.id img ≠ GeneratedImage.id (Scenario.picture 2)) →
     currentImage (state Scenario.delete_shown) = currentImage Scenario.gallery)
  ∧ history (state Scenario.delete_shown)
    = remove_id (GeneratedImage.id (Scenario.picture 2)) (history Scenario.gallery)
  ∧ history (state Scenario.delete_shown) `sublist_of` history Scenario.gallery
  ∧ (∀ img, img ∈ history (state Scenario.delete_shown)
            ↔ img ∈ history Scenario.gallery
              ∧ GeneratedImage.id img ≠ GeneratedImage.id (Scenario.picture 2))
  ∧ history (state Scenario.delete_shown)
      ++ filter (λ img, GeneratedImage.id img = GeneratedImage.id (Scenario.picture 2))
           (history Scenario.gallery)
      ≡ₚ history Scenario.gallery
  ∧ existsb is_network (trace Scenario.delete_shown) = false
  ∧ settled Scenario.delete_shown = Fulfilled tt.
Proof.
  apply (delete_clears_only_matching
           (Scenario.browser Scenario.ok_response Scenario.zero)
           Scenario.gallery (GeneratedImage.id (Scenario.picture 2)) tt).
Defined.

(** In the gallery, deleting the displayed picture 2 leaves pictures 3 and
    1 and an empty display; deleting picture 3 leaves the display alone. *)
Example delete_from_gallery :
  history (state Scenario.delete_shown) = [Scenario.picture 3; Scenario.picture 1]
  ∧ currentImage (state Scenario.delete_shown) = None
  ∧ currentImage (state (run (Scenario.browser Scenario.ok_response Scenario.zero)
       (deleteFromHistory Scenario.gallery (GeneratedImage.id (Scenario.picture 3)))
       tt Scenario.gallery)) = Some (Scenario.picture 2).
Proof. repeat split. Qed.

End ClientFacts.

(* ===================================================================== *)
(** * Further properties: the serverless handlers *)
(* ===================================================================== *)

Module ExportFacts.
Import JS Async Server Answers.

(** ** [split] *)

Lemma split_go_free (sep : ascii) (s cur : string) :
  Cookie.occurs sep s = false →
  split_go sep cur s = [String.rev (String.rev_app s cur)].
Proof.
  revert cur. induction s as [|c s IH]; intros cur H; [reflexivity|].
  cbn in H |- *. destruct (Ascii.eqb c sep); [discriminate|].
  cbn in H. rewrite IH by exact H. reflexivity.
Qed.


(** A text without the separator is the only piece. *)
Lemma split_free (sep : ascii) (s : string) :
  Cookie.occurs sep s = false → split sep s = [s].
Proof.
  intros H. unfold split. rewrite split_go_free by exact H.
  rewrite JsonFacts.rev_rev_app. reflexivity.
Qed.


(** ** File names *)




(** ** Properties of the parsed token object *)

(** [obj[key]] after a property assignment. *)
Lemma get_field_set_field (k key : string) (v : jsval) (fs : list (string * jsval)) :
  get_field k (set_field key v fs)
  = if String.eqb key k then v else get_field k fs.
Proof.
  induction fs as [|[k' w] fs IH]; cbn.
  - reflexivity.
  - destruct (String.eqb k' key) eqn:E; cbn.
    + apply String.eqb_eq in E as ->. destruct (String.eqb key k); reflexivity.
    + rewrite IH. destruct (String.eqb key k) eqn:E2; [|reflexivity].
      apply String.eqb_eq in E2 as ->. rewrite E. reflexivity.
Qed.

Lemma get_field_foldl_other (k : string) (t : Credentials) (acc : list (string * jsval)) :
  k ∉ t.*1 →
  get_field k (foldl (λ acc kv, match field_value kv.2 with
                                 | Some v => set_field kv.1 v acc
                                 | None => acc
                                 end) acc t) = get_field k acc.
Proof.
  revert acc. induction t as [|[k' f'] t IH]; intros acc Hk; [reflexivity|].
  cbn in Hk |- *. rewrite not_elem_of_cons in Hk. destruct Hk as [Hne Hk].
  rewrite IH by exact Hk. cbn.
  destruct (field_value f'); [|reflexivity].
  rewrite get_field_set_field.
  destruct (String.eqb k' k) eqn:E; [|reflexivity].
  apply String.eqb_eq in E. congruence.
Qed.

Lemma get_field_foldl (k : string) (f : token_field) (t : Credentials)
    (acc : list (string * jsval)) :
  NoDup t.*1 → (k, f) ∈ t →
  get_field k (foldl (λ acc kv, match field_value kv.2 with
                                 | Some v => set_field kv.1 v acc
                                 | None => acc
                                 end) acc t)
  = match field_value f with Some v => v | None => get_field k acc end.
Proof.
  revert acc. induction t as [|[k' f'] t IH]; intros acc Hnd Hin.
  - by apply elem_of_nil in Hin.
  - cbn in Hnd. apply NoDup_cons in Hnd as [Hk' Hnd].
    apply elem_of_cons in Hin as [[= <- <-] | Hin]; cbn.
    + rewrite get_field_foldl_other by exact Hk'.
      cbn. destruct (field_value f); [|reflexivity].
      rewrite get_field_set_field, String.eqb_refl. reflexivity.
    + rewrite IH by assumption.
      destruct (field_value f); [reflexivity|].
      cbn. destruct (field_value f'); [|reflexivity].
      rewrite get_field_set_field.
      destruct (String.eqb k' k) eqn:E; [|reflexivity].
      apply String.eqb_eq in E as ->. exfalso. apply Hk'.
      apply list_elem_of_fmap. exists (k, f). split; [reflexivity | exact Hin].
Qed.

(** X2 -- every property of a token set survives the cookie: the JSON text
    the callback writes parses, and reading a property of the parsed
    object gives the value the token set held under that name -- the same
    string, number or [null], and [undefined] for a property that held
    [undefined]. *)
Theorem cookie_keeps_every_token_property (t : Credentials) (k : string)
    (f : token_field) :
  NoDup t.*1 → (k, f) ∈ t →
  ∃ obj, Json.JSON_parse (JSON_stringify t) = Some obj
    ∧ prop k obj = match field_value f with Some v => v | None => VUndefined end.
Proof.
  intros Hnd Hin. exists (credentials_value t).
  split; [apply JsonFacts.parse_stringify|].
  unfold credentials_value, prop.
  exact (get_field_foldl k f t [] Hnd Hin).
Qed.

(** ** The cookie header *)

(** X28 -- the attributes of the cookie do not depend on the tokens: the
    header the callback writes splits at its first semicolon into
    [google_tokens=<encoded JSON text>] and the fixed attributes [Path=/],
    [HttpOnly], [Secure], [SameSite=None] and [Max-Age=2592000] (30 days);
    the encoded value itself holds no semicolon. *)
Theorem cookie_attributes_are_fixed (t : Credentials) :
  Cookie.cut ";" (set_cookie_header t)
  = Some ("google_tokens=" +:+ Uri.encodeURIComponent (JSON_stringify t),
          " Path=/; HttpOnly; Secure; SameSite=None; Max-Age=2592000").
Proof.
  unfold set_cookie_header.
  set (enc := Uri.encodeURIComponent (JSON_stringify t)).
  replace ("google_tokens=" +:+ enc
             +:+ "; Path=/; HttpOnly; Secure; SameSite=None; Max-Age="
             +:+ Z_to_string (30 * 24 * 60 * 60))
    with (("google_tokens=" +:+ enc)
            +:+ String ";" " Path=/; HttpOnly; Secure; SameSite=None; Max-Age=2592000")
    by reflexivity.
  rewrite UriFacts.cut_free; [reflexivity|].
  rewrite UriFacts.occurs_app. apply (UriFacts.encode_delimiters (JSON_stringify t)).
Qed.

Section Runs.
Context {G : Type} (serve : ∀ X, effect X → G → X * G).

Ltac answer :=
  lazymatch goal with
  | |- context [serve ?X ?c ?g] => destruct (serve X c g) as [? ?] eqn:?
  end;
  repeat match goal with
  | x : (_ + _)%type |- _ => destruct x
  | x : unit |- _ => destruct x
  end; cbn.

(** ** The callback *)

(** X1 -- the callback handler never rejects and makes exactly one request,
    the exchange of the [code] query parameter (or of [undefined] when the
    request has none).  When the exchange resolves, the answer has status
    200, the success page and one [Set-Cookie] header for the tokens; when
    it is rejected, the error is logged and the answer is status 500 with
    the text "Authentication failed" and no cookie. *)
Theorem callback_sets_cookie_only_on_success (req : VercelRequest) (g : G) :
  let R := run serve (callbackHandler req) g fresh_response in
  let exchange := oauth2Client_getToken (of_option (query req !! "code")) in
  settled R = Fulfilled tt
  ∧ ((∃ t, outbound (trace R) = [resolved exchange {| tokens := t |}]
         ∧ response R =
             {| statusCode := 200;
                headers := [("Set-Cookie", set_cookie_header t)];
                payload := Some (TextBody success_page) |})
     ∨ (∃ e, outbound (trace R) = [rejected exchange e]
         ∧ In (Ev (console_error "Error exchanging code:" e) tt) (trace R)
         ∧ response R =
             {| statusCode := 500; headers := [];
                payload := Some (TextBody "Authentication failed") |})).
Proof.
  cbn zeta. unfold callbackHandler. cbn -[success_page set_cookie_header].
  answer.
  - repeat answer. split; [reflexivity|]. right. eexists.
    split; [reflexivity|]. split; [|reflexivity]. right. left. reflexivity.
  - repeat answer. split; [reflexivity|]. left.
    match goal with r : GetTokenResponse |- _ => destruct r as [t] end.
    exists t. split; reflexivity.
Qed.

(** ** The export *)

(** X4 -- the export handler answers 401 exactly when the request carries
    no [google_tokens] cookie or an empty one; it then does nothing but
    set the status and send the error body. *)
Theorem export_unauthorized_iff_no_cookie (req : VercelRequest) (g : G) :
  let R := run serve (saveToGoogleHandler req) g fresh_response in
  (statusCode (response R) = 401 ↔ falsy (cookies req !! "google_tokens") = true)
  ∧ (statusCode (response R) = 401 →
     settled R = Fulfilled tt
     ∧ trace R = [Ev (res_status 401) tt;
                  Ev (res_json (VObj [("error", VStr "Not authenticated with Google")])) tt]).
Proof.
  cbn zeta. unfold saveToGoogleHandler, JSON_parse, destructure_body.
  destruct (cookies req !! "google_tokens") as [[|ch s]|];
    [cbn; repeat answer; repeat split | | cbn; repeat answer; repeat split].
  destruct (Json.JSON_parse (String ch s)) as [tokens|].
  2:{ destruct (body req); cbn; (split; [split|]; discriminate). }
  generalize (prop "imageData" (body req)) (prop "prompt" (body req))
             (prop "aspectRatio" (body req)).
  intros imageData prompt aspectRatio.
  assert (Hsteps : ∀ g0,
    statusCode (response (run serve
      (try_catch (export_steps imageData prompt aspectRatio) on_error)
      g0 fresh_response)) ≠ 401).
  { intros g0. unfold export_steps, split_payload, on_error.
    destruct imageData; cbn; repeat answer; try discriminate.
    destruct (split _ _ !! _); cbn; repeat answer; try discriminate.
    all: match goal with
         | |- context [files ?x] => destruct (files x) as [[|? ?]|]
         end; cbn; repeat answer; discriminate. }
  destruct (body req); cbn -[export_steps on_error];
    try (split; [split|]; discriminate);
    destruct (serve _ (oauth2Client_setCredentials tokens) g) as [[] g0];
    cbn -[export_steps on_error];
    (split; [split; [intros H; destruct (Hsteps _ H) | discriminate]
            | intros H; destruct (Hsteps _ H)]).
Qed.

(** X6 -- no request goes to Google before the credentials are set: in a
    run that makes any request, the cookie was present and parsed, the
    first thing the handler did was [setCredentials] with the parsed
    value, and it did not set credentials again. *)
Theorem export_sets_credentials_first (req : VercelRequest) (g : G) :
  let R := run serve (saveToGoogleHandler req) g fresh_response in
  outbound (trace R) ≠ [] →
  ∃ text tokens rest,
    cookies req !! "google_tokens" = Some text
    ∧ Json.JSON_parse text = Some tokens
    ∧ trace R = Ev (oauth2Client_setCredentials tokens) tt :: rest
    ∧ Forall (λ ev, match ev with
                    | Ev (oauth2Client_setCredentials _) _ => False
                    | _ => True
                    end) rest.
Proof.
  cbn zeta. unfold saveToGoogleHandler, JSON_parse, destructure_body.
  destruct (cookies req !! "google_tokens") as [[|ch s]|];
    [cbn; repeat answer; congruence | | cbn; repeat answer; congruence].
  destruct (Json.JSON_parse (String ch s)) as [tokens|] eqn:Hparse;
    [|destruct (body req); cbn; congruence].
  generalize (prop "imageData" (body req)) (prop "prompt" (body req))
             (prop "aspectRatio" (body req)).
  intros imageData prompt aspectRatio.
  assert (Hsteps : ∀ g0,
    Forall (λ ev, match ev with
                  | Ev (oauth2Client_setCredentials _) _ => False
                  | _ => True
                  end)
      (trace (run serve
         (try_catch (export_steps imageData prompt aspectRatio) on_error)
         g0 fresh_response))).
  { intros g0. unfold export_steps, split_payload, on_error.
    destruct imageData; cbn; repeat answer; repeat constructor.
    destruct (split _ _ !! _); cbn; repeat answer; repeat constructor.
    all: match goal with
         | |- context [files ?x] => destruct (files x) as [[|? ?]|]
         end; cbn; repeat answer; repeat constructor. }
  destruct (body req); cbn -[export_steps on_error outbound];
    try (intros H; exfalso; apply H; reflexivity);
    destruct (serve _ (oauth2Client_setCredentials tokens) g) as [[] g0];
    cbn -[export_steps on_error outbound]; intros _;
    eexists _, tokens, _; (split; [reflexivity|]); (split; [exact Hparse|]);
    (split; [reflexivity|]); apply Hsteps.
Qed.

(** X7 -- an image that is not a data URI is refused before anything is
    uploaded: when [imageData] is a string without a comma (a plain link,
    say), [split(',')[1]] is [undefined], [Buffer.from] throws, and the
    handler answers 500 with that error's message without having made a
    request to Google. *)
Theorem export_refuses_image_without_comma (req : VercelRequest) (g : G)
    (text image : string) (tokens : jsval) :
  cookies req !! "google_tokens" = Some text →
  Json.JSON_parse text = Some tokens →
  prop "imageData" (body req) = VStr image →
  Cookie.occurs "," image = false →
  let R := run serve (saveToGoogleHandler req) g fresh_response in
  ∃ e, Buffer_from None = Throw e
    ∧ settled R = Fulfilled tt
    ∧ response R = error_response e
    ∧ trace R = Ev (oauth2Client_setCredentials tokens) tt :: error_report e.
Proof.
  intros Hc Hp Himg Hfree. cbn zeta.
  unfold saveToGoogleHandler, JSON_parse, destructure_body. rewrite Hc.
  destruct text as [|ch s]; [discriminate Hp|]. rewrite Hp.
  revert Himg. generalize (prop "prompt" (body req)) (prop "aspectRatio" (body req)).
  intros prompt aspectRatio.
  destruct (body req); cbn [prop]; try discriminate.
  intros ->. cbn -[export_steps on_error].
  destruct (serve _ (oauth2Client_setCredentials tokens) g) as [[] g0].
  cbn -[export_steps on_error]. unfold export_steps, split_payload, on_error.
  rewrite (split_free _ _ Hfree). cbn. repeat answer.
  eexists. repeat split.
Qed.


(** X11 -- the handler reports success only after the whole export: when
    the body [{success: true, fileLink}] was sent, no request had been
    rejected, the first request was the upload, [fileLink] is the link of
    the uploaded file, and the last request was the append, resolved, of a
    row that ends with that link. *)
Theorem export_success_means_appended (req : VercelRequest) (g : G) (link : jsval) :
  let R := run serve (saveToGoogleHandler req) g fresh_response in
  payload (response R)
    = Some (JsonBody (VObj [("success", VBool true); ("fileLink", link)])) →
  existsb is_failure (trace R) = false
  ∧ statusCode (response R) = 200
  ∧ ∃ now b64 file sheet row,
      head (outbound (trace R)) = Some (resolved (upload_request now b64) file)
      ∧ link = of_option (webViewLink file)
      ∧ last (outbound (trace R)) = Some (resolved (append_request sheet row) tt)
      ∧ last row = Some link.
Proof.
  cbn zeta. unfold saveToGoogleHandler, JSON_parse, destructure_body.
  destruct (cookies req !! "google_tokens") as [[|ch s]|];
    [cbn; repeat answer; discriminate | | cbn; repeat answer; discriminate].
  destruct (Json.JSON_parse (String ch s)) as [tokens|];
    [|destruct (body req); cbn; discriminate].
  generalize (prop "imageData" (body req)) (prop "prompt" (body req))
             (prop "aspectRatio" (body req)).
  intros imageData prompt aspectRatio.
  assert (Hsteps : ∀ g0,
    let R := run serve
               (try_catch (export_steps imageData prompt aspectRatio) on_error)
               g0 fresh_response in
    payload (response R)
      = Some (JsonBody (VObj [("success", VBool true); ("fileLink", link)])) →
    existsb is_failure (trace R) = false
    ∧ statusCode (response R) = 200
    ∧ ∃ now b64 file sheet row,
        head (outbound (trace R)) = Some (resolved (upload_request now b64) file)
        ∧ link = of_option (webViewLink file)
        ∧ last (outbound (trace R)) = Some (resolved (append_request sheet row) tt)
        ∧ last row = Some link).
  { intros g0. cbn zeta. unfold export_steps, split_payload, on_error.
    destruct imageData; cbn; repeat answer; try discriminate.
    destruct (split _ _ !! _); cbn; repeat answer; try discriminate.
    all: match goal with
         | |- context [files ?x] => destruct (files x) as [[|? ?]|]
         end; cbn; repeat answer; try discriminate.
    all: intros [= <-]; split; [reflexivity|]; split; [reflexivity|];
         do 5 eexists; repeat split. }
  destruct (body req); cbn -[export_steps on_error outbound]; try discriminate;
    destruct (serve _ (oauth2Client_setCredentials tokens) g) as [[] g0];
    cbn -[export_steps on_error outbound]; apply Hsteps.
Qed.

(** X3 -- sign-in, then export: when the user agent sends back the cookie
    the callback wrote for a token set, first among the cookies of that
    name, an export with a body does not reject; it starts by setting the
    credentials to the token object and answers with a JSON body under
    status 200 or 500. *)
Theorem export_after_sign_in_uses_tokens (t : Credentials)
    (before after : list (string * string)) (q : gmap string string)
    (b : jsval) (g : G) (value : string) :
  Cookie.stored_pair (set_cookie_header t) = Some ("google_tokens", value) →
  Forall (λ kv, kv.1 ≠ "google_tokens") before →
  b ≠ VUndefined → b ≠ VNull →
  let back := {| cookie_header := before ++ ("google_tokens", value) :: after;
                 in_query := q; in_body := b |} in
  let R := run serve (parseCookies saveToGoogleHandler back) g fresh_response in
  settled R = Fulfilled tt
  ∧ head (trace R) = Some (Ev (oauth2Client_setCredentials (credentials_value t)) tt)
  ∧ (∃ v, payload (response R) = Some (JsonBody v))
  ∧ (statusCode (response R) = 200 ∨ statusCode (response R) = 500).
Proof.
  intros Hstored Hbefore Hu Hn. cbn zeta.
  assert (value = Uri.encodeURIComponent (JSON_stringify t)) as ->.
  { rewrite ServerFacts.stored_pair_set_cookie in Hstored. congruence. }
  clear Hstored.
  unfold parseCookies. cbn [cookie_header in_query in_body].
  set (req := {| cookies := _; query := q; body := b |}).
  assert (Hcookie : cookies req !! "google_tokens" = Some (JSON_stringify t)).
  { unfold req. cbn [cookies].
    rewrite UriFacts.cookieParser_first by exact Hbefore.
    unfold Cookie.tryDecode. rewrite UriFacts.decode_encode. reflexivity. }
  destruct (ServerFacts.save_with_callback_cookie_settles serve req g t Hcookie Hu Hn)
    as (Hs & Hp & Hst).
  split; [exact Hs|]. split; [|split; [exact Hp | exact Hst]].
  unfold saveToGoogleHandler, JSON_parse, destructure_body. rewrite Hcookie.
  pose proof (JsonFacts.parse_stringify t) as Hparse.
  change (JSON_stringify t) with (String "{"%char
    (join "," (omap stringify_field t) +:+ "}")) in Hparse |- *.
  rewrite Hparse.
  generalize (prop "imageData" (body req)) (prop "prompt" (body req))
             (prop "aspectRatio" (body req)).
  intros imageData prompt aspectRatio.
  change (body req) with b.
  destruct b; try congruence; cbn -[export_steps on_error credentials_value];
    destruct (serve _ (oauth2Client_setCredentials _) g) as [[] g0];
    reflexivity.
Qed.

(** Finds the error that the [catch] block logged and splits the trace in
    front of its report. *)
Ltac logged :=
  lazymatch goal with
  | |- context [Ev (console_error "Error saving to Google:" ?e) tt] =>
      eexists _, e;
      split; [ServerFacts.find_prefix | split; [reflexivity | repeat constructor]]
  end.

(** X29 -- the export handler answers 500 exactly when it ends in its
    [catch] block: the status is 500 if and only if the run ends with the
    log entry, [status(500)] and the body
    [{error: message || "Failed to save to Google"}] of one and the same
    error, no body having been sent before. *)
Theorem export_error_answers_are_logged (req : VercelRequest) (g : G) :
  let R := run serve (saveToGoogleHandler req) g fresh_response in
  statusCode (response R) = 500
  ↔ ∃ pre e, trace R = pre ++ error_report e
             ∧ response R = error_response e
             ∧ Forall (λ ev, is_body ev = false) pre.
Proof.
  cbn zeta. unfold saveToGoogleHandler, JSON_parse, destructure_body.
  assert (Hno : ∀ (tr : list (event effect)) (r : VercelResponse),
    statusCode r ≠ 500 →
    ¬ ∃ pre e, tr = pre ++ error_report e ∧ r = error_response e
               ∧ Forall (λ ev, is_body ev = false) pre).
  { intros tr r Hr (pre & e & _ & -> & _). apply Hr. reflexivity. }
  destruct (cookies req !! "google_tokens") as [[|ch s]|].
  1,3: cbn; repeat answer;
    (split; [discriminate | intros H; exfalso; revert H; apply Hno; discriminate]).
  destruct (Json.JSON_parse (String ch s)) as [tokens|].
  2:{ destruct (body req); cbn;
        (split; [discriminate | intros H; exfalso; revert H; apply Hno; discriminate]). }
  generalize (prop "imageData" (body req)) (prop "prompt" (body req))
             (prop "aspectRatio" (body req)).
  intros imageData prompt aspectRatio.
  assert (Hsteps : ∀ g0,
    let R := run serve
               (try_catch (export_steps imageData prompt aspectRatio) on_error)
               g0 fresh_response in
    (statusCode (response R) ≠ 500)
    ∨ (statusCode (response R) = 500
       ∧ ∃ pre e, trace R = pre ++ error_report e
                  ∧ response R = error_response e
                  ∧ Forall (λ ev, is_body ev = false) pre)).
  { intros g0. cbn zeta. unfold export_steps, split_payload, on_error.
    destruct imageData; cbn; repeat answer;
      try (right; split; [reflexivity|]; logged).
    destruct (split _ _ !! _); cbn; repeat answer;
      try (right; split; [reflexivity|]; logged).
    all: match goal with
         | |- context [files ?x] => destruct (files x) as [[|? ?]|]
         end; cbn; repeat answer;
      first [ left; discriminate
            | right; split; [reflexivity|]; logged ]. }
  destruct (body req); cbn -[export_steps on_error];
    try (split; [discriminate | intros H; exfalso; revert H; apply Hno; discriminate]);
    destruct (serve _ (oauth2Client_setCredentials tokens) g) as [[] g0];
    cbn -[export_steps on_error];
    (destruct (Hsteps g0) as [Hne | (H500 & pre & e & Htr & Hr & Hpre)];
     [ split; [congruence | intros H; exfalso; revert H; apply Hno; exact Hne]
     | split; [intros _ | intros _; exact H500];
       exists (Ev (oauth2Client_setCredentials tokens) tt :: pre), e;
       rewrite Htr; (split; [reflexivity|]); (split; [exact Hr|]);
       constructor; [reflexivity | exact Hpre] ]).
Qed.

(** ** All four handlers *)

(** X12 -- a handler sends one response body per invocation: the export
    handler sends exactly one whenever it settles and none when it
    rejects; the callback, status and url handlers always send exactly
    one. *)
Theorem handlers_answer_once (req : VercelRequest) (g : G) :
  let sent (h : handler) := length (bodies (trace (run serve h g fresh_response))) in
  sent (saveToGoogleHandler req)
    = match settled (run serve (saveToGoogleHandler req) g fresh_response) with
      | Fulfilled _ => 1%nat
      | Rejected _ => 0%nat
      end
  ∧ sent (callbackHandler req) = 1%nat
  ∧ sent (statusHandler req) = 1%nat
  ∧ sent (urlHandler req) = 1%nat.
Proof.
  cbn zeta. split; [|split; [|split]].
  - unfold saveToGoogleHandler, JSON_parse, destructure_body.
    destruct (cookies req !! "google_tokens") as [[|ch s]|];
      [cbn; repeat answer; reflexivity | | cbn; repeat answer; reflexivity].
    destruct (Json.JSON_parse (String ch s)) as [tokens|];
      [|destruct (body req); reflexivity].
    generalize (prop "imageData" (body req)) (prop "prompt" (body req))
               (prop "aspectRatio" (body req)).
    intros imageData prompt aspectRatio.
    assert (Hsteps : ∀ g0,
      let R := run serve
                 (try_catch (export_steps imageData prompt aspectRatio) on_error)
                 g0 fresh_response in
      length (List.filter is_body (trace R)) = 1%nat ∧ settled R = Fulfilled tt).
    { intros g0. cbn zeta. unfold export_steps, split_payload, on_error.
      destruct imageData; cbn; repeat answer; try (split; reflexivity).
      destruct (split _ _ !! _); cbn; repeat answer; try (split; reflexivity).
      all: match goal with
           | |- context [files ?x] => destruct (files x) as [[|? ?]|]
           end; cbn; repeat answer; split; reflexivity. }
    destruct (body req); cbn -[export_steps on_error]; try reflexivity;
      destruct (serve _ (oauth2Client_setCredentials tokens) g) as [[] g0];
      cbn -[export_steps on_error]; destruct (Hsteps g0) as [-> ->]; reflexivity.
  - unfold callbackHandler. cbn -[success_page set_cookie_header].
    repeat answer; reflexivity.
  - unfold statusHandler. cbn. repeat answer. reflexivity.
  - unfold urlHandler. cbn. repeat answer. reflexivity.
Qed.

End Runs.

(** ** The properties at the scripted runs *)

(** X2 at the expiry date of the sample token set. *)
Lemma cookie_keeps_every_token_property_witness :
  NoDup Scenario.sample_tokens.*1
  ∧ ("expiry_date", TInt 1700003600000) ∈ Scenario.sample_tokens
  ∧ ∃ obj, Json.JSON_parse (JSON_stringify Scenario.sample_tokens) = Some obj
      ∧ prop "expiry_date" obj
        = match field_value (TInt 1700003600000) with
          | Some v => v
          | None => VUndefined
          end.
Proof.
  assert (Hnd : NoDup Scenario.sample_tokens.*1)
    by (apply (bool_decide_unpack _); vm_compute; exact I).
  assert (Hin : ("expiry_date", TInt 1700003600000) ∈ Scenario.sample_tokens)
    by (repeat first [apply list_elem_of_here | apply list_elem_of_further]).
  split; [exact Hnd|]. split; [exact Hin|].
  exact (cookie_keeps_every_token_property Scenario.sample_tokens "expiry_date"
           (TInt 1700003600000) Hnd Hin).
Defined.


(** Those two uploads are named apart. *)
Example later_upload_is_named_apart :
  file_name (upload_request 1700000000000 "iVBORw0KGgo=")
    = Some "Visionary_1700000000000.png"
  ∧ file_name (upload_request 1700000000001 "iVBORw0KGgo=")
    = Some "Visionary_1700000000001.png".
Proof. split; reflexivity. Qed.

(** X5 at the export with a cookie that is not JSON. *)
Lemma save_rejects_outside_try_witness :
  cookies (Scenario.export_request (Some "not json") Scenario.export_body)
    !! "google_tokens" = Some "not json"
  ∧ (Json.JSON_parse "not json" = None
     ∨ body (Scenario.export_request (Some "not json") Scenario.export_body) = VUndefined
     ∨ body (Scenario.export_request (Some "not json") Scenario.export_body) = VNull)
  ∧ (∃ e, settled Stories.forged_export = Rejected e)
  ∧ payload (response Stories.forged_export) = None
  ∧ trace Stories.forged_export = [].
Proof.
  split; [reflexivity|]. split; [left; reflexivity|].
  apply (ServerFacts.save_rejects_outside_try (Scenario.google [] [] None)
           (Scenario.export_request (Some "not json") Scenario.export_body)
           0%nat "n"%char "ot json"); [reflexivity | left; reflexivity].
Defined.

(** X6 at the first export of the scenario. *)
Lemma export_sets_credentials_first_witness :
  outbound (trace Scenario.first_export) ≠ []
  ∧ ∃ text tokens rest,
      cookies Scenario.export !! "google_tokens" = Some text
      ∧ Json.JSON_parse text = Some tokens
      ∧ trace Scenario.first_export = Ev (oauth2Client_setCredentials tokens) tt :: rest
      ∧ Forall (λ ev, match ev with
                      | Ev (oauth2Client_setCredentials _) _ => False
                      | _ => True
                      end) rest.
Proof.
  split; [vm_compute; discriminate|].
  apply (export_sets_credentials_first (Scenario.google [] [] None)
           Scenario.export 0%nat).
  vm_compute; discriminate.
Defined.

(** X7 at the export of a link. *)
Lemma export_refuses_image_without_comma_witness :
  cookies (Scenario.export_request (Some Scenario.session_cookie) Stories.linked_body)
    !! "google_tokens" = Some Scenario.session_cookie
  ∧ Json.JSON_parse Scenario.session_cookie
    = Some (credentials_value Scenario.sample_tokens)
  ∧ prop "imageData" Stories.linked_body = VStr "https://img.example/7f3a.png"
  ∧ Cookie.occurs "," "https://img.example/7f3a.png" = false
  ∧ ∃ e, Buffer_from None = Throw e
      ∧ settled Stories.linked_export = Fulfilled tt
      ∧ response Stories.linked_export = error_response e
      ∧ trace Stories.linked_export
        = Ev (oauth2Client_setCredentials (credentials_value Scenario.sample_tokens)) tt
          :: error_report e.
Proof.
  split; [reflexivity|]. split; [vm_compute; reflexivity|].
  split; [reflexivity|]. split; [reflexivity|].
  apply (export_refuses_image_without_comma (Scenario.google [] [] None)
           (Scenario.export_request (Some Scenario.session_cookie) Stories.linked_body)
           0%nat Scenario.session_cookie "https://img.example/7f3a.png"
           (credentials_value Scenario.sample_tokens));
    vm_compute; reflexivity.
Defined.


(** X10 at the second export of the scenario. *)
Lemma export_reuses_first_listed_witness :
  listing (trace Scenario.second_export) = Some {| files := Some [Scenario.found] |}
  ∧ ∃ (now : Z) (b64 : string) (file : Schema_File) (iso : string)
      (answer : js_error + unit),
      outbound (trace Scenario.second_export) =
        [resolved (upload_request now b64) file;
         resolved list_request {| files := Some [Scenario.found] |};
         Ev (Google (append_request (id Scenario.found)
               [VStr iso; prop "prompt" (body Scenario.export);
                prop "aspectRatio" (body Scenario.export);
                of_option (webViewLink file)])) answer].
Proof.
  split; [vm_compute; reflexivity|].
  apply (ServerFacts.export_reuses_first_listed (Scenario.google [] [Scenario.found] None)
           Scenario.export 0%nat Scenario.found []).
  vm_compute; reflexivity.
Defined.

(** X11 at the first export of the scenario. *)
Lemma export_success_means_appended_witness :
  payload (response Scenario.first_export)
    = Some (JsonBody (VObj [("success", VBool true);
                            ("fileLink", VStr "https://drive.google.com/file/d/file-1/view")]))
  ∧ existsb is_failure (trace Scenario.first_export) = false
  ∧ statusCode (response Scenario.first_export) = 200
  ∧ ∃ now b64 file sheet row,
      head (outbound (trace Scenario.first_export))
        = Some (resolved (upload_request now b64) file)
      ∧ VStr "https://drive.google.com/file/d/file-1/view" = of_option (webViewLink file)
      ∧ last (outbound (trace Scenario.first_export))
        = Some (resolved (append_request sheet row) tt)
      ∧ last row = Some (VStr "https://drive.google.com/file/d/file-1/view").
Proof.
  split; [vm_compute; reflexivity|].
  apply (export_success_means_appended (Scenario.google [] [] None)
           Scenario.export 0%nat (VStr "https://drive.google.com/file/d/file-1/view")).
  vm_compute; reflexivity.
Defined.

(** X3 at the export that follows the sign-in of the scenario. *)
Lemma export_after_sign_in_uses_tokens_witness :
  Cookie.stored_pair (set_cookie_header Scenario.sample_tokens)
    = Some ("google_tokens", Uri.encodeURIComponent Scenario.session_cookie)
  ∧ Forall (λ kv : string * string, kv.1 ≠ "google_tokens") [("theme", "dark")]
  ∧ Scenario.export_body ≠ VUndefined
  ∧ Scenario.export_body ≠ VNull
  ∧ let R := run (Scenario.google [] [] None)
               (parseCookies saveToGoogleHandler Stories.returning_export)
               0%nat fresh_response in
    settled R = Fulfilled tt
    ∧ head (trace R)
      = Some (Ev (oauth2Client_setCredentials (credentials_value Scenario.sample_tokens)) tt)
    ∧ (∃ v, payload (response R) = Some (JsonBody v))
    ∧ (statusCode (response R) = 200 ∨ statusCode (response R) = 500).
Proof.
  split; [vm_compute; reflexivity|].
  split; [repeat constructor; discriminate|].
  split; [discriminate|]. split; [discriminate|].
  apply (export_after_sign_in_uses_tokens (Scenario.google [] [] None)
           Scenario.sample_tokens [("theme", "dark")] [] ∅ Scenario.export_body 0%nat
           (Uri.encodeURIComponent Scenario.session_cookie)).
  - vm_compute; reflexivity.
  - repeat constructor; discriminate.
  - discriminate.
  - discriminate.
Defined.

(** The export of a link, spelled out: status 500, the message of
    [Buffer.from], nothing sent to Google. *)
Example linked_export_fails :
  statusCode (response Stories.linked_export) = 500
  ∧ outbound (trace Stories.linked_export) = []
  ∧ payload (response Stories.linked_export)
    = Some (JsonBody (VObj [("error", VStr
        "The first argument must be of type string or an instance of Buffer, ArrayBuffer, or Array or an Array-like Object. Received undefined")])).
Proof. repeat split. Qed.

End ExportFacts.

(* ===================================================================== *)
(** * Further properties: generation *)
(* ===================================================================== *)

Module GenerateFacts.
Import Async Client.

(** ** [trim] on a prompt that is not blank *)

Lemma trimStart_keeps_last (s : jstr) (c : N) :
  is_whitespace c = false → trimStart (s ++ [c]) ≠ [].
Proof.
  intros Hc. induction s as [|d s IH]; simpl.
  - rewrite Hc. discriminate.
  - destruct (is_whitespace d); [exact IH | discriminate].
Qed.

Lemma trimStart_nonblank (s : jstr) :
  Exists (λ c, is_whitespace c = false) s →
  ∃ c r, trimStart s = c :: r ∧ is_whitespace c = false.
Proof.
  induction s as [|d s IH]; intros H.
  - by apply Exists_nil in H.
  - simpl. destruct (is_whitespace d) eqn:Hd.
    + apply Exists_cons in H as [H | H]; [congruence | exact (IH H)].
    + eauto.
Qed.

Lemma trim_nonblank (s : jstr) :
  Exists (λ c, is_whitespace c = false) s → trim s ≠ [].
Proof.
  intros H. destruct (trimStart_nonblank s H) as (c & r & Hs & Hc).
  unfold trim, trimEnd. rewrite Hs. simpl rev.
  intros Hnil. apply (f_equal (@rev N)) in Hnil. rewrite rev_involutive in Hnil.
  exact (trimStart_keeps_last (rev r) c Hc Hnil).
Qed.

Lemma blank_or_not (s : jstr) :
  Forall (λ c, is_whitespace c = true) s ∨ Exists (λ c, is_whitespace c = false) s.
Proof.
  induction s as [|d s [IH | IH]].
  - left. constructor.
  - destruct (is_whitespace d) eqn:Hd.
    + left. constructor; assumption.
    + right. constructor. exact Hd.
  - right. apply Exists_cons_tl. exact IH.
Qed.

(** The guard of [handleGenerate] lets a prompt through exactly when it
    has a character that is not whitespace. *)
Lemma falsy_trim (s : jstr) :
  falsy (trim s) = false ↔ Exists (λ c, is_whitespace c = false) s.
Proof.
  split.
  - intros H. destruct (blank_or_not s) as [Hb | Hn]; [|exact Hn].
    rewrite (ClientFacts.trim_blank s Hb) in H. discriminate.
  - intros H. pose proof (trim_nonblank s H). destruct (trim s); [congruence | reflexivity].
Qed.

Lemma or_else_nonempty (a : option jstr) (b : jstr) : b ≠ [] → or_else a b ≠ [].
Proof. destruct a as [[|c t]|]; cbn; intros H; first [exact H | discriminate]. Qed.

Section Runs.
Context {G : Type} (serve : ∀ X, effect X → G → X * G).
Variable toString36 : double → jstr.

Ltac answer :=
  lazymatch goal with
  | |- context [serve ?X ?c ?g] => destruct (serve X c g) as [? ?] eqn:?
  end;
  repeat match goal with
  | x : (_ + _)%type |- _ => destruct x
  | x : unit |- _ => destruct x
  end; cbn.

(** X13 -- [handleGenerate] calls the generation endpoint exactly when the
    prompt has a character that is not whitespace, and then exactly once,
    with the prompt as typed (not trimmed) and the selected aspect
    ratio. *)
Theorem nonblank_prompt_sends_one_request (st store : AppState) (g : G) :
  let R := run serve (handleGenerate toString36 st) g store in
  Exists (λ c, is_whitespace c = false) (prompt st)
  ↔ ∃ answer, List.filter is_network (trace R)
              = [Ev (fetch_generate (prompt st) (aspectRatio st)) answer].
Proof.
  cbn zeta. rewrite <- falsy_trim. unfold handleGenerate.
  destruct (falsy (trim (prompt st))).
  - cbn. split; [discriminate | intros [? [=]]].
  - split; [intros _ | reflexivity].
    cbn. repeat answer; try (eexists; reflexivity).
    all: unfold res_json; destruct (json _); cbn; repeat answer;
      try (eexists; reflexivity).
    all: destruct (bool_decide _); cbn; repeat answer; eexists; reflexivity.
Qed.

(** X16 -- [handleGenerate] never rejects and touches only its own cells:
    the prompt, the selected ratio and the three Google cells are as
    before; the display and the history are either both as before or the
    new image and the history with it in front, with no error shown; and
    a history of at most 20 entries stays one. *)
Theorem generate_keeps_other_cells (st store : AppState) (g : G) :
  let R := run serve (handleGenerate toString36 st) g store in
  settled R = Fulfilled tt
  ∧ prompt (state R) = prompt store
  ∧ aspectRatio (state R) = aspectRatio store
  ∧ isSavingToGoogle (state R) = isSavingToGoogle store
  ∧ isGoogleAuthenticated (state R) = isGoogleAuthenticated store
  ∧ saveSuccess (state R) = saveSuccess store
  ∧ ((currentImage (state R) = currentImage store
      ∧ history (state R) = history store)
     ∨ ∃ img, currentImage (state R) = Some img
              ∧ history (state R) = push_history img (history store)
              ∧ error (state R) = None)
  ∧ ((length (history store) ≤ 20)%nat → (length (history (state R)) ≤ 20)%nat).
Proof.
  cbn zeta. unfold handleGenerate.
  destruct (falsy (trim (prompt st))).
  { cbn. repeat split; auto. }
  cbn. repeat answer.
  { repeat split; auto. }
  unfold res_json. destruct (json _); cbn; repeat answer.
  { repeat split; auto. }
  destruct (bool_decide _); cbn; repeat answer.
  { repeat split; auto. }
  repeat split; eauto.
  intros _. unfold push_history. rewrite length_take. lia.
Qed.

End Runs.

(** The prompt of the refused generation went out with its spaces. *)
Example refused_request_is_untrimmed :
  List.filter is_network (trace Stories.refused)
  = [Ev (fetch_generate (lit " a harbour ") R4_3) Stories.refusal].
Proof. reflexivity. Qed.

End GenerateFacts.

(* ===================================================================== *)
(** * Further properties: generation with a body that may be null *)
(* ===================================================================== *)

Module GenerationFacts.
Import Async Client Generation.

Section Runs.
Context {G : Type} (serve : ∀ X, effect X → G → X * G).
Variable toString36 : double → jstr.

Ltac answer :=
  lazymatch goal with
  | |- context [serve ?X ?c ?g] => destruct (serve X c g) as [? ?] eqn:?
  end;
  repeat match goal with
  | x : (_ + _)%type |- _ => destruct x
  | x : unit |- _ => destruct x
  end; cbn -[lit].

(** Takes the reply apart: its status is 200 or not, its body is
    rejected, an object or [null]. *)
Ltac reply_cases :=
  unfold res_json;
  match goal with
  | res : Response |- _ =>
      let s := fresh "s" in
      destruct res as [s [? | [?|]]]; cbn -[lit];
      (destruct (decide (s = 200)) as [? | ?];
       [ rewrite ?(bool_decide_eq_false_2 (s ≠ 200)) by (intros Hne; apply Hne; assumption);
         rewrite ?(bool_decide_eq_true_2 (s = 200)) by assumption
       | rewrite ?(bool_decide_eq_true_2 (s ≠ 200)) by assumption;
         rewrite ?(bool_decide_eq_false_2 (s = 200)) by assumption ])
  end; cbn -[lit].

(** X14 -- the error shown after a generation follows from the reply.  A
    rejected [fetch] or [res.json()] shows the rejection's message, or
    "Something went wrong during generation." when it has none.  A reply
    with another status than 200 shows the [error] of its body, or "Failed
    to generate image via OpenRouter" when that is absent or empty; a
    reply with status 200 and a body shows no error.  A reply whose body is
    [null] shows the message of the [TypeError] of the first read of the
    body: of [error] when the status is not 200, of [url] when it is. *)
Theorem generate_reports_failure (st store : AppState) (g : G)
    (answer : Error + Response) :
  let R := run serve (handleGenerate toString36 st) g store in
  reply (trace R) = Some answer →
  error (state R) =
    match answer with
    | inl e => Some (or_else (message e) (lit "Something went wrong during generation."))
    | inr res =>
        match json res with
        | inl e => Some (or_else (message e) (lit "Something went wrong during generation."))
        | inr None =>
            Some (lit "Cannot read properties of null (reading '"
                  ++ lit (if bool_decide (status res = 200) then "url" else "error")
                  ++ lit "')")
        | inr (Some result) =>
            if bool_decide (status res = 200) then None
            else Some (or_else (Result.error result)
                         (lit "Failed to generate image via OpenRouter"))
        end
    end.
Proof.
  cbn zeta. unfold handleGenerate.
  destruct (falsy (trim (prompt st))); [discriminate|].
  cbn -[lit]. repeat answer; intros [= <-]; [reflexivity|].
  reply_cases; repeat answer; try reflexivity.
  all: f_equal; destruct (Result.error _) as [[|? ?]|]; reflexivity.
Qed.

(** X15 -- a failed generation leaves the gallery alone: when an error is
    shown after [handleGenerate] ran on a prompt that is not blank, the
    displayed image and the history are those from before, the message is
    not empty and the spinner is off.  [Math.random()] was called only if
    the reply had status 200 and the body [null]. *)
Theorem generate_error_leaves_gallery (st store : AppState) (g : G) :
  Exists (λ c, is_whitespace c = false) (prompt st) →
  let R := run serve (handleGenerate toString36 st) g store in
  error (state R) ≠ None →
  currentImage (state R) = currentImage store
  ∧ history (state R) = history store
  ∧ isGenerating (state R) = false
  ∧ (∃ msg, error (state R) = Some msg ∧ msg ≠ [])
  ∧ (∀ r, draw (trace R) = Some r →
       ∃ res, reply (trace R) = Some (inr res)
              ∧ status res = 200 ∧ json res = inr None).
Proof.
  intros Hp. apply GenerateFacts.falsy_trim in Hp. cbn zeta.
  unfold handleGenerate. rewrite Hp.
  assert (H1 : lit "Something went wrong during generation." ≠ []) by discriminate.
  cbn -[lit]. repeat answer.
  { intros _. repeat split; try discriminate. eexists. split; [reflexivity|].
    apply GenerateFacts.or_else_nonempty, H1. }
  reply_cases; repeat answer; intros Herr.
  all: try (exfalso; apply Herr; reflexivity).
  all: repeat split; try discriminate.
  all: try (eexists; split; [reflexivity|]).
  all: try (apply GenerateFacts.or_else_nonempty, H1).
  all: try discriminate.
  - destruct (Result.error _) as [[|? ?]|]; discriminate.
  - split; [assumption | reflexivity].
Qed.

End Runs.

(** For replies with a body this handler and [Client.handleGenerate] do the
    same: against an environment of [Client], both runs end in the same
    state, settle alike and leave the same environment. *)
Lemma with_body_agrees {G} (serve : ∀ X, Client.effect X → G → X * G)
    (toString36 : double → jstr) (st store : AppState) (g : G) :
  let R := run (over serve) (handleGenerate toString36 st) g store in
  let R0 := Client.run serve (Client.handleGenerate toString36 st) g store in
  state R = Client.state R0 ∧ settled R = Client.settled R0 ∧ env R = Client.env R0.
Proof.
  cbn zeta. unfold handleGenerate, Client.handleGenerate.
  destruct (falsy (trim (prompt st))); [repeat split|].
  cbn -[lit].
  repeat (lazymatch goal with
          | |- context [serve ?X ?c ?g] => destruct (serve X c g) as [? ?] eqn:?
          end;
          repeat match goal with
          | x : (_ + _)%type |- _ => destruct x
          | x : unit |- _ => destruct x
          end; cbn -[lit]); try (repeat split; fail).
  unfold res_json, Client.res_json, widen. cbn -[lit].
  destruct (Client.json _); cbn -[lit];
  repeat (lazymatch goal with
          | |- context [serve ?X ?c ?g] => destruct (serve X c g) as [? ?] eqn:?
          end;
          repeat match goal with
          | x : (_ + _)%type |- _ => destruct x
          | x : unit |- _ => destruct x
          end; cbn -[lit]); try (repeat split; fail).
  destruct (bool_decide _); cbn -[lit];
  repeat (lazymatch goal with
          | |- context [serve ?X ?c ?g] => destruct (serve X c g) as [? ?] eqn:?
          end;
          repeat match goal with
          | x : (_ + _)%type |- _ => destruct x
          | x : unit |- _ => destruct x
          end; cbn -[lit]); repeat split.
Qed.

(** X14 at the generation that is answered with the body [null]. *)
Lemma generate_reports_failure_witness :
  reply (trace Stories.unanswered) = Some Stories.empty_reply
  ∧ error (state Stories.unanswered)
    = Some (lit "Cannot read properties of null (reading 'url')").
Proof.
  split; [reflexivity|].
  apply (generate_reports_failure (Stories.network Stories.empty_reply Scenario.half)
           exact_toString36 Stories.asking Stories.asking tt Stories.empty_reply).
  reflexivity.
Defined.

(** X15 at the same generation: the random number was drawn before the
    body was read. *)
Lemma generate_error_leaves_gallery_witness :
  Exists (λ c, is_whitespace c = false) (prompt Stories.asking)
  ∧ error (state Stories.unanswered) ≠ None
  ∧ currentImage (state Stories.unanswered) = currentImage Stories.asking
  ∧ history (state Stories.unanswered) = history Stories.asking
  ∧ isGenerating (state Stories.unanswered) = false
  ∧ (∃ msg, error (state Stories.unanswered) = Some msg ∧ msg ≠ [])
  ∧ (∀ r, draw (trace Stories.unanswered) = Some r →
       ∃ res, reply (trace Stories.unanswered) = Some (inr res)
              ∧ status res = 200 ∧ json res = inr None).
Proof.
  assert (Hp : Exists (λ c, is_whitespace c = false) (prompt Stories.asking))
    by (apply Exists_cons_tl, Exists_cons_hd; reflexivity).
  split; [exact Hp|]. split; [discriminate|].
  apply (generate_error_leaves_gallery
           (Stories.network Stories.empty_reply Scenario.half)
           exact_toString36 Stories.asking Stories.asking tt Hp).
  discriminate.
Defined.

(** In that run the random number was drawn, and nothing came of it. *)
Example null_body_draws_and_fails :
  draw (trace Stories.unanswered) = Some Scenario.half
  ∧ currentImage (state Stories.unanswered) = Some (Scenario.picture 2).
Proof. split; reflexivity. Qed.

End GenerationFacts.

(* ===================================================================== *)
(** * Further properties: the history *)
(* ===================================================================== *)

Module GalleryFacts.
Import Async Client Gallery.

Lemma remove_id_absent (id : jstr) (h : list GeneratedImage) :
  Forall (λ img, GeneratedImage.id img ≠ id) h → remove_id id h = h.
Proof.
  unfold remove_id. induction 1 as [|img h Himg _ IH]; [reflexivity|].
  rewrite filter_cons_True by exact Himg. rewrite IH. reflexivity.
Qed.

(** X18 -- generating and then deleting is the identity on the history:
    when the history was not full and no entry has the new image's id,
    removing that id after the insertion gives the history back. *)
Theorem generate_then_delete_restores_history
    (newImage : GeneratedImage) (prev : list GeneratedImage) :
  (length prev < 20)%nat →
  Forall (λ img, GeneratedImage.id img ≠ GeneratedImage.id newImage) prev →
  remove_id (GeneratedImage.id newImage) (push_history newImage prev) = prev.
Proof.
  intros Hlen Hfresh. unfold push_history.
  rewrite take_ge by (simpl; lia).
  unfold remove_id. rewrite filter_cons_False by (intros H; apply H; reflexivity).
  apply remove_id_absent, Hfresh.
Qed.

(** X17 -- under any sequence of generations, deletions and clearings, a
    history that starts with at most 20 entries keeps at most 20, and its
    entries stay most recent first: it is a subsequence of the generated
    images, latest first, followed by the entries it started with. *)
Theorem history_stays_bounded_and_ordered
    (h0 : list GeneratedImage) (us : list update) :
  (length h0 ≤ 20)%nat →
  (length (foldl apply h0 us) ≤ 20)%nat
  ∧ foldl apply h0 us `sublist_of` rev (generated us) ++ h0.
Proof.
  revert h0. induction us as [|u us IH] using rev_ind; intros h0 H0.
  - split; [exact H0 | reflexivity].
  - rewrite foldl_app. cbn [foldl]. destruct (IH h0 H0) as [Hlen Hsub].
    unfold generated. rewrite omap_app. fold (generated us).
    destruct u as [img | id |]; cbn [apply omap].
    + split.
      * unfold push_history. rewrite length_take. lia.
      * rewrite rev_app_distr. cbn.
        apply sublist_skip. etrans; [apply sublist_take | exact Hsub].
    + rewrite app_nil_r. split.
      * unfold remove_id. etrans; [apply length_filter | exact Hlen].
      * etrans; [apply sublist_filter | exact Hsub].
    + rewrite app_nil_r. split; [simpl; lia | apply sublist_nil_l].
Qed.

Section Runs.
Context {G : Type} (serve : ∀ X, effect X → G → X * G).

Ltac answer :=
  lazymatch goal with
  | |- context [serve ?X ?c ?g] => destruct (serve X c g) as [? ?] eqn:?
  end;
  repeat match goal with
  | x : (_ + _)%type |- _ => destruct x
  | x : unit |- _ => destruct x
  end; cbn.

(** X19 -- deleting an id that no entry of the history has and that the
    displayed image does not have changes nothing. *)
Theorem delete_absent_id_changes_nothing (st store : AppState) (id : jstr) (g : G) :
  Forall (λ img, GeneratedImage.id img ≠ id) (history store) →
  shows (currentImage st) id = false →
  let R := run serve (deleteFromHistory st id) g store in
  state R = store ∧ settled R = Fulfilled tt.
Proof.
  intros Hh Hs. cbn zeta. unfold deleteFromHistory. rewrite Hs. cbn. answer.
  unfold setHistory. rewrite (remove_id_absent _ _ Hh). destruct store; split; reflexivity.
Qed.

End Runs.

(** X18 at the gallery: picture 4 is generated and deleted again. *)
Lemma generate_then_delete_restores_history_witness :
  (length (history Scenario.gallery) < 20)%nat
  ∧ Forall (λ img, GeneratedImage.id img ≠ GeneratedImage.id (Scenario.picture 4))
      (history Scenario.gallery)
  ∧ remove_id (GeneratedImage.id (Scenario.picture 4))
      (push_history (Scenario.picture 4) (history Scenario.gallery))
    = history Scenario.gallery.
Proof.
  assert (Hlen : (length (history Scenario.gallery) < 20)%nat) by (simpl; lia).
  assert (Hfresh : Forall (λ img, GeneratedImage.id img
                                  ≠ GeneratedImage.id (Scenario.picture 4))
                     (history Scenario.gallery))
    by (repeat constructor; discriminate).
  split; [exact Hlen|]. split; [exact Hfresh|].
  exact (generate_then_delete_restores_history (Scenario.picture 4)
           (history Scenario.gallery) Hlen Hfresh).
Defined.

(** X17 at a session that starts from the full history. *)
Lemma history_stays_bounded_and_ordered_witness :
  (length Scenario.full_history ≤ 20)%nat
  ∧ (length (foldl apply Scenario.full_history Stories.session) ≤ 20)%nat
  ∧ foldl apply Scenario.full_history Stories.session
      `sublist_of` rev (generated Stories.session) ++ Scenario.full_history.
Proof.
  assert (Hlen : (length Scenario.full_history ≤ 20)%nat) by (vm_compute; lia).
  split; [exact Hlen|].
  exact (history_stays_bounded_and_ordered Scenario.full_history Stories.session Hlen).
Defined.

(** That session ends with pictures 22 and 21 in front of pictures 20 down
    to 2 without picture 7: the first generation evicted picture 1, and
    the deletion made room for the second. *)
Example session_history :
  foldl apply Scenario.full_history Stories.session
  = Scenario.picture 22 :: Scenario.picture 21
    :: map Scenario.picture (rev (seq 8 13) ++ rev (seq 2 5)).
Proof. reflexivity. Qed.

(** X19 at the gallery: no picture 9 is there to delete. *)
Lemma delete_absent_id_changes_nothing_witness :
  Forall (λ img, GeneratedImage.id img ≠ GeneratedImage.id (Scenario.picture 9))
    (history Scenario.gallery)
  ∧ shows (currentImage Scenario.gallery) (GeneratedImage.id (Scenario.picture 9)) = false
  ∧ state (run (Scenario.browser Scenario.ok_response Scenario.zero)
             (deleteFromHistory Scenario.gallery (GeneratedImage.id (Scenario.picture 9)))
             tt Scenario.gallery) = Scenario.gallery
  ∧ settled (run (Scenario.browser Scenario.ok_response Scenario.zero)
               (deleteFromHistory Scenario.gallery (GeneratedImage.id (Scenario.picture 9)))
               tt Scenario.gallery) = Fulfilled tt.
Proof.
  assert (Hh : Forall (λ img, GeneratedImage.id img
                              ≠ GeneratedImage.id (Scenario.picture 9))
                 (history Scenario.gallery))
    by (repeat constructor; discriminate).
  split; [exact Hh|]. split; [reflexivity|].
  exact (delete_absent_id_changes_nothing
           (Scenario.browser Scenario.ok_response Scenario.zero)
           Scenario.gallery Scenario.gallery (GeneratedImage.id (Scenario.picture 9))
           tt Hh eq_refl).
Defined.

End GalleryFacts.

(* ===================================================================== *)
(** * Further properties: Google connection, export and stored history *)
(* ===================================================================== *)

Module AppFacts.
Import Async Client App.

Section Runs.
Context {G : Type} (serve : ∀ X, effect X → G → X * G).

Ltac answer :=
  lazymatch goal with
  | |- context [serve ?X ?c ?g] => destruct (serve X c g) as [? ?] eqn:?
  end;
  repeat match goal with
  | x : (_ + _)%type |- _ => destruct x
  | x : unit |- _ => destruct x
  end; cbn -[lit].

(** Takes the three cases of a reply body: rejected, an object, [null]. *)
Ltac body :=
  unfold res_json;
  match goal with
  | r : Reply _ |- _ => destruct r as [[? | [?|]]]
  end; cbn -[lit].

(** ** handleSaveToGoogle *)

(** The export request carries the displayed image. *)
Lemma save_posts_image (st store : AppState) (g : G) (img : GeneratedImage) :
  currentImage st = Some img →
  (omap posted (trace (run serve (handleSaveToGoogle st) g store))).*1
  = [(GeneratedImage.url img, GeneratedImage.prompt img,
      GeneratedImage.aspectRatio img)].
Proof.
  intros Hc. unfold handleSaveToGoogle. rewrite Hc.
  cbn -[lit]. repeat answer; [reflexivity|].
  body; repeat answer; try reflexivity.
  destruct (SaveData.success _); cbn -[lit]; repeat answer; reflexivity.
Qed.

(** X20 -- [handleSaveToGoogle] never rejects.  Without a displayed image
    it does nothing at all; with one it posts exactly one export request,
    carrying that image's url, prompt and aspect ratio, and ends with the
    saving flag off.  It never changes the prompt, the selected ratio,
    the generating flag, the displayed image, the history or the
    connection flag. *)
Theorem save_posts_displayed_image (st store : AppState) (g : G) :
  let R := run serve (handleSaveToGoogle st) g store in
  settled R = Fulfilled tt
  ∧ (omap posted (trace R)).*1 =
      match currentImage st with
      | Some img => [(GeneratedImage.url img, GeneratedImage.prompt img,
                      GeneratedImage.aspectRatio img)]
      | None => []
      end
  ∧ (currentImage st = None → state R = store ∧ trace R = [])
  ∧ (currentImage st ≠ None → isSavingToGoogle (state R) = false)
  ∧ Client.prompt (state R) = Client.prompt store
  ∧ Client.aspectRatio (state R) = Client.aspectRatio store
  ∧ isGenerating (state R) = isGenerating store
  ∧ currentImage (state R) = currentImage store
  ∧ history (state R) = history store
  ∧ isGoogleAuthenticated (state R) = isGoogleAuthenticated store.
Proof.
  cbn zeta. unfold handleSaveToGoogle.
  destruct (currentImage st) as [img|].
  2:{ cbn. repeat split; congruence. }
  cbn -[lit]. repeat answer.
  { repeat split; congruence. }
  body; repeat answer.
  1,3: repeat split; congruence.
  destruct (SaveData.success _); cbn -[lit]; repeat answer;
    repeat split; congruence.
Qed.

(** X21 -- what the page shows after an export follows from the reply.
    The success flag is set exactly when the body has a truthy [success];
    then no error is shown and one timer is set, for 3000 ms, whose
    callback turns the success flag off again.  Otherwise no timer is set
    and the error cell takes the [error] of the body, or "Failed to save"
    when that is absent or empty; for a rejected [fetch] or [res.json()]
    it takes the rejection's message as it is, with no fallback. *)
Theorem save_outcome_follows_reply (st store : AppState) (g : G)
    (imageData prompt aspectRatio : jstr) (answer : Error + Reply SaveData.t) :
  let R := run serve (handleSaveToGoogle st) g store in
  head (omap posted (trace R)) = Some (imageData, prompt, aspectRatio, answer) →
  let granted :=
    match answer with
    | inr {| json := inr (Some data) |} => SaveData.success data
    | _ => false
    end in
  saveSuccess (state R) = granted
  ∧ omap timer (trace R) = (if granted then [(setSaveSuccess false, 3000)] else [])
  ∧ Client.error (state R) =
      match answer with
      | inl e => message e
      | inr {| json := inl e |} => message e
      | inr {| json := inr None |} =>
          Some (lit "Cannot read properties of null (reading 'success')")
      | inr {| json := inr (Some data) |} =>
          if SaveData.success data then None
          else Some (or_else (SaveData.error data) (lit "Failed to save"))
      end.
Proof.
  cbn zeta. unfold handleSaveToGoogle.
  destruct (currentImage st) as [img|]; [|discriminate].
  cbn -[lit]. repeat answer; intros [= <- <- <- <-].
  { repeat split. }
  body; repeat answer.
  1,3: repeat split.
  destruct (SaveData.success _); cbn -[lit]; repeat answer; repeat split.
Qed.

(** ** handleGoogleConnect, the status check, clearHistory, downloadImage *)

(** X23 -- [handleGoogleConnect] never rejects and never changes the
    state.  It requests the url first, and what it does next follows from
    the answer: when the request and [res.json()] succeed with a body, it
    opens one popup, named [google_oauth], 600 by 700, on the [url] of
    that body, and logs nothing; when the request or [res.json()] is
    rejected, or the body is [null], it opens nothing and logs the error
    under "Failed to get auth URL". *)
Theorem connect_opens_popup_only_with_url (store : AppState) (g : G) :
  let R := run serve handleGoogleConnect g store in
  let failed e := [Ev (console_error (lit "Failed to get auth URL") e) tt] in
  settled R = Fulfilled tt
  ∧ state R = store
  ∧ ∃ answer,
      trace R =
        Ev fetch_url answer
        :: match answer with
           | inl e => failed e
           | inr {| json := inl e |} => failed e
           | inr {| json := inr None |} =>
               failed (new_Error (lit
                 "Cannot destructure property 'url' of '(intermediate value)' as it is null."))
           | inr {| json := inr (Some data) |} =>
               [Ev (window_open (url data) (lit "google_oauth")
                      (lit "width=600,height=700")) tt]
           end.
Proof.
  cbn zeta. unfold handleGoogleConnect. cbn -[lit]. answer.
  { repeat answer. repeat split. eexists (inl _). reflexivity. }
  body; repeat answer; repeat split;
    lazymatch goal with
    | |- context [Ev fetch_url ?a] => exists a; reflexivity
    end.
Qed.

(** X27 -- the status check on mount requests the status first, and what
    follows is decided by the answer: with a body, the connection flag is
    set to its [isAuthenticated], nothing else changes and the promise is
    fulfilled; when the request or [res.json()] is rejected, or the body
    is [null], the chain ends as a promise rejected with that error:
    nothing catches it, nothing more is done and the state stays as it
    was. *)
Theorem status_check_failure_is_unhandled (store : AppState) (g : G) :
  let R := run serve checkStatus g store in
  ∃ answer,
    head (trace R) = Some (Ev fetch_status answer)
    ∧ match answer with
      | inr {| json := inr (Some data) |} =>
          settled R = Fulfilled tt
          ∧ state R = setIsGoogleAuthenticated (isAuthenticated data) store
          ∧ trace R = [Ev fetch_status answer;
                       Ev (setState (setIsGoogleAuthenticated (isAuthenticated data))) tt]
      | inl e | inr {| json := inl e |} =>
          settled R = Rejected e ∧ state R = store ∧ trace R = [Ev fetch_status answer]
      | inr {| json := inr None |} =>
          settled R = Rejected (new_Error (lit
            "Cannot read properties of null (reading 'isAuthenticated')"))
          ∧ state R = store ∧ trace R = [Ev fetch_status answer]
      end.
Proof.
  cbn zeta. unfold checkStatus. cbn -[lit]. answer.
  { eexists. split; [reflexivity|]. repeat split. }
  body; repeat answer; eexists; (split; [reflexivity|]); repeat split.
Qed.

(** X25 -- [clearHistory] asks once, "Clear all history?".  When the
    dialog is declined nothing else happens and the state is as before;
    when it is confirmed the history and the display are emptied and the
    other cells are as before. *)
Theorem clear_needs_confirmation (store : AppState) (g : G) :
  let R := run serve clearHistory g store in
  settled R = Fulfilled tt
  ∧ ∃ ok : bool, omap asked (trace R) = [(lit "Clear all history?", ok)]
    ∧ state R = (if ok then setCurrentImage None (setHistory (λ _, []) store) else store)
    ∧ length (trace R) = (if ok then 3 else 1)%nat.
Proof.
  cbn zeta. unfold clearHistory. cbn -[lit]. answer.
  match goal with b : bool |- _ => destruct b end; cbn -[lit]; repeat answer;
    (split; [reflexivity|]); eexists; repeat split.
Qed.

(** X26 -- [downloadImage] adds one link to the page, clicks it and takes
    it out again.  The link points at the url, and its file name is the
    first 20 code units of the given name followed by [.png], so at most
    24 units long; a name of at most 20 units is kept whole. *)
Theorem download_name_is_bounded (url filename : jstr) (store : AppState) (g : G) :
  let R := run serve (downloadImage url filename) g store in
  ∃ link, trace R = [Ev (document_body_appendChild link) tt;
                     Ev (link_click link) tt;
                     Ev (document_body_removeChild link) tt]
    ∧ href link = url
    ∧ download link = take 20 filename ++ lit ".png"
    ∧ (length (download link) ≤ 24)%nat
    ∧ ((length filename ≤ 20)%nat → download link = filename ++ lit ".png")
    ∧ state R = store
    ∧ settled R = Fulfilled tt.
Proof.
  cbn zeta. unfold downloadImage. cbn -[lit]. repeat answer.
  eexists. split; [reflexivity|]. cbn -[lit].
  split; [reflexivity|]. split; [reflexivity|]. split.
  { rewrite length_app, length_take. change (length (lit ".png")) with 4%nat. lia. }
  split; [|split; reflexivity].
  intros H. rewrite take_ge by exact H. reflexivity.
Qed.

(** ** The stored history *)

Section Stored.
Variable as_images : JS.jsval → list GeneratedImage.

(** X24 -- loading the stored history never throws and reads the storage
    once.  With nothing stored, or the empty text, the state stays as it
    was; a stored text that is JSON replaces the history and nothing
    else; a stored text that is not JSON is discarded: the state stays as
    it was and the failure is only logged. *)
Theorem load_discards_unreadable_history (store : AppState) (g : G) :
  let R := run serve (loadHistory as_images) g store in
  settled R = Fulfilled tt
  ∧ ∃ saved, omap read (trace R) = [saved]
    ∧ match saved with
      | None | Some EmptyString => state R = store ∧ omap logged (trace R) = []
      | Some text =>
          match Json.JSON_parse text with
          | Some v => state R = setHistory (λ _, as_images v) store
                      ∧ omap logged (trace R) = []
          | None => state R = store
                    ∧ (omap logged (trace R)).*1 = [lit "Failed to parse history"]
          end
      end.
Proof.
  cbn zeta. unfold loadHistory. cbn -[lit]. answer.
  match goal with o : option string |- _ => destruct o as [[|c s]|] end;
    cbn -[lit]; try (split; [reflexivity|]; eexists; repeat split; fail).
  destruct (Json.JSON_parse (String c s)) eqn:Hp; cbn -[lit]; repeat answer;
    (split; [reflexivity|]); eexists; (split; [reflexivity|]); cbn -[lit];
    rewrite Hp; split; reflexivity.
Qed.

End Stored.

(** ** Generation followed by an export *)

Context {G1 : Type} (network : ∀ X, Client.effect X → G1 → X * G1).
Variable toString36 : double → jstr.

Ltac reply :=
  lazymatch goal with
  | |- context [network ?X ?c ?g] => destruct (network X c g) as [? ?] eqn:?
  end;
  repeat match goal with
  | x : (_ + _)%type |- _ => destruct x
  | x : unit |- _ => destruct x
  end; cbn.

(** The image shown after a reply with status 200. *)
Lemma generate_shows_reply (st store : AppState) (g1 : G1)
    (res : Response) (result : Result.t) :
  let R1 := Client.run network (handleGenerate toString36 st) g1 store in
  Client.reply (Client.trace R1) = Some (inr res) →
  status res = 200 →
  Client.json res = inr result →
  ∃ img, currentImage (Client.state R1) = Some img
    ∧ GeneratedImage.url img = Result.url result
    ∧ GeneratedImage.prompt img = Result.prompt result
    ∧ GeneratedImage.aspectRatio img = ratio_string (Client.aspectRatio st).
Proof.
  cbn zeta. unfold handleGenerate.
  destruct (falsy (trim (Client.prompt st))); [discriminate|].
  cbn. repeat reply; try discriminate.
  intros [= <-] Hstatus Hjson. unfold Client.res_json. rewrite Hjson. cbn.
  rewrite bool_decide_eq_false_2 by (intros Hne; apply Hne, Hstatus).
  cbn. repeat reply. eexists. repeat split.
Qed.

(** X22 -- generation, then export: after a generation that got a reply
    with status 200, an export from the resulting page posts the url and
    the prompt of that reply (not the prompt that was typed) and the
    aspect ratio that was selected when the generation started. *)
Theorem save_after_generate_exports_reply (st store : AppState) (g1 : G1) (g : G)
    (res : Response) (result : Result.t) :
  let R1 := Client.run network (handleGenerate toString36 st) g1 store in
  Client.reply (Client.trace R1) = Some (inr res) →
  status res = 200 →
  Client.json res = inr result →
  let shown := Client.state R1 in
  let R := run serve (handleSaveToGoogle shown) g shown in
  (omap posted (trace R)).*1
  = [(Result.url result, Result.prompt result, ratio_string (Client.aspectRatio st))].
Proof.
  cbn zeta. intros Hreply Hstatus Hjson.
  destruct (generate_shows_reply st store g1 res result Hreply Hstatus Hjson)
    as (img & Hshown & Hurl & Hprompt & Hratio).
  rewrite (save_posts_image _ _ _ img Hshown), Hurl, Hprompt, Hratio.
  reflexivity.
Qed.

End Runs.

(** X21 at the export of the gallery's displayed picture. *)
Lemma save_outcome_follows_reply_witness :
  head (omap posted (trace Stories.save_shown))
    = Some (GeneratedImage.url (Scenario.picture 2),
            GeneratedImage.prompt (Scenario.picture 2),
            GeneratedImage.aspectRatio (Scenario.picture 2), Stories.saved_ok)
  ∧ saveSuccess (state Stories.save_shown) = true
  ∧ omap timer (trace Stories.save_shown) = [(setSaveSuccess false, 3000)]
  ∧ Client.error (state Stories.save_shown) = None.
Proof.
  split; [reflexivity|].
  apply (save_outcome_follows_reply (Stories.page Stories.saved_ok None)
           Scenario.gallery Scenario.gallery tt
           (GeneratedImage.url (Scenario.picture 2))
           (GeneratedImage.prompt (Scenario.picture 2))
           (GeneratedImage.aspectRatio (Scenario.picture 2)) Stories.saved_ok).
  reflexivity.
Defined.

(** X22 at the generation of the scenario, followed by an export. *)
Lemma save_after_generate_exports_reply_witness :
  Client.reply (Client.trace (Scenario.generate Scenario.half))
    = Some (inr {| status := 200; Client.json := inr Scenario.generated |})
  ∧ status {| status := 200; Client.json := inr Scenario.generated |} = 200
  ∧ Client.json {| status := 200; Client.json := inr Scenario.generated |}
    = inr Scenario.generated
  ∧ (omap posted (trace (run (Stories.page Stories.saved_ok None)
        (handleSaveToGoogle (Client.state (Scenario.generate Scenario.half)))
        tt (Client.state (Scenario.generate Scenario.half))))).*1
    = [(Result.url Scenario.generated, Result.prompt Scenario.generated,
        ratio_string (Client.aspectRatio (Scenario.typed "a lighthouse at dusk")))].
Proof.
  split; [reflexivity|]. split; [reflexivity|]. split; [reflexivity|].
  apply (save_after_generate_exports_reply (Stories.page Stories.saved_ok None)
           (Scenario.browser Scenario.ok_response Scenario.half) exact_toString36
           (Scenario.typed "a lighthouse at dusk") (Scenario.typed "a lighthouse at dusk")
           tt tt {| status := 200; Client.json := inr Scenario.generated |}
           Scenario.generated); reflexivity.
Defined.

(** A stored text that is cut off in the middle is discarded, and a page
    that loads it keeps its empty history. *)
Example truncated_history_is_discarded :
  state (run (Stories.page Stories.saved_ok (Some "[{")) (loadHistory (λ _, []))
           tt initial_state) = initial_state
  ∧ (omap logged (trace (run (Stories.page Stories.saved_ok (Some "[{"))
                           (loadHistory (λ _, [])) tt initial_state))).*1
    = [lit "Failed to parse history"].
Proof. split; reflexivity. Qed.

End AppFacts.
